(** * The multithreaded stock exchange server

    A shallow embedding of [Multithreaded_Stock_Exchange_Web_Server.cpp]:
    the shared ledger [sm::stockMap], the five transactions [reset],
    [create], [buy], [sell] and [status], the session [clientThread] and the
    acceptor loop [runServer].

    The program is concurrent, so it is modelled as a machine whose steps are
    the statements that touch shared memory.  Every client thread has a
    program point ([pc]); one step of one thread executes the statement at
    its program point on the shared state.  Threads are interleaved by a
    schedule, a list of [event]s.  Each statement is atomic and its effect is
    seen by all threads at once: the program is read as sequentially
    consistent, which gives its unsynchronised accesses their most benign
    meaning.  A transaction called in isolation is the same machine with only
    that thread scheduled.

    In the machine the request of a session is the text [extractURL] and
    [url_decode] deliver, and of what [HTTPResponse] writes the message is
    kept.  The three functions themselves are functions on text and are
    embedded apart (modules [Http] and [Url]); [url_decode], which this
    file only declares, is taken from the web server of the repository. *)

From Stdlib Require Import Ascii String ZArith ssreflect.
From stdpp Require Import gmap strings pretty list.

Open Scope Z_scope.

(** ** Machine integers *)

(** [unsigned int] is 32 bits wide; arithmetic on it wraps around. *)
Definition UINT_MAX : Z := 4294967295.
Definition wrap (x : Z) : Z := x mod (UINT_MAX + 1).

(** [std::atomic<int>]: increments and decrements wrap in two's complement. *)
Definition INT_MAX : Z := 2147483647.
Definition wrap_int (x : Z) : Z := (x + INT_MAX + 1) mod (UINT_MAX + 1) - INT_MAX - 1.

(** [std::to_string] on an unsigned value: its decimal digits. *)
Definition to_string (x : Z) : string := pretty x.

(** ** Reading the request (clientThread, lines 253-261) *)

Module Request.

(** [std::replace(request.begin(), request.end(), from, to)]. *)
Fixpoint replace (from to : ascii) (s : string) : string :=
  match s with
  | EmptyString => EmptyString
  | String c s' =>
      String (if Ascii.eqb c from then to else c) (replace from to s')
  end.

(** [std::isspace] in the C locale: space, and the controls 9 to 13. *)
Definition isspace (c : ascii) : bool :=
  let n := N_of_ascii c in
  (N.eqb n 32 || (N.leb 9 n && N.leb n 13))%bool.

Definition isdigit (c : ascii) : bool :=
  let n := N_of_ascii c in (N.leb 48 n && N.leb n 57)%bool.

Fixpoint skipws (s : string) : string :=
  match s with
  | String c s' => if isspace c then skipws s' else s
  | EmptyString => EmptyString
  end.

(** The longest prefix of characters satisfying [p], and what follows it. *)
Fixpoint span (p : ascii → bool) (s : string) : string * string :=
  match s with
  | String c s' =>
      if p c then let '(w, r) := span p s' in (String c w, r)
      else (EmptyString, s)
  | EmptyString => (EmptyString, EmptyString)
  end.

(** An input string stream: the characters not yet read and whether the
    stream is still good.  Once an extraction has failed, every later
    extraction leaves its variable untouched. *)
Record istream := { rest : string; good : bool }.

(** [is >> word] for a [std::string]: skip white space, then read up to the
    next white space.  Reading no character at all fails and leaves the
    variable empty. *)
Definition get_word (old : string) (ins : istream) : string * istream :=
  if good ins then
    match span (λ c, negb (isspace c)) (skipws (rest ins)) with
    | (EmptyString, r) => (EmptyString, {| rest := r; good := false |})
    | (w, r) => (w, {| rest := r; good := true |})
    end
  else (old, ins).

(** The value of a string of decimal digits. *)
Fixpoint digits_value (acc : Z) (s : string) : Z :=
  match s with
  | String c s' => digits_value (10 * acc + (Z.of_N (N_of_ascii c) - 48)) s'
  | EmptyString => acc
  end.

(** [is >> amount] for an [unsigned int]: skip white space, an optional
    sign, then decimal digits.  Without a digit the extraction fails and
    stores zero; a magnitude above [UINT_MAX] fails and stores [UINT_MAX];
    a leading minus negates the magnitude in [unsigned int] (as the GNU
    and LLVM libraries do).  On a stream that has already failed the
    variable keeps its value. *)
Definition get_uint (old : Z) (ins : istream) : Z * istream :=
  if good ins then
    let s := skipws (rest ins) in
    let '(neg, s1) :=
      match s with
      | String "-" s' => (true, s')
      | String "+" s' => (false, s')
      | _ => (false, s)
      end in
    match span isdigit s1 with
    | (EmptyString, r) => (0, {| rest := r; good := false |})
    | (ds, r) =>
        let v := digits_value 0 ds in
        if UINT_MAX <? v then (UINT_MAX, {| rest := r; good := false |})
        else ((if neg : bool then wrap (- v) else v), {| rest := r; good := true |})
    end
  else (old, ins).

(** The three fields the session reads out of a request. *)
Record command := { trans : string; stock : string; amount : Z }.

(** Lines 255-261: both separators become blanks, then
    [>> dummy >> trans >> dummy >> stock >> dummy >> amount], with
    [amount] initialised to 0 and the strings empty. *)
Definition parse (request : string) : command :=
  let r := replace "=" " " (replace "&" " " request) in
  let ins := {| rest := r; good := true |} in
  let '(dummy, ins) := get_word "" ins in
  let '(trans, ins) := get_word "" ins in
  let '(dummy, ins) := get_word dummy ins in
  let '(stock, ins) := get_word "" ins in
  let '(dummy, ins) := get_word dummy ins in
  let '(amount, ins) := get_uint 0 ins in
  {| trans := trans; stock := stock; amount := amount |}.

End Request.

(** ** The shared state (namespace [sm]) *)

(** Threads are numbered in the order [runServer] creates them. *)
Abbreviation tid := nat.

(** Modelled from the spec: the class [Stock] is declared in [Stock.h], which
    is not among the sources; only its uses are ([name], [balance] and
    [mutex]).  The spec's data model gives an instrument a name and a
    non-negative integer balance, owned together with its own lock.  The
    balance is taken at the type of the amounts it is compared with and
    updated by, [unsigned int].  A [std::mutex] is modelled by its owner:
    [None] when free, [Some t] while thread [t] holds it. *)
Record Stock := { name : string; balance : Z; mutex : option tid }.

Definition set_name (s : string) (st : Stock) : Stock :=
  {| name := s; balance := balance st; mutex := mutex st |}.
Definition set_balance (b : Z) (st : Stock) : Stock :=
  {| name := name st; balance := b; mutex := mutex st |}.
Definition set_mutex (o : option tid) (st : Stock) : Stock :=
  {| name := name st; balance := balance st; mutex := o |}.

(** The entry [operator[]] inserts for a missing key: value-initialised,
    with a fresh unlocked mutex. *)
Definition new_Stock : Stock := {| name := ""; balance := 0; mutex := None |}.

(** [stockMap[stock]]: the entry under [stock], value-initialised first when
    the key is missing. *)
Definition subscript (stock : string) (m : gmap string Stock) : Stock :=
  default new_Stock (m !! stock).

(** A write through [stockMap[stock]]: the entry (inserted if missing) is
    replaced by [f] of it. *)
Definition assign (stock : string) (f : Stock → Stock)
    (m : gmap string Stock) : gmap string Stock :=
  <[stock := f (subscript stock m)]> m.

(** The end of a [Lock] on the mutex of [stock] taken by thread [t]: the
    mutex is released if [t] still owns it.  (After [clear] the mutex the
    [Lock] refers to is gone, and there is nothing left to release.) *)
Definition release (t : tid) (stock : string)
    (m : gmap string Stock) : gmap string Stock :=
  match m !! stock with
  | Some st => if bool_decide (mutex st = Some t) then <[stock := set_mutex None st]> m else m
  | None => m
  end.

(** Program points of a client thread.  Each names the statement of the
    source the thread executes next (line numbers of the source file). *)
Inductive pc :=
  | CT_enter (request : string)               (* 247  sm::threadCount++ *)
  | CT_dispatch (request : string)            (* 250-275  parse, choose the transaction *)
  | Reset_clear                               (* 63   sm::stockMap.clear() *)
  | Create_find (stock : string) (amount : Z) (* 81   find(stock) == end() *)
  | Create_name (stock : string) (amount : Z) (* 83   stockMap[stock].name = stock *)
  | Create_balance (stock : string) (amount : Z) (* 84  stockMap[stock].balance = amount *)
  | Buy_find (stock : string) (amount : Z)    (* 108  find(stock) != end() *)
  | Buy_lock (stock : string) (amount : Z)    (* 114  Lock lock(stockMap[stock].mutex) *)
  | Buy_pred (stock : string) (amount : Z)    (* 115-117  the predicate, lock held *)
  | Buy_wait (stock : string) (amount : Z)    (* 115  asleep in buyCond.wait, lock released *)
  | Buy_relock (stock : string) (amount : Z)  (* 115  woken, taking the lock again *)
  | Buy_update (stock : string) (amount : Z)  (* 119  stockMap[stock].balance -= amount *)
  | Buy_unlock (stock : string)               (* 121  end of the Lock's scope *)
  | Sell_find (stock : string) (amount : Z)   (* 142  find(stock) != end() *)
  | Sell_lock (stock : string) (amount : Z)   (* 146  Lock lock(stockMap[stock].mutex) *)
  | Sell_update (stock : string) (amount : Z) (* 148  stockMap[stock].balance += amount *)
  | Sell_notify (stock : string)              (* 151  sm::buyCond.notify_all() *)
  | Sell_unlock (stock : string)              (* 153  end of the Lock's scope *)
  | Status_find (stock : string)              (* 170  find(stock) != end() *)
  | Status_lock (stock : string)              (* 174  Lock lock(stockMap[stock].mutex) *)
  | Status_read (stock : string)              (* 176  balance = stockMap[stock].balance *)
  | Status_unlock (stock : string) (bal : Z)  (* 178  end of the Lock's scope *)
  | CT_respond (msg : string)                 (* 277  HTTPResponse(os, msg) *)
  | CT_leave                                  (* 279  sm::threadCount-- *)
  | CT_notify                                 (* 281  sm::countCond.notify_one() *)
  | CT_done.

(** Program points of [runServer]; [c] is the request the accepted
    connection carries. *)
Inductive apc :=
  | A_accept                  (* 304-305  server.accept *)
  | A_lock (c : string)       (* 310  Lock lock(sm::serverMutex) *)
  | A_pred (c : string)       (* 313-314  threadCount < maxThreads, lock held *)
  | A_wait (c : string)       (* 313  asleep in countCond.wait, lock released *)
  | A_relock (c : string)     (* 313  woken, taking the lock again *)
  | A_spawn (c : string)      (* 315-316  std::thread thr(...); thr.detach() *)
  | A_unlock.                 (* 317  end of the Lock's scope *)

(** Balance changes, recorded in the order they happen.  The history is
    ghost state: no step reads it. *)
Inductive txn :=
  | Created (stock : string) (amount : Z)
  | Bought (stock : string) (amount : Z)
  | Sold (stock : string) (amount : Z).

Record State := {
  stockMap : gmap string Stock;   (* sm::stockMap *)
  threadCount : Z;                (* sm::threadCount *)
  serverMutex : bool;             (* sm::serverMutex, taken by runServer only *)
  threads : gmap tid pc;          (* the detached client threads *)
  sent : gmap tid string;         (* the message each session has written *)
  acceptor : apc;                 (* where runServer stands *)
  backlog : list string;          (* connections not yet accepted *)
  spawned : nat;                  (* threads created so far *)
  history : list txn;             (* ghost *)
  crashed : bool                  (* std::terminate was called *)
}.

Definition with_stockMap (m : gmap string Stock) (σ : State) : State :=
  {| stockMap := m; threadCount := threadCount σ; serverMutex := serverMutex σ;
     threads := threads σ; sent := sent σ; acceptor := acceptor σ;
     backlog := backlog σ; spawned := spawned σ; history := history σ;
     crashed := crashed σ |}.
Definition with_threadCount (n : Z) (σ : State) : State :=
  {| stockMap := stockMap σ; threadCount := n; serverMutex := serverMutex σ;
     threads := threads σ; sent := sent σ; acceptor := acceptor σ;
     backlog := backlog σ; spawned := spawned σ; history := history σ;
     crashed := crashed σ |}.
Definition with_serverMutex (b : bool) (σ : State) : State :=
  {| stockMap := stockMap σ; threadCount := threadCount σ; serverMutex := b;
     threads := threads σ; sent := sent σ; acceptor := acceptor σ;
     backlog := backlog σ; spawned := spawned σ; history := history σ;
     crashed := crashed σ |}.
Definition with_threads (ts : gmap tid pc) (σ : State) : State :=
  {| stockMap := stockMap σ; threadCount := threadCount σ; serverMutex := serverMutex σ;
     threads := ts; sent := sent σ; acceptor := acceptor σ;
     backlog := backlog σ; spawned := spawned σ; history := history σ;
     crashed := crashed σ |}.
Definition with_sent (s : gmap tid string) (σ : State) : State :=
  {| stockMap := stockMap σ; threadCount := threadCount σ; serverMutex := serverMutex σ;
     threads := threads σ; sent := s; acceptor := acceptor σ;
     backlog := backlog σ; spawned := spawned σ; history := history σ;
     crashed := crashed σ |}.
Definition with_acceptor (a : apc) (σ : State) : State :=
  {| stockMap := stockMap σ; threadCount := threadCount σ; serverMutex := serverMutex σ;
     threads := threads σ; sent := sent σ; acceptor := a;
     backlog := backlog σ; spawned := spawned σ; history := history σ;
     crashed := crashed σ |}.
Definition with_backlog (l : list string) (σ : State) : State :=
  {| stockMap := stockMap σ; threadCount := threadCount σ; serverMutex := serverMutex σ;
     threads := threads σ; sent := sent σ; acceptor := acceptor σ;
     backlog := l; spawned := spawned σ; history := history σ;
     crashed := crashed σ |}.
Definition with_spawned (n : nat) (σ : State) : State :=
  {| stockMap := stockMap σ; threadCount := threadCount σ; serverMutex := serverMutex σ;
     threads := threads σ; sent := sent σ; acceptor := acceptor σ;
     backlog := backlog σ; spawned := n; history := history σ;
     crashed := crashed σ |}.
Definition record (x : txn) (σ : State) : State :=
  {| stockMap := stockMap σ; threadCount := threadCount σ; serverMutex := serverMutex σ;
     threads := threads σ; sent := sent σ; acceptor := acceptor σ;
     backlog := backlog σ; spawned := spawned σ; history := history σ ++ [x];
     crashed := crashed σ |}.
Definition terminate (σ : State) : State :=
  {| stockMap := stockMap σ; threadCount := threadCount σ; serverMutex := serverMutex σ;
     threads := threads σ; sent := sent σ; acceptor := acceptor σ;
     backlog := backlog σ; spawned := spawned σ; history := history σ;
     crashed := true |}.

(** Thread [t] moves on to program point [p]. *)
Definition goto (t : tid) (p : pc) (σ : State) : State :=
  with_threads (<[t := p]> (threads σ)) σ.

(** ** The statements *)

(** [notify_all] on [sm::buyCond]: every thread asleep in a buy wakes up and
    will take its lock again.  The condition variable is shared by all
    stocks, so buyers of every stock are woken. *)
Definition wake_buyer (p : pc) : pc :=
  match p with
  | Buy_wait s a => Buy_relock s a
  | _ => p
  end.

Definition notify_all (ts : gmap tid pc) : gmap tid pc := wake_buyer <$> ts.

(** [notify_one] on [sm::countCond]: only [runServer] ever waits on it. *)
Definition notify_one (a : apc) : apc :=
  match a with
  | A_wait c => A_relock c
  | _ => a
  end.

(** Lines 263-275: the transaction is chosen by [trans] alone. *)
Definition dispatch (c : Request.command) : pc :=
  let trans := Request.trans c in
  let stock := Request.stock c in
  let amount := Request.amount c in
  if String.eqb trans "reset" then Reset_clear
  else if String.eqb trans "create" then Create_find stock amount
  else if String.eqb trans "buy" then Buy_find stock amount
  else if String.eqb trans "sell" then Sell_find stock amount
  else if String.eqb trans "status" then Status_find stock
  else CT_respond "Invalid request".

(** [Lock lock(sm::stockMap[stock].mutex)] by thread [t]: [operator[]]
    inserts a missing entry, then the thread takes the mutex, or cannot
    move while another thread holds it. *)
Definition acquire (t : tid) (stock : string)
    (m : gmap string Stock) : option (gmap string Stock) :=
  let st := subscript stock m in
  match mutex st with
  | None => Some (<[stock := set_mutex (Some t) st]> m)
  | Some _ => None
  end.

(** The transactions and the session, statement by statement.  Each of
    the functions below executes, for thread [t], the statement of that
    source function at program point [p].  [None]: the thread cannot move
    (it waits for a mutex, sleeps on the condition variable, or has
    finished).

    [buyCond.wait(lock, pred)] is [while (!pred()) wait(lock)]: the
    predicate is evaluated with the mutex held; when it is false, [wait]
    releases the mutex and puts the thread to sleep in one step, and a
    woken thread takes the mutex again before the predicate is evaluated
    anew. *)

(** [reset], lines 62-65. *)
Definition reset (t : tid) (p : pc) (σ : State) : option State :=
  match p with
  | Reset_clear =>
      Some (goto t (CT_respond "Stocks reset") (with_stockMap ∅ σ))
  | _ => None
  end.

(** [create], lines 78-92. *)
Definition create (t : tid) (p : pc) (σ : State) : option State :=
  let m := stockMap σ in
  match p with
  | Create_find s a =>
      match m !! s with
      | None => Some (goto t (Create_name s a) σ)
      | Some _ => Some (goto t (CT_respond ("Stock " +:+ s +:+ " already exists")) σ)
      end
  | Create_name s a =>
      Some (goto t (Create_balance s a) (with_stockMap (assign s (set_name s) m) σ))
  | Create_balance s a =>
      Some (goto t (CT_respond ("Stock " +:+ s +:+ " created with balance = "
                                  +:+ to_string a))
              (record (Created s a) (with_stockMap (assign s (set_balance a) m) σ)))
  | _ => None
  end.

(** [buy], lines 105-126. *)
Definition buy (t : tid) (p : pc) (σ : State) : option State :=
  let m := stockMap σ in
  match p with
  | Buy_find s a =>
      match m !! s with
      | Some _ => Some (goto t (Buy_lock s a) σ)
      | None => Some (goto t (CT_respond "Stock not found") σ)
      end
  | Buy_lock s a =>
      m' ← acquire t s m;
      Some (goto t (Buy_pred s a) (with_stockMap m' σ))
  | Buy_pred s a =>
      match m !! s with
      | None =>
          (* [at] throws std::out_of_range; nothing catches it *)
          Some (terminate σ)
      | Some st =>
          if a <=? balance st then Some (goto t (Buy_update s a) σ)
          else Some (goto t (Buy_wait s a) (with_stockMap (release t s m) σ))
      end
  | Buy_wait s a => None
  | Buy_relock s a =>
      match m !! s with
      | Some _ =>
          m' ← acquire t s m;
          Some (goto t (Buy_pred s a) (with_stockMap m' σ))
      | None =>
          (* the mutex went with the entry; no thread contends for it *)
          Some (goto t (Buy_pred s a) σ)
      end
  | Buy_update s a =>
      Some (goto t (Buy_unlock s)
              (record (Bought s a)
                 (with_stockMap
                    (assign s (λ st, set_balance (wrap (balance st - a)) st) m) σ)))
  | Buy_unlock s =>
      Some (goto t (CT_respond ("Stock " +:+ s +:+ "'s balance updated"))
              (with_stockMap (release t s m) σ))
  | _ => None
  end.

(** [sell], lines 139-158. *)
Definition sell (t : tid) (p : pc) (σ : State) : option State :=
  let m := stockMap σ in
  match p with
  | Sell_find s a =>
      match m !! s with
      | Some _ => Some (goto t (Sell_lock s a) σ)
      | None => Some (goto t (CT_respond "Stock not found") σ)
      end
  | Sell_lock s a =>
      m' ← acquire t s m;
      Some (goto t (Sell_update s a) (with_stockMap m' σ))
  | Sell_update s a =>
      Some (goto t (Sell_notify s)
              (record (Sold s a)
                 (with_stockMap
                    (assign s (λ st, set_balance (wrap (balance st + a)) st) m) σ)))
  | Sell_notify s =>
      Some (goto t (Sell_unlock s) (with_threads (notify_all (threads σ)) σ))
  | Sell_unlock s =>
      Some (goto t (CT_respond ("Stock " +:+ s +:+ "'s balance updated"))
              (with_stockMap (release t s m) σ))
  | _ => None
  end.

(** [status], lines 168-183. *)
Definition status (t : tid) (p : pc) (σ : State) : option State :=
  let m := stockMap σ in
  match p with
  | Status_find s =>
      match m !! s with
      | Some _ => Some (goto t (Status_lock s) σ)
      | None => Some (goto t (CT_respond "Stock not found") σ)
      end
  | Status_lock s =>
      m' ← acquire t s m;
      Some (goto t (Status_read s) (with_stockMap m' σ))
  | Status_read s =>
      Some (goto t (Status_unlock s (balance (subscript s m)))
              (with_stockMap (assign s id m) σ))
  | Status_unlock s bal =>
      Some (goto t (CT_respond ("Balance for stock " +:+ s +:+ " = " +:+ to_string bal))
              (with_stockMap (release t s m) σ))
  | _ => None
  end.

(** [clientThread], lines 245-282: the statements around the call of the
    transaction. *)
Definition clientThread (t : tid) (p : pc) (σ : State) : option State :=
  match p with
  | CT_enter req =>
      Some (goto t (CT_dispatch req)
              (with_threadCount (wrap_int (threadCount σ + 1)) σ))
  | CT_dispatch req =>
      Some (goto t (dispatch (Request.parse req)) σ)
  | CT_respond msg =>
      Some (goto t CT_leave (with_sent (<[t := msg]> (sent σ)) σ))
  | CT_leave =>
      Some (goto t CT_notify (with_threadCount (wrap_int (threadCount σ - 1)) σ))
  | CT_notify =>
      Some (goto t CT_done (with_acceptor (notify_one (acceptor σ)) σ))
  | _ => None
  end.

(** The statement at program point [p], executed by thread [t]: the one of
    the function the program point lies in. *)
Definition exec (t : tid) (p : pc) (σ : State) : option State :=
  match p with
  | CT_enter _ | CT_dispatch _ | CT_respond _ | CT_leave | CT_notify | CT_done =>
      clientThread t p σ
  | Reset_clear => reset t p σ
  | Create_find _ _ | Create_name _ _ | Create_balance _ _ => create t p σ
  | Buy_find _ _ | Buy_lock _ _ | Buy_pred _ _ | Buy_wait _ _ | Buy_relock _ _
  | Buy_update _ _ | Buy_unlock _ => buy t p σ
  | Sell_find _ _ | Sell_lock _ _ | Sell_update _ _ | Sell_notify _
  | Sell_unlock _ => sell t p σ
  | Status_find _ | Status_lock _ | Status_read _ | Status_unlock _ _ => status t p σ
  end.

(** One statement of client thread [t]; no thread moves once the process
    has been terminated. *)
Definition client_step (t : tid) (σ : State) : option State :=
  if crashed σ then None else
  p ← threads σ !! t; exec t p σ.

(** [runServer], lines 300-318, one statement at a time.
    [countCond.wait(lock, pred)] is read as the wait of [buy]. *)
Definition runServer (maxThreads : Z) (σ : State) : option State :=
  if crashed σ then None else
  match acceptor σ with
  | A_accept =>
      match backlog σ with
      | c :: cs => Some (with_acceptor (A_lock c) (with_backlog cs σ))
      | [] => None
      end
  | A_lock c =>
      if serverMutex σ then None
      else Some (with_acceptor (A_pred c) (with_serverMutex true σ))
  | A_pred c =>
      if threadCount σ <? maxThreads then Some (with_acceptor (A_spawn c) σ)
      else Some (with_acceptor (A_wait c) (with_serverMutex false σ))
  | A_wait c => None
  | A_relock c =>
      if serverMutex σ then None
      else Some (with_acceptor (A_pred c) (with_serverMutex true σ))
  | A_spawn c =>
      Some (with_acceptor A_unlock
              (with_spawned (S (spawned σ))
                 (with_threads (<[spawned σ := CT_enter c]> (threads σ)) σ)))
  | A_unlock =>
      Some (with_acceptor A_accept (with_serverMutex false σ))
  end.

(** What the scheduler can pick: a statement of a client thread, a statement
    of [runServer], or a spurious wake-up of a sleeping thread. *)
Inductive event :=
  | Client (t : tid)
  | Acceptor
  | Spurious (t : tid)
  | SpuriousAcceptor.

Definition step (maxThreads : Z) (e : event) (σ : State) : option State :=
  match e with
  | Client t => client_step t σ
  | Acceptor => runServer maxThreads σ
  | Spurious t =>
      if crashed σ then None else
      match threads σ !! t with
      | Some (Buy_wait s a) => Some (goto t (Buy_relock s a) σ)
      | _ => None
      end
  | SpuriousAcceptor =>
      if crashed σ then None else
      match acceptor σ with
      | A_wait c => Some (with_acceptor (A_relock c) σ)
      | _ => None
      end
  end.

(** A schedule, run from a state.  [None]: some event of the schedule could
    not happen. *)
Fixpoint run (maxThreads : Z) (es : list event) (σ : State) : option State :=
  match es with
  | [] => Some σ
  | e :: es' => σ' ← step maxThreads e σ; run maxThreads es' σ'
  end.

(** The server at start-up, with the connections that will arrive. *)
Definition boot (connections : list string) : State :=
  {| stockMap := ∅; threadCount := 0; serverMutex := false; threads := ∅;
     sent := ∅; acceptor := A_accept; backlog := connections; spawned := 0%nat;
     history := []; crashed := false |}.

(** ** Schedules and what is observed of a run *)

(** The schedule in which thread [t] alone executes [k] statements. *)
Definition alone (t : tid) (k : nat) : list event := replicate k (Client t).

(** Statements that read or write [sm::stockMap]. *)
Definition touches_ledger (p : pc) : bool :=
  match p with
  | CT_enter _ | CT_dispatch _ | CT_respond _ | CT_leave | CT_notify | CT_done => false
  | _ => true
  end.

(** The state the server is in after it has been started with
    [connections] under a bound of 8 threads and has run the schedule [es]
    (the start-up state when the schedule cannot be run). *)
Definition reached (connections : list string) (es : list event) : State :=
  default (boot connections) (run 8 es (boot connections)).

(** Accepting one connection takes [runServer] five statements; a new
    thread reaches its transaction in two (lines 247 and 250-275). *)
Definition accepting (n : nat) : list event := replicate (5 * n) Acceptor.

(** The state a session leaves behind when it has answered [msg] without
    calling a transaction: the counter went up and down again, the message
    was written, the acceptor was notified. *)
Definition answered (t : tid) (msg : string) (σ : State) : State :=
  {| stockMap := stockMap σ;
     threadCount := wrap_int (wrap_int (threadCount σ + 1) - 1);
     serverMutex := serverMutex σ;
     threads := <[t := CT_done]> (threads σ);
     sent := <[t := msg]> (sent σ);
     acceptor := notify_one (acceptor σ);
     backlog := backlog σ; spawned := spawned σ; history := history σ;
     crashed := crashed σ |}.

(** What an instrument has received ([create], [sell]) and what buyers have
    taken from it, read off the history. *)
Definition supplied (s : string) (h : list txn) : Z :=
  foldr (λ x acc,
           match x with
           | Created s' a | Sold s' a => if String.eqb s s' then a + acc else acc
           | Bought _ _ => acc
           end) 0 h.

Definition bought (s : string) (h : list txn) : Z :=
  foldr (λ x acc,
           match x with
           | Bought s' a => if String.eqb s s' then a + acc else acc
           | _ => acc
           end) 0 h.

(** Threads that have counted themselves in and not yet out: the sessions
    between [threadCount++] and [threadCount--]. *)
Definition in_session (p : pc) : bool :=
  match p with
  | CT_enter _ | CT_notify | CT_done => false
  | _ => true
  end.

Definition sessions (σ : State) : nat :=
  length (filter (λ x, in_session x.2 = true) (map_to_list (threads σ))).

(** The race of [create] with [buy].  Two sessions create the same new
    name; both pass the lookup of line 81 before either inserts.  Between
    the insertion by the first and the assignment of line 84 by the second,
    a buyer takes the lock and passes its predicate. *)
Definition racing_creates : list string :=
  ["trans=create&stock=ACME&amount=10"; "trans=create&stock=ACME&amount=5";
   "trans=buy&stock=ACME&amount=10"; "trans=buy&stock=ACME&amount=1000"].

Definition checked : list event :=
  accepting 4
  ++ alone 0 3        (* create 10: threadCount++, dispatch, find: absent *)
  ++ alone 1 3        (* create 5:  threadCount++, dispatch, find: absent *)
  ++ alone 0 3        (* create 10: name, balance = 10, respond *)
  ++ alone 2 5.       (* buy 10: threadCount++, dispatch, find, lock, 10 <= 10 *)

Definition overwritten : list event :=
  checked ++ alone 1 3.   (* create 5: name, balance = 5, respond *)

Definition decremented : list event :=
  overwritten ++ alone 2 3.   (* buy 10: balance -= 10, unlock, respond *)

(** The market after [create ACME 100] has been served, with a buyer of
    150, a seller of 100 and a status request waiting to be accepted. *)
Definition market : State :=
  reached ["trans=create&stock=ACME&amount=100"; "trans=buy&stock=ACME&amount=150";
           "trans=sell&stock=ACME&amount=100"; "trans=status&stock=ACME"]
    (accepting 1 ++ alone 0 8).

(** The buyer finds 100, sleeps; the seller adds 100 and wakes it; the buyer
    checks again and takes 150; the status request reads the balance. *)
Definition trading : list event :=
  accepting 3
  ++ alone 1 5        (* buy 150: count in, dispatch, find, lock, 150 <= 100 fails: sleep *)
  ++ alone 2 9        (* sell 100: ... +=, notify_all, unlock, respond, leave, notify *)
  ++ alone 1 7        (* buy 150: lock again, 150 <= 200, -=, unlock, respond, leave, notify *)
  ++ alone 3 9.       (* status *)

(** ** Sessions that go through the mutex *)

(** The stock whose mutex a thread holds at program point [p]. *)
Definition holds (p : pc) : option string :=
  match p with
  | Buy_pred s _ | Buy_update s _ | Buy_unlock s
  | Sell_update s _ | Sell_notify s | Sell_unlock s
  | Status_read s | Status_unlock s _ => Some s
  | _ => None
  end.

Definition owns (m : gmap string Stock) (t : tid) (s : string) : Prop :=
  ∃ st, m !! s = Some st ∧ mutex st = Some t.

(** Requests for [buy], [sell], [status], or for nothing at all: the
    sessions that touch a balance only with the mutex of its entry held. *)
Definition trades (req : string) : Prop :=
  Request.trans (Request.parse req) ≠ "reset"
  ∧ Request.trans (Request.parse req) ≠ "create".

(** What holds of thread [t] at program point [p]. *)
Definition pc_ok (m : gmap string Stock) (t : tid) (p : pc) : Prop :=
  match p with
  | CT_enter req | CT_dispatch req => trades req
  | Reset_clear | Create_find _ _ | Create_name _ _ | Create_balance _ _ => False
  | Buy_find _ a | Sell_find _ a => 0 ≤ a
  | Buy_lock s a | Buy_wait s a | Buy_relock s a | Sell_lock s a =>
      is_Some (m !! s) ∧ 0 ≤ a
  | Status_lock s => is_Some (m !! s)
  | Buy_pred s a | Sell_update s a => owns m t s ∧ 0 ≤ a
  | Buy_update s a =>
      ∃ st, m !! s = Some st ∧ mutex st = Some t ∧ 0 ≤ a ≤ balance st
  | Buy_unlock s | Sell_notify s | Sell_unlock s
  | Status_read s | Status_unlock s _ => owns m t s
  | Status_find _ | CT_respond _ | CT_leave | CT_notify | CT_done => True
  end.

(** What holds of an entry: its balance is an [unsigned int], and a held
    mutex is held by a thread that stands inside the critical section of
    that entry. *)
Definition stock_ok (ts : gmap tid pc) (s : string) (st : Stock) : Prop :=
  0 ≤ balance st ≤ UINT_MAX
  ∧ ∀ t, mutex st = Some t → ∃ p, ts !! t = Some p ∧ holds p = Some s.

Definition acceptor_ok (a : apc) : Prop :=
  match a with
  | A_lock c | A_pred c | A_wait c | A_relock c | A_spawn c => trades c
  | A_accept | A_unlock => True
  end.

(** The facts that hold of a state as long as every session is one of
    those: the process is alive, every thread and every entry is as above,
    thread numbers are below the next one to be given out, and only such
    requests are waiting. *)
Record consistent (σ : State) : Prop := {
  c_alive : crashed σ = false;
  c_threads : ∀ t p, threads σ !! t = Some p → pc_ok (stockMap σ) t p;
  c_stocks : ∀ s st, stockMap σ !! s = Some st → stock_ok (threads σ) s st;
  c_fresh : ∀ t, is_Some (threads σ !! t) → (t < spawned σ)%nat;
  c_backlog : Forall trades (backlog σ);
  c_acceptor : acceptor_ok (acceptor σ)
}.

(** How far the buyers of [s] are ahead of its suppliers: balance plus
    bought minus supplied.  (A missing entry counts as balance 0.) *)
Definition overdraft (s : string) (σ : State) : Z :=
  balance (subscript s (stockMap σ)) + bought s (history σ) - supplied s (history σ).

(** ** Names that no request creates *)

(** Some connection asks to create [s]. *)
Definition asked (connections : list string) (s : string) : Prop :=
  ∃ req, req ∈ connections
         ∧ Request.trans (Request.parse req) = "create"
         ∧ Request.stock (Request.parse req) = s.

(** The entry a thread past its lookup works on, and may insert through
    [operator[]]. *)
Definition target (p : pc) : option string :=
  match p with
  | Create_name s _ | Create_balance s _
  | Buy_lock s _ | Buy_pred s _ | Buy_wait s _ | Buy_relock s _
  | Buy_update s _ | Buy_unlock s
  | Sell_lock s _ | Sell_update s _ | Sell_notify s | Sell_unlock s
  | Status_lock s | Status_read s | Status_unlock s _ => Some s
  | _ => None
  end.

Definition pc_known (connections : list string) (p : pc) : Prop :=
  match p with
  | CT_enter req | CT_dispatch req => req ∈ connections
  | Create_find s _ => asked connections s
  | _ => ∀ s, target p = Some s → asked connections s
  end.

Definition acceptor_known (connections : list string) (a : apc) : Prop :=
  match a with
  | A_lock c | A_pred c | A_wait c | A_relock c | A_spawn c => c ∈ connections
  | A_accept | A_unlock => True
  end.

(** Every entry of the ledger, and every entry a thread is working on,
    bears a name that some connection asks to create. *)
Record known (connections : list string) (σ : State) : Prop := {
  k_ledger : ∀ s, is_Some (stockMap σ !! s) → asked connections s;
  k_threads : ∀ t p, threads σ !! t = Some p → pc_known connections p;
  k_backlog : ∀ req, req ∈ backlog σ → req ∈ connections;
  k_acceptor : acceptor_known connections (acceptor σ)
}.

(** ** The text of a connection (extractURL, url_decode, HTTPResponse) *)

Module Http.

Definition CR : ascii := "013".
Definition LF : ascii := "010".
Definition CRLF : string := String CR (String LF "").

(** The input side of the socket: the characters the client has sent and
    that are not yet read, with the [eofbit] and the [failbit] of the
    stream.  No more characters arrive than those of [rest]. *)
Record istream := { rest : string; eof : bool; fail : bool }.

Definition from (s : string) : istream := {| rest := s; eof := false; fail := false |}.

(** The characters before the first newline, the characters after it, and
    whether there was a newline at all. *)
Fixpoint read_line (s : string) : string * string * bool :=
  match s with
  | EmptyString => (EmptyString, EmptyString, false)
  | String c s' =>
      if Ascii.eqb c LF then (EmptyString, s', true)
      else let '(l, r, nl) := read_line s' in (String c l, r, nl)
  end.

(** [std::getline(is, line)].  On a stream that is not good the variable
    keeps its value and the stream fails.  Otherwise the variable is erased
    and filled up to the next newline, which is consumed and not stored;
    reaching the end of the input sets [eofbit], and reading no character
    at all sets [failbit] too. *)
Definition getline (old : string) (ins : istream) : string * istream :=
  if (eof ins || fail ins)%bool then
    (old, {| rest := rest ins; eof := eof ins; fail := true |})
  else
    match rest ins with
    | EmptyString => (EmptyString, {| rest := EmptyString; eof := true; fail := true |})
    | s => let '(l, r, nl) := read_line s in
           (l, {| rest := r; eof := negb nl; fail := false |})
    end.

(** Lines 222-224: [for (std::string hdr; std::getline(is, hdr) &&
    !hdr.empty() && hdr != "\r";) {}].  Every round that goes on has read
    at least one character, so [fuel] above the number of unread characters
    is never used up ([skip_headers_fuel]). *)
Fixpoint skip_headers_loop (fuel : nat) (hdr : string) (ins : istream) : istream :=
  match fuel with
  | O => ins
  | S fuel' =>
      let '(hdr, ins') := getline hdr ins in
      if (negb (fail ins') && negb (String.eqb hdr EmptyString)
          && negb (String.eqb hdr (String CR EmptyString)))%bool
      then skip_headers_loop fuel' hdr ins'
      else ins'
  end.

Definition skip_headers (ins : istream) : istream :=
  skip_headers_loop (S (String.length (rest ins))) EmptyString ins.

(** [s.find(c)]: the index of the first [c]; [None] stands for [npos]. *)
Fixpoint find (c : ascii) (s : string) : option nat :=
  match s with
  | EmptyString => None
  | String x s' => if Ascii.eqb x c then Some O else S <$> find c s'
  end.

Fixpoint drop_chars (n : nat) (s : string) : string :=
  match n, s with
  | S n', String _ s' => drop_chars n' s'
  | _, _ => s
  end.

Fixpoint take_chars (n : nat) (s : string) : string :=
  match n, s with
  | S n', String c s' => String c (take_chars n' s')
  | _, _ => EmptyString
  end.

(** [s.substr(pos, n)]; [n = None] stands for [npos], the rest of the
    string.  A [pos] beyond the end throws [std::out_of_range]: [None]. *)
Definition substr (s : string) (pos : nat) (n : option nat) : option string :=
  if (String.length s <? pos)%nat then None
  else Some (match n with
             | Some n => take_chars n (drop_chars pos s)
             | None => drop_chars pos s
             end).

(** Lines 215-230.  [line.find('/') + 1] is computed in [size_t]: when
    there is no slash it is [npos + 1], which wraps around to 0.  [None]
    is an exception leaving the function. *)
Definition extractURL (ins : istream) : option (string * istream) :=
  let '(line, ins) := getline EmptyString ins in
  let ins := skip_headers ins in
  line ← substr line (match find "/" line with Some i => S i | None => O end) None;
  url ← substr line 0 (find " " line);
  Some (url, ins).

(** Lines 194-200; [os] is what the stream holds before the call. *)
Definition HTTPResponse (os : string) (msg : string) : string :=
  os +:+ "HTTP/1.1 200 OK" +:+ CRLF
     +:+ "Server: StockServer" +:+ CRLF +:+ "Content-Length: "
     +:+ to_string (Z.of_nat (String.length msg)) +:+ CRLF
     +:+ "Connection: Close" +:+ CRLF
     +:+ "Content - Type: text / plain" +:+ CRLF +:+ CRLF +:+ msg.

End Http.

(** [url_decode] is declared on line 32 as defined in [main.cpp], which is
    not among the sources.  The web server of the repository defines it
    ([unnamed/part_000], lines 309-325); that definition is embedded
    here. *)
Module Url.

(** The value of a hexadecimal digit, in either case. *)
Definition hex_digit (c : ascii) : option Z :=
  let n := Z.of_N (N_of_ascii c) in
  if (48 <=? n) && (n <=? 57) then Some (n - 48)
  else if (97 <=? n) && (n <=? 102) then Some (n - 87)
  else if (65 <=? n) && (n <=? 70) then Some (n - 55)
  else None.

(** The value of the longest prefix of hexadecimal digits. *)
Fixpoint hex_value (acc : Z) (s : string) : Z :=
  match s with
  | String c s' =>
      match hex_digit c with
      | Some d => hex_value (16 * acc + d) s'
      | None => acc
      end
  | EmptyString => acc
  end.

(** [std::stoi(s, nullptr, 16)], which is [strtol] in base 16: white space
    is skipped, then an optional sign and an optional [0x] or [0X] in front
    of a digit, then the digits are read.  Without a digit it throws
    [std::invalid_argument], with a value outside [int] it throws
    [std::out_of_range]: [None]. *)
Definition stoi16 (s : string) : option Z :=
  let s := Request.skipws s in
  let '(neg, s) :=
    match s with
    | String c s' =>
        if Ascii.eqb c "-" then (true, s')
        else if Ascii.eqb c "+" then (false, s')
        else (false, s)
    | EmptyString => (false, s)
    end in
  let s :=
    match s with
    | String z (String x (String h s')) =>
        if Ascii.eqb z "0" && (Ascii.eqb x "x" || Ascii.eqb x "X")
           && bool_decide (is_Some (hex_digit h))
        then String h s' else s
    | _ => s
    end in
  match s with
  | String c _ =>
      match hex_digit c with
      | Some _ =>
          let v := hex_value 0 s in
          let v := if neg : bool then - v else v in
          if (- INT_MAX - 1 <=? v) && (v <=? INT_MAX) then Some v else None
      | None => None
      end
  | EmptyString => None
  end.

(** [char ascii = <int>]: the low eight bits. *)
Definition to_char (v : Z) : ascii := ascii_of_N (Z.to_N (v mod 256)).

(** Lines 309-325 of the web server.  [pos] splits [str] into the
    characters already decoded and those still to scan; the function is the
    loop on the latter, [find_first_of] being the cases that copy a
    character.  A plus becomes a blank.  A percent sign takes the (at most)
    two characters after it as [hex], and [replace(pos, 3, 1, ascii)] puts
    one character in the place of the (at most) three; the character put
    there is not scanned again ([pos++]).  [None] is the exception of
    [std::stoi] leaving the function. *)
Fixpoint url_decode (str : string) : option string :=
  match str with
  | EmptyString => Some EmptyString
  | String c r =>
      if Ascii.eqb c "+" then String " " <$> url_decode r
      else if Ascii.eqb c "%" then
        match r with
        | String a (String b r') =>
            v ← stoi16 (String a (String b EmptyString));
            String (to_char v) <$> url_decode r'
        | _ =>
            v ← stoi16 r;
            Some (String (to_char v) EmptyString)
        end
      else String c <$> url_decode r
  end.

(** Lines 250-252 of [clientThread]: the request of a connection. *)
Definition read_request (ins : Http.istream) : option string :=
  '(url, _) ← Http.extractURL ins;
  url_decode url.

End Url.

(** ** Texts *)

(** Every character of [s] passes [p]. *)
Fixpoint all_chars (p : ascii → bool) (s : string) : bool :=
  match s with
  | String c s' => p c && all_chars p s'
  | EmptyString => true
  end.

Definition without (c : ascii) (s : string) : bool :=
  all_chars (λ x, negb (Ascii.eqb x c)) s.

(** A text that [operator>>] reads as one word and that the session does
    not cut in two: not empty, free of white space and of the separators
    [&] and [=]. *)
Definition is_word (w : string) : bool :=
  negb (String.eqb w EmptyString)
  && all_chars (λ c, negb (Request.isspace c) && negb (Ascii.eqb c "&")
                     && negb (Ascii.eqb c "=")) w.

(** A text [url_decode] has nothing to do on. *)
Definition is_plain (w : string) : bool := without "%" w && without "+" w.

(** A header line, as the loop of [extractURL] skips it: not empty, not a
    lone carriage return, and within one line. *)
Definition is_header (h : string) : bool :=
  negb (String.eqb h EmptyString) && negb (String.eqb h (String Http.CR EmptyString))
  && without Http.LF h.

(** The lines [hs], each closed by a newline, followed by [tail]. *)
Definition lines (hs : list string) (tail : string) : string :=
  foldr (λ h r, h +:+ String Http.LF r) tail hs.

(** Percent-encoding, as a client does it.  [safe] tells which characters
    are sent as they are (never the percent and the plus sign); [form]
    whether a blank is sent as a plus sign; [upper] the case of the
    hexadecimal digits. *)
Definition hex_char (upper : bool) (d : N) : ascii :=
  if (d <? 10)%N then ascii_of_N (48 + d)
  else ascii_of_N ((if upper then 55 else 87)%N + d).

Definition escape (upper : bool) (c : ascii) : string :=
  let n := N_of_ascii c in
  String "%" (String (hex_char upper (n / 16)) (String (hex_char upper (n mod 16)) EmptyString)).

Fixpoint percent_encode (safe : ascii → bool) (form upper : bool) (s : string) : string :=
  match s with
  | EmptyString => EmptyString
  | String c s' =>
      (if safe c && negb (Ascii.eqb c "%") && negb (Ascii.eqb c "+")
       then String c EmptyString
       else if form && Ascii.eqb c " " then "+"
       else escape upper c) +:+ percent_encode safe form upper s'
  end.

(** A text in which [strtol] finds no number, judged by its first
    character: empty, or starting with something that is neither a
    hexadecimal digit, nor white space, nor a sign. *)
Definition no_number (b : string) : bool :=
  match b with
  | EmptyString => true
  | String c _ =>
      bool_decide (Url.hex_digit c = None) && negb (Request.isspace c)
      && negb (Ascii.eqb c "+") && negb (Ascii.eqb c "-")
  end.

(** ** What the server keeps count of *)

(** [sessions] reads the thread table only. *)
Definition in_sessions (ts : gmap tid pc) : nat :=
  length (filter (λ x, in_session x.2 = true) (map_to_list ts)).

(** Whether [runServer] holds a connection it has accepted and not yet
    handed to a thread. *)
Definition pending (a : apc) : nat :=
  match a with
  | A_accept | A_unlock => 0
  | A_lock _ | A_pred _ | A_wait _ | A_relock _ | A_spawn _ => 1
  end.

(** Program points after [HTTPResponse] (line 277). *)
Definition has_answered (p : pc) : bool :=
  match p with
  | CT_leave | CT_notify | CT_done => true
  | _ => false
  end.

(** The books of the server: the counter is the number of sessions (as
    long as the connections can be counted in an [int]), the threads are
    numbered without gaps, every connection is in the backlog, with
    [runServer] or with a thread, and a message has been written exactly by
    the threads that are past [HTTPResponse]. *)
Record accounted (connections : list string) (σ : State) : Prop := {
  acc_count : Z.of_nat (length connections) ≤ INT_MAX →
              threadCount σ = Z.of_nat (sessions σ);
  acc_slots : ∀ t, is_Some (threads σ !! t) ↔ (t < spawned σ)%nat;
  acc_size : size (threads σ) = spawned σ;
  acc_conns : (spawned σ + pending (acceptor σ) + length (backlog σ)
               = length connections)%nat;
  acc_sent : ∀ t, is_Some (sent σ !! t)
                  ↔ ∃ p, threads σ !! t = Some p ∧ has_answered p = true
}.

(** ** A server that is never reset *)





(** * Properties *)

(** ** Reading requests *)

Example parse_create :
  Request.parse "trans=create&stock=ACME&amount=10"
  = {| Request.trans := "create"; Request.stock := "ACME"; Request.amount := 10 |}.
Proof. reflexivity. Qed.

Example parse_status :
  Request.parse "trans=status&stock=ACME"
  = {| Request.trans := "status"; Request.stock := "ACME"; Request.amount := 0 |}.
Proof. reflexivity. Qed.

Example parse_letters :
  Request.parse "trans=create&stock=ACME&amount=abc"
  = {| Request.trans := "create"; Request.stock := "ACME"; Request.amount := 0 |}.
Proof. reflexivity. Qed.

Example parse_empty :
  Request.parse ""
  = {| Request.trans := ""; Request.stock := ""; Request.amount := 0 |}.
Proof. reflexivity. Qed.

(** ** A transaction called in isolation *)

Section Stepping.

Context (maxThreads : Z).

Lemma client_step_exec t p σ :
  crashed σ = false → threads σ !! t = Some p → client_step t σ = exec t p σ.
Proof. intros Hc Hp. unfold client_step. by rw Hc Hp. Qed.

Lemma run_app es1 es2 σ :
  run maxThreads (es1 ++ es2) σ = run maxThreads es1 σ ≫= run maxThreads es2.
Proof.
  revert σ. induction es1 as [|e es1 IH]; intros σ; simpl; [done|].
  destruct (step maxThreads e σ) as [σ'|]; simpl; [apply IH | done].
Qed.

Lemma run_app_Some es1 es2 σ σ1 :
  run maxThreads es1 σ = Some σ1 →
  run maxThreads (es1 ++ es2) σ = run maxThreads es2 σ1.
Proof. intros H. by rw run_app H. Qed.

Lemma run_alone_S t k p σ σ' :
  crashed σ = false → threads σ !! t = Some p → exec t p σ = Some σ' →
  run maxThreads (alone t (S k)) σ = run maxThreads (alone t k) σ'.
Proof.
  intros Hc Hp He. unfold alone. simpl. by rw (client_step_exec _ _ _ Hc Hp) He.
Qed.

Lemma run_alone_stuck t k p σ :
  threads σ !! t = Some p → exec t p σ = None →
  run maxThreads (alone t (S k)) σ = None.
Proof.
  intros Hp He. unfold alone. simpl. unfold client_step.
  destruct (crashed σ); [done|]. by rw Hp /= He.
Qed.

Lemma goto_crashed t p σ : crashed (goto t p σ) = crashed σ.
Proof. done. Qed.

Lemma goto_at t p σ : threads (goto t p σ) !! t = Some p.
Proof. apply lookup_insert_eq. Qed.

Lemma goto_other t t' p σ : t ≠ t' → threads (goto t p σ) !! t' = threads σ !! t'.
Proof. intros. by apply lookup_insert_ne. Qed.

Lemma stockMap_goto t p σ : stockMap (goto t p σ) = stockMap σ.
Proof. done. Qed.

Lemma goto_goto t p q σ : goto t q (goto t p σ) = goto t q σ.
Proof. unfold goto, with_threads; simpl. by rw insert_insert_eq. Qed.

End Stepping.

Ltac unfold_state :=
  unfold goto, record, terminate, with_stockMap, with_threadCount, with_serverMutex,
    with_threads, with_sent, with_acceptor, with_backlog, with_spawned;
  cbn [stockMap threadCount serverMutex threads sent acceptor backlog spawned
       history crashed].

(** One statement of a thread running alone; [tac] resolves the test the
    statement makes on the state. *)
Ltac alone_step_with tac :=
  erewrite run_alone_S;
  [ | done
    | first [eassumption | apply goto_at | cbn [threads]; apply lookup_insert_eq]
    | cbn [exec clientThread reset create buy sell status]; unfold_state; tac; reflexivity ].

Ltac alone_step := alone_step_with idtac.

(** The mutex operations on an entry that is present. *)
Lemma acquire_free t s m st :
  m !! s = Some st → mutex st = None →
  acquire t s m = Some (<[s := set_mutex (Some t) st]> m).
Proof. intros Hs Hm. unfold acquire, subscript. by rw Hs /= Hm. Qed.

Lemma release_held t s m st :
  m !! s = Some st → mutex st = Some t →
  release t s m = <[s := set_mutex None st]> m.
Proof.
  intros Hs Hm. unfold release. rw Hs Hm bool_decide_eq_true_2 //.
Qed.

Lemma assign_present s f m st :
  m !! s = Some st → assign s f m = <[s := f st]> m.
Proof. intros Hs. unfold assign, subscript. by rw Hs. Qed.

Lemma set_mutex_id st : mutex st = None → set_mutex None st = st.
Proof. destruct st; simpl; intros ->; done. Qed.

Lemma wrap_small x : 0 ≤ x ≤ UINT_MAX → wrap x = x.
Proof. intros H. unfold wrap, UINT_MAX in *. apply Z.mod_small. lia. Qed.

(** ** Names that no request creates *)

Lemma acquire_keys t s m m' s' :
  acquire t s m = Some m' → is_Some (m' !! s') → is_Some (m !! s') ∨ s' = s.
Proof.
  unfold acquire. destruct (mutex (subscript s m)); [done|]. intros [= <-].
  destruct (decide (s = s')) as [->|Hne]; [by right|]. rw lookup_insert_ne //. by left.
Qed.

Lemma release_keys t s m s' :
  is_Some (release t s m !! s') → is_Some (m !! s').
Proof.
  unfold release. destruct (m !! s) as [st|] eqn:Hs; [|done].
  case_bool_decide; [|done].
  destruct (decide (s = s')) as [->|Hne]; [by rw Hs|]. by rw lookup_insert_ne.
Qed.

Lemma assign_keys s f m s' :
  is_Some (assign s f m !! s') → is_Some (m !! s') ∨ s' = s.
Proof.
  unfold assign. destruct (decide (s = s')) as [->|Hne]; [by right|].
  rw lookup_insert_ne //. by left.
Qed.

Ltac keys_of Hs :=
  first
    [ left; exact Hs
    | match goal with
      | H : acquire _ _ _ = Some _ |- _ =>
          let K := fresh in
          destruct (acquire_keys _ _ _ _ _ H Hs) as [K|K];
          [left; exact K | right; rw K; reflexivity]
      end
    | left; exact (release_keys _ _ _ _ Hs)
    | let K := fresh in
      destruct (assign_keys _ _ _ _ Hs) as [K|K];
      [left; exact K | right; rw K; reflexivity]
    | rw lookup_empty in Hs; destruct Hs; discriminate ].

Lemma dispatch_known_names conns req :
  req ∈ conns → pc_known conns (dispatch (Request.parse req)).
Proof.
  intros Hin. unfold dispatch.
  destruct (String.eqb_spec (Request.trans (Request.parse req)) "reset"); [done|].
  destruct (String.eqb_spec (Request.trans (Request.parse req)) "create") as [Hc|].
  { by exists req. }
  repeat case_match; done.
Qed.

(** A thread moves on; the keys of the ledger are old ones or the one the
    thread works on. *)
Lemma known_move conns σ σ' t p p' :
  known conns σ →
  threads σ !! t = Some p →
  (threads σ' = <[t := p']> (threads σ)
   ∨ threads σ' = <[t := p']> (notify_all (threads σ))) →
  (∀ s, is_Some (stockMap σ' !! s) →
        is_Some (stockMap σ !! s) ∨ target p = Some s) →
  pc_known conns p' →
  backlog σ' = backlog σ →
  acceptor_known conns (acceptor σ') →
  known conns σ'.
Proof.
  intros Hσ Hp Ht Hm Hp' Hb Ha.
  pose proof (k_threads conns σ Hσ t p Hp) as Hk.
  constructor; rw ?Hb; try apply Hσ; [| |done].
  - intros s Hs. destruct (Hm s Hs) as [H|H]; [by apply (k_ledger conns σ Hσ)|].
    destruct p; try done; by apply Hk.
  - intros t' q. destruct (decide (t' = t)) as [->|Hne].
    + destruct Ht as [-> | ->]; rw lookup_insert_eq; by intros [= <-].
    + destruct Ht as [-> | ->]; rw lookup_insert_ne //.
      * apply (k_threads conns σ Hσ).
      * unfold notify_all. rw lookup_fmap.
        destruct (threads σ !! t') as [q'|] eqn:Hq; [|done]. intros [= <-].
        pose proof (k_threads conns σ Hσ t' q' Hq). by destruct q'.
Qed.

Lemma client_step_known conns t σ σ' :
  known conns σ → client_step t σ = Some σ' → known conns σ'.
Proof.
  intros Hσ. unfold client_step. destruct (crashed σ); [done|].
  destruct (threads σ !! t) as [p|] eqn:Hp; [|done]. cbn [mbind option_bind].
  pose proof (k_threads conns σ Hσ t p Hp) as Hk.
  pose proof (k_acceptor conns σ Hσ) as Ha.
  assert (Hfound : ∀ s st, stockMap σ !! s = Some st → asked conns s)
    by (intros s st Hs; by apply (k_ledger conns σ Hσ)).
  destruct p; cbn [exec clientThread reset create buy sell status];
    repeat match goal with
           | |- context [acquire ?t ?s ?m] =>
               destruct (acquire t s m) eqn:?; cbn [mbind option_bind]
           | |- context [stockMap σ !! ?s] => destruct (stockMap σ !! s) eqn:?
           | |- context [?x <=? ?y] => destruct (x <=? y)
           end;
    try done; intros [= <-].
  all: try (eapply (known_move conns σ _ t _ _ Hσ Hp);
            [ first [left; reflexivity | right; reflexivity]
            | unfold_state; intros s' Hs'; keys_of Hs'
            | cbn [pc_known target]; try done; try (intros ? [= <-]); eauto
            | reflexivity
            | unfold_state; first [exact Ha | by destruct (acceptor σ)] ]).
  - by apply dispatch_known_names.
  - (* the exception *)
    constructor; unfold_state; apply Hσ.
Qed.

Lemma step_known conns mt e σ σ' :
  known conns σ → step mt e σ = Some σ' → known conns σ'.
Proof.
  intros Hσ. destruct e as [t| |t|]; cbn [step].
  - by apply client_step_known.
  - unfold runServer. destruct (crashed σ); [done|].
    pose proof (k_acceptor conns σ Hσ) as Ha.
    destruct (acceptor σ) eqn:Hacc; cbn [acceptor_known] in Ha.
    + destruct (backlog σ) as [|c cs] eqn:Hbl; [done|]. intros [= <-].
      constructor; unfold_state; [apply Hσ|apply Hσ| |].
      * intros req Hreq. apply (k_backlog conns σ Hσ). rw Hbl.
        by apply list_elem_of_further.
      * apply (k_backlog conns σ Hσ). rw Hbl. by apply list_elem_of_here.
    + destruct (serverMutex σ); [done|]. intros [= <-].
      constructor; unfold_state; [apply Hσ|apply Hσ|apply Hσ|done].
    + destruct (threadCount σ <? mt); intros [= <-];
        (constructor; unfold_state; [apply Hσ|apply Hσ|apply Hσ|done]).
    + done.
    + destruct (serverMutex σ); [done|]. intros [= <-].
      constructor; unfold_state; [apply Hσ|apply Hσ|apply Hσ|done].
    + intros [= <-]. constructor; unfold_state; [apply Hσ| |apply Hσ|done].
      intros t p. destruct (decide (t = spawned σ)) as [->|Hne].
      * rw lookup_insert_eq. by intros [= <-].
      * rw lookup_insert_ne //. apply (k_threads conns σ Hσ).
    + intros [= <-]. constructor; unfold_state; [apply Hσ|apply Hσ|apply Hσ|done].
  - destruct (crashed σ); [done|].
    destruct (threads σ !! t) as [p|] eqn:Hp; [|done].
    destruct p; try done. intros [= <-].
    pose proof (k_threads conns σ Hσ t _ Hp) as Hk.
    eapply (known_move conns σ _ t _ _ Hσ Hp);
      [left; reflexivity | by left | done | reflexivity | apply Hσ].
  - destruct (crashed σ); [done|].
    pose proof (k_acceptor conns σ Hσ) as Ha.
    destruct (acceptor σ) eqn:Hacc; try done. intros [= <-].
    constructor; unfold_state; [apply Hσ|apply Hσ|apply Hσ|done].
Qed.

Lemma boot_known conns : known conns (boot conns).
Proof. constructor; simpl; try done. intros s. rw lookup_empty. by intros [? ?]. Qed.

(** A name that no connection asks to create is in the ledger at no time,
    whatever the schedule. *)
Lemma never_created_absent mt conns es σ s :
  run mt es (boot conns) = Some σ →
  ¬ asked conns s →
  stockMap σ !! s = None.
Proof.
  intros Hrun Hno.
  assert (Hk : known conns σ).
  { pose proof (boot_known conns) as H0. revert Hrun H0. generalize (boot conns).
    induction es as [|e es IH]; intros σ0; simpl.
    - by intros [= <-].
    - destruct (step mt e σ0) as [σ1|] eqn:He; [|done]. simpl.
      intros Hrun H0. apply (IH σ1 Hrun). by eapply step_known. }
  destruct (stockMap σ !! s) as [st|] eqn:Hs; [|done].
  exfalso. apply Hno. apply (k_ledger conns σ Hk). by rw Hs.
Qed.

(** ** create *)

Lemma create_present mt t s a st σ :
  crashed σ = false →
  threads σ !! t = Some (Create_find s a) →
  stockMap σ !! s = Some st →
  run mt (alone t 1) σ = Some (goto t (CT_respond ("Stock " +:+ s +:+ " already exists")) σ).
Proof.
  intros Hc Hp Hs.
  erewrite run_alone_S; [ | done | eassumption | cbn [exec clientThread reset create buy sell status]; rw Hs; reflexivity ].
  done.
Qed.

Lemma create_absent mt t s a σ :
  crashed σ = false →
  threads σ !! t = Some (Create_find s a) →
  stockMap σ !! s = None →
  run mt (alone t 3) σ
  = Some (goto t (CT_respond ("Stock " +:+ s +:+ " created with balance = " +:+ to_string a))
            (record (Created s a)
               (with_stockMap
                  (<[s := {| name := s; balance := a; mutex := None |}]> (stockMap σ)) σ))).
Proof.
  intros Hc Hp Hs.
  erewrite run_alone_S; [ | done | eassumption | cbn [exec clientThread reset create buy sell status]; rw Hs; reflexivity ].
  alone_step. alone_step. cbn [alone replicate run]. f_equal.
  unfold_state. f_equal.
  - unfold assign, subscript. rw lookup_insert_eq Hs /= insert_insert_eq //.
  - rw !insert_insert_eq //.
Qed.

(** C3.  [create(stock, amount)] called where [stock] is absent inserts the
    entry with [balance = amount] (and the name, and a free mutex) and
    answers "created"; called where [stock] is present it changes nothing
    and answers "already exists".  Hence a second [create] of the same name,
    run after the first, answers "already exists" and the entry still holds
    the first amount. *)
Theorem create_contract mt t s a σ :
  crashed σ = false →
  threads σ !! t = Some (Create_find s a) →
  let created :=
    goto t (CT_respond ("Stock " +:+ s +:+ " created with balance = " +:+ to_string a))
      (record (Created s a)
         (with_stockMap (<[s := {| name := s; balance := a; mutex := None |}]> (stockMap σ)) σ)) in
  (stockMap σ !! s = None → run mt (alone t 3) σ = Some created) ∧
  (∀ st, stockMap σ !! s = Some st →
     run mt (alone t 1) σ = Some (goto t (CT_respond ("Stock " +:+ s +:+ " already exists")) σ)) ∧
  (∀ t2 a2, stockMap σ !! s = None → t2 ≠ t →
     threads σ !! t2 = Some (Create_find s a2) →
     run mt (alone t 3 ++ alone t2 1) σ
       = Some (goto t2 (CT_respond ("Stock " +:+ s +:+ " already exists")) created)
     ∧ stockMap (goto t2 (CT_respond ("Stock " +:+ s +:+ " already exists")) created) !! s
       = Some {| name := s; balance := a; mutex := None |}).
Proof.
  intros Hc Hp created. split; [|split].
  - intros Hs. by apply create_absent.
  - intros st Hs. by eapply create_present.
  - intros t2 a2 Hs Hne Hp2.
    assert (Hin : stockMap created !! s = Some {| name := s; balance := a; mutex := None |})
      by apply lookup_insert_eq.
    split; [|done].
    rw (run_app_Some _ _ _ _ _ (create_absent mt _ _ _ _ Hc Hp Hs)).
    eapply create_present; [done| |exact Hin].
    rw goto_other //.
Qed.

(** [create_contract] on a run of the server: two sessions create ACME. *)
Lemma create_contract_witness :
  let σ := reached ["trans=create&stock=ACME&amount=10"; "trans=create&stock=ACME&amount=99"]
             (accepting 2 ++ alone 0 2 ++ alone 1 2) in
  ∃ σ', run 8 (alone 0%nat 3 ++ alone 1%nat 1) σ = Some σ'
        ∧ stockMap σ' !! "ACME" = Some {| name := "ACME"; balance := 10; mutex := None |}
        ∧ threads σ' !! 0%nat = Some (CT_respond "Stock ACME created with balance = 10")
        ∧ threads σ' !! 1%nat = Some (CT_respond "Stock ACME already exists").
Proof.
  intros σ.
  destruct (create_contract 8 0%nat "ACME" 10 σ eq_refl eq_refl) as (_ & _ & H).
  destruct (H 1%nat 99 eq_refl ltac:(done) eq_refl) as [Hrun Hin].
  eexists. split; [exact Hrun|]. split; [|split]; vm_compute; reflexivity.
Defined.

(** ** buy on a name that is not in the ledger *)

Lemma buy_absent mt t s a σ :
  crashed σ = false →
  threads σ !! t = Some (Buy_find s a) →
  stockMap σ !! s = None →
  run mt (alone t 1) σ = Some (goto t (CT_respond "Stock not found") σ).
Proof.
  intros Hc Hp Hs.
  erewrite run_alone_S; [ | done | eassumption | cbn [exec clientThread reset create buy sell status]; rw Hs; reflexivity ].
  done.
Qed.

Lemma reset_alone mt r σ :
  crashed σ = false →
  threads σ !! r = Some Reset_clear →
  run mt (alone r 1) σ = Some (goto r (CT_respond "Stocks reset") (with_stockMap ∅ σ)).
Proof. intros Hc Hp. alone_step. done. Qed.

(** C8.  [buy] on a name that is not in the ledger answers "Stock not
    found" with its first statement (the call never reaches the lock or
    the wait) and leaves the state as it was, but for the caller's program
    point.  This is so right after a [reset], and it is so for a name that
    no connection has asked to create, in every state the server can be
    in. *)
Theorem buy_not_found mt t s a σ :
  crashed σ = false →
  threads σ !! t = Some (Buy_find s a) →
  (stockMap σ !! s = None →
     run mt (alone t 1) σ = Some (goto t (CT_respond "Stock not found") σ)) ∧
  (∀ r, r ≠ t → threads σ !! r = Some Reset_clear →
     run mt (alone r 1 ++ alone t 1) σ
     = Some (goto t (CT_respond "Stock not found")
               (goto r (CT_respond "Stocks reset") (with_stockMap ∅ σ)))) ∧
  (∀ connections es,
     run mt es (boot connections) = Some σ → ¬ asked connections s →
     run mt (alone t 1) σ = Some (goto t (CT_respond "Stock not found") σ)).
Proof.
  intros Hc Hp. split; [|split].
  - intros Hs. by apply (buy_absent mt t s a).
  - intros r Hne Hr.
    rw (run_app_Some _ _ _ _ _ (reset_alone mt _ _ Hc Hr)).
    apply (buy_absent mt t s a); [done| |done]. rw goto_other //.
  - intros conns es Hrun Hno. apply (buy_absent mt t s a); [done|done|].
    by apply (never_created_absent mt conns es).
Qed.

(** [buy_not_found] on a run of the server: GHOST is never created, ACME
    is reset. *)
Lemma buy_not_found_witness :
  let connections :=
    ["trans=create&stock=ACME&amount=10"; "trans=reset";
     "trans=buy&stock=ACME&amount=1"; "trans=buy&stock=GHOST&amount=1"] in
  let es := accepting 4 ++ alone 0 6 ++ alone 1 2 ++ alone 2 2 ++ alone 3 2 in
  let σ := reached connections es in
  stockMap σ !! "ACME" = Some {| name := "ACME"; balance := 10; mutex := None |}
  ∧ run 8 (alone 3%nat 1) σ = Some (goto 3%nat (CT_respond "Stock not found") σ)
  ∧ run 8 (alone 1%nat 1 ++ alone 2%nat 1) σ
    = Some (goto 2%nat (CT_respond "Stock not found")
              (goto 1%nat (CT_respond "Stocks reset") (with_stockMap ∅ σ))).
Proof.
  intros connections es σ.
  assert (Hrun : run 8 es (boot connections) = Some σ) by (vm_compute; reflexivity).
  assert (Hc : crashed σ = false) by (vm_compute; reflexivity).
  assert (H1 : threads σ !! 1%nat = Some Reset_clear) by (vm_compute; reflexivity).
  assert (H2 : threads σ !! 2%nat = Some (Buy_find "ACME" 1)) by (vm_compute; reflexivity).
  assert (H3 : threads σ !! 3%nat = Some (Buy_find "GHOST" 1)) by (vm_compute; reflexivity).
  assert (Hs : stockMap σ !! "ACME"
               = Some {| name := "ACME"; balance := 10; mutex := None |})
    by (vm_compute; reflexivity).
  assert (Hno : ¬ asked connections "GHOST").
  { intros (req & Hin & Ht & Hst). unfold connections in Hin.
    repeat (apply elem_of_cons in Hin as [->|Hin]; [vm_compute in Ht, Hst; congruence|]).
    by apply elem_of_nil in Hin. }
  clearbody σ. split; [exact Hs|]. split.
  - exact (proj2 (proj2 (buy_not_found 8 3%nat "GHOST" 1 σ Hc H3)) connections es Hrun Hno).
  - exact (proj1 (proj2 (buy_not_found 8 2%nat "ACME" 1 σ Hc H2)) 1%nat ltac:(done) H1).
Defined.

(** ** reset *)

(** C9.  [reset] empties the ledger in one statement; a [status] that runs
    after it answers "Stock not found", whatever the name, so in particular
    for every name created before. *)
Theorem reset_then_status mt r t s σ :
  crashed σ = false →
  threads σ !! r = Some Reset_clear →
  threads σ !! t = Some (Status_find s) →
  r ≠ t →
  run mt (alone r 1) σ = Some (goto r (CT_respond "Stocks reset") (with_stockMap ∅ σ))
  ∧ stockMap (goto r (CT_respond "Stocks reset") (with_stockMap ∅ σ)) = ∅
  ∧ run mt (alone r 1 ++ alone t 1) σ
    = Some (goto t (CT_respond "Stock not found")
              (goto r (CT_respond "Stocks reset") (with_stockMap ∅ σ))).
Proof.
  intros Hc Hr Hp Hne. split; [by apply reset_alone|]. split; [done|].
  rw (run_app_Some _ _ _ _ _ (reset_alone mt _ _ Hc Hr)).
  erewrite run_alone_S; [ | done | rw goto_other // | cbn [exec clientThread reset create buy sell status]; reflexivity ].
  done.
Qed.

(** [reset_then_status] on a run of the server. *)
Lemma reset_then_status_witness :
  let σ := reached ["trans=create&stock=ACME&amount=10"; "trans=reset";
                    "trans=status&stock=ACME"]
             (accepting 3 ++ alone 0 6 ++ alone 1 2 ++ alone 2 2) in
  stockMap σ !! "ACME" = Some {| name := "ACME"; balance := 10; mutex := None |}
  ∧ run 8 (alone 1%nat 1 ++ alone 2%nat 1) σ
    = Some (goto 2%nat (CT_respond "Stock not found")
              (goto 1%nat (CT_respond "Stocks reset") (with_stockMap ∅ σ))).
Proof.
  intros σ. split; [vm_compute; reflexivity|].
  exact (proj2 (proj2 (reset_then_status 8 1%nat 2%nat "ACME" σ
                         eq_refl eq_refl eq_refl ltac:(done)))).
Defined.

(** ** sell and status *)

Lemma sell_absent mt t s a σ :
  crashed σ = false →
  threads σ !! t = Some (Sell_find s a) →
  stockMap σ !! s = None →
  run mt (alone t 1) σ = Some (goto t (CT_respond "Stock not found") σ).
Proof.
  intros Hc Hp Hs. alone_step_with ltac:(rw Hs). done.
Qed.

(** [sell] on an entry that is present and whose mutex is free: five
    statements, after which the balance is the wrapped sum and every
    sleeping buyer has been woken. *)
Lemma sell_present mt t s a st σ :
  crashed σ = false →
  threads σ !! t = Some (Sell_find s a) →
  stockMap σ !! s = Some st →
  mutex st = None →
  run mt (alone t 5) σ
  = Some (goto t (CT_respond ("Stock " +:+ s +:+ "'s balance updated"))
            (with_threads (notify_all (threads σ))
               (record (Sold s a)
                  (with_stockMap
                     (<[s := set_balance (wrap (balance st + a)) st]> (stockMap σ)) σ)))).
Proof.
  intros Hc Hp Hs Hm.
  alone_step_with ltac:(rw Hs).
  alone_step_with ltac:(rw (acquire_free _ _ _ _ Hs Hm)).
  alone_step_with ltac:(erewrite assign_present; [|apply lookup_insert_eq]).
  alone_step.
  alone_step_with ltac:(erewrite release_held; [|apply lookup_insert_eq|done]).
  cbn [alone replicate run]. f_equal. unfold_state. f_equal.
  - rw !insert_insert_eq. unfold set_mutex, set_balance; simpl. by rw -Hm; destruct st.
  - unfold notify_all. rw !insert_insert_eq fmap_insert insert_insert_eq //.
Qed.

(** [status] on an entry that is present and whose mutex is free. *)
Lemma status_present mt t s st σ :
  crashed σ = false →
  threads σ !! t = Some (Status_find s) →
  stockMap σ !! s = Some st →
  mutex st = None →
  run mt (alone t 4) σ
  = Some (goto t (CT_respond ("Balance for stock " +:+ s +:+ " = " +:+ to_string (balance st))) σ).
Proof.
  intros Hc Hp Hs Hm.
  alone_step_with ltac:(rw Hs).
  alone_step_with ltac:(rw (acquire_free _ _ _ _ Hs Hm)).
  alone_step_with ltac:(erewrite assign_present; [|apply lookup_insert_eq]).
  alone_step_with ltac:(erewrite release_held; [|apply lookup_insert_eq|done]).
  cbn [alone replicate run]. f_equal. unfold_state.
  unfold subscript; rw lookup_insert_eq /=. destruct σ; simpl in *. f_equal.
  - rw !insert_insert_eq. unfold set_mutex; simpl. rw -Hm. destruct st; simpl.
    by apply insert_id.
  - rw !insert_insert_eq //.
Qed.

Lemma notify_all_wakes ts t s b :
  ts !! t = Some (Buy_wait s b) → notify_all ts !! t = Some (Buy_relock s b).
Proof. intros H. unfold notify_all. by rw lookup_fmap H. Qed.

(** C7, amended.  [sell(stock, amount)] on an entry that is present (its
    mutex free when the call starts) stores [(balance + amount) mod 2^32],
    which is [balance + amount] exactly when that sum does not exceed
    [UINT_MAX]; a [status] that follows shows the stored balance.  After the
    update [notify_all] wakes every thread asleep in a [buy] (the condition
    variable is shared, so the buyers of this stock are among them).  On a
    name that is absent [sell] answers "Stock not found" and changes
    nothing. *)
Theorem sell_contract mt t s a σ :
  crashed σ = false →
  threads σ !! t = Some (Sell_find s a) →
  (∀ st, stockMap σ !! s = Some st → mutex st = None →
     let sold :=
       goto t (CT_respond ("Stock " +:+ s +:+ "'s balance updated"))
         (with_threads (notify_all (threads σ))
            (record (Sold s a)
               (with_stockMap
                  (<[s := set_balance (wrap (balance st + a)) st]> (stockMap σ)) σ))) in
     run mt (alone t 5) σ = Some sold
     ∧ (0 ≤ balance st → 0 ≤ a → balance st + a ≤ UINT_MAX →
        balance <$> stockMap sold !! s = Some (balance st + a))
     ∧ (∀ t' s' b, t' ≠ t → threads σ !! t' = Some (Buy_wait s' b) →
        threads sold !! t' = Some (Buy_relock s' b))
     ∧ (∀ t2, t2 ≠ t → threads σ !! t2 = Some (Status_find s) →
        run mt (alone t 5 ++ alone t2 4) σ
        = Some (goto t2 (CT_respond ("Balance for stock " +:+ s +:+ " = "
                                       +:+ to_string (wrap (balance st + a)))) sold)))
  ∧ (stockMap σ !! s = None →
     run mt (alone t 1) σ = Some (goto t (CT_respond "Stock not found") σ)).
Proof.
  intros Hc Hp. split; [|intros Hs; by apply (sell_absent mt t s a)].
  intros st Hs Hm sold.
  pose proof (sell_present mt t s a st σ Hc Hp Hs Hm) as Hrun.
  split; [exact Hrun|]. split; [|split].
  - intros Hb Ha Hsum. unfold sold. unfold_state.
    rw lookup_insert_eq /= wrap_small //. lia.
  - intros t' s' b Hne Hw. unfold sold. rw goto_other //.
    by apply notify_all_wakes.
  - intros t2 Hne Hp2. rw (run_app_Some _ _ _ _ _ Hrun).
    apply (status_present mt t2 s (set_balance (wrap (balance st + a)) st)).
    + done.
    + unfold sold. rw goto_other //. cbn [threads with_threads].
      unfold notify_all. by rw lookup_fmap Hp2.
    + unfold sold. unfold_state. by rw lookup_insert_eq.
    + done.
Qed.

(** [sell_contract] on a run of the server: a buyer of 150 sleeps on a
    balance of 100 while 100 more are sold. *)
Lemma sell_contract_witness :
  let σ := reached ["trans=create&stock=ACME&amount=100"; "trans=buy&stock=ACME&amount=150";
                    "trans=sell&stock=ACME&amount=100"; "trans=status&stock=ACME";
                    "trans=sell&stock=GHOST&amount=1"]
             (accepting 5 ++ alone 0 6 ++ alone 1 5 ++ alone 2 2 ++ alone 3 2 ++ alone 4 2) in
  threads σ !! 1%nat = Some (Buy_wait "ACME" 150)
  ∧ ∃ σ', run 8 (alone 2%nat 5 ++ alone 3%nat 4) σ = Some σ'
     ∧ balance <$> stockMap σ' !! "ACME" = Some 200
     ∧ threads σ' !! 1%nat = Some (Buy_relock "ACME" 150)
     ∧ threads σ' !! 3%nat
       = Some (CT_respond ("Balance for stock ACME = " +:+ to_string (wrap 200)))
     ∧ run 8 (alone 4%nat 1) σ = Some (goto 4%nat (CT_respond "Stock not found") σ).
Proof.
  intros σ.
  assert (Hc : crashed σ = false) by (vm_compute; reflexivity).
  assert (H1 : threads σ !! 1%nat = Some (Buy_wait "ACME" 150)) by (vm_compute; reflexivity).
  assert (H2 : threads σ !! 2%nat = Some (Sell_find "ACME" 100)) by (vm_compute; reflexivity).
  assert (H3 : threads σ !! 3%nat = Some (Status_find "ACME")) by (vm_compute; reflexivity).
  assert (H4 : threads σ !! 4%nat = Some (Sell_find "GHOST" 1)) by (vm_compute; reflexivity).
  assert (Hs : stockMap σ !! "ACME" = Some {| name := "ACME"; balance := 100; mutex := None |})
    by (vm_compute; reflexivity).
  assert (Hg : stockMap σ !! "GHOST" = None) by (vm_compute; reflexivity).
  clearbody σ. split; [done|].
  destruct (sell_contract 8 2%nat "ACME" 100 σ Hc H2) as [Hpresent _].
  destruct (Hpresent _ Hs eq_refl) as (_ & Hexact & Hwake & Hstatus).
  eexists. split; [exact (Hstatus 3%nat ltac:(done) H3)|].
  split; [|split; [|split]].
  - rw stockMap_goto. apply Hexact; vm_compute; congruence.
  - rw goto_other //. exact (Hwake 1%nat "ACME" 150 ltac:(done) H1).
  - apply goto_at.
  - exact (proj2 (sell_contract 8 4%nat "GHOST" 1 σ Hc H4) Hg).
Defined.

(** C7 as stated fails where the sum passes [UINT_MAX]: selling one unit of
    a stock whose balance is 4294967295 leaves balance 0, and [status] says
    so. *)
Lemma sell_wraps_around :
  let σ := reached ["trans=create&stock=ACME&amount=4294967295";
                    "trans=sell&stock=ACME&amount=1"; "trans=status&stock=ACME"]
             (accepting 3 ++ alone 0 6 ++ alone 1 2 ++ alone 2 2) in
  ∃ σ', stockMap σ !! "ACME" = Some {| name := "ACME"; balance := 4294967295; mutex := None |}
     ∧ threads σ !! 1%nat = Some (Sell_find "ACME" 1)
     ∧ run 8 (alone 1%nat 5 ++ alone 2%nat 4) σ = Some σ'
     ∧ threads σ' !! 1%nat = Some (CT_respond "Stock ACME's balance updated")
     ∧ balance <$> stockMap σ' !! "ACME" = Some 0
     ∧ balance <$> stockMap σ' !! "ACME" ≠ Some (4294967295 + 1)
     ∧ threads σ' !! 2%nat = Some (CT_respond "Balance for stock ACME = 0").
Proof.
  intros σ. eexists.
  split; [vm_compute; reflexivity|].
  split; [vm_compute; reflexivity|].
  split; [vm_compute; reflexivity|].
  split; [vm_compute; reflexivity|].
  split; [vm_compute; reflexivity|].
  split; [vm_compute; congruence|].
  vm_compute; reflexivity.
Qed.

(** ** buy *)

(** [buy] on an entry that is present, with a free mutex and a sufficient
    balance: find, lock, predicate, update, unlock. *)
Lemma buy_fulfilled mt t s a st σ :
  crashed σ = false →
  threads σ !! t = Some (Buy_find s a) →
  stockMap σ !! s = Some st →
  mutex st = None →
  a ≤ balance st →
  run mt (alone t 5) σ
  = Some (goto t (CT_respond ("Stock " +:+ s +:+ "'s balance updated"))
            (record (Bought s a)
               (with_stockMap
                  (<[s := set_balance (wrap (balance st - a)) st]> (stockMap σ)) σ))).
Proof.
  intros Hc Hp Hs Hm Ha.
  alone_step_with ltac:(rw Hs).
  alone_step_with ltac:(rw (acquire_free _ _ _ _ Hs Hm)).
  alone_step_with ltac:(rw lookup_insert_eq /=; rw (proj2 (Z.leb_le _ _) Ha)).
  alone_step_with ltac:(erewrite assign_present; [|apply lookup_insert_eq]).
  alone_step_with ltac:(erewrite release_held; [|apply lookup_insert_eq|done]).
  cbn [alone replicate run]. f_equal. unfold_state. f_equal.
  - rw !insert_insert_eq. unfold set_mutex, set_balance; simpl. by rw -Hm; destruct st.
  - rw !insert_insert_eq //.
Qed.

(** [buy] with an amount above the balance: the thread releases the mutex
    and falls asleep in the wait; alone, it cannot take another step. *)
Lemma buy_sleeps mt t s a st σ :
  crashed σ = false →
  threads σ !! t = Some (Buy_find s a) →
  stockMap σ !! s = Some st →
  mutex st = None →
  balance st < a →
  run mt (alone t 3) σ = Some (goto t (Buy_wait s a) σ)
  ∧ ∀ k, run mt (alone t (3 + S k)) σ = None.
Proof.
  intros Hc Hp Hs Hm Ha.
  assert (Hrun : run mt (alone t 3) σ = Some (goto t (Buy_wait s a) σ)).
  { alone_step_with ltac:(rw Hs).
    alone_step_with ltac:(rw (acquire_free _ _ _ _ Hs Hm)).
    alone_step_with ltac:(rw lookup_insert_eq /=; rw (proj2 (Z.leb_gt _ _) Ha);
                          erewrite release_held; [|apply lookup_insert_eq|done]).
    cbn [alone replicate run]. f_equal. unfold_state.
    destruct σ; simpl in *. f_equal.
    - rw !insert_insert_eq. unfold set_mutex; simpl. rw -Hm. destruct st; simpl.
      by apply insert_id.
    - rw !insert_insert_eq //. }
  split; [done|]. intros k.
  unfold alone. rw replicate_add. fold (alone t 3) (alone t (S k)).
  rw (run_app_Some _ _ _ _ _ Hrun).
  apply (run_alone_stuck mt t k (Buy_wait s a)); [apply goto_at|done].
Qed.

Lemma set_balance_id st : set_balance (balance st) st = st.
Proof. by destruct st. Qed.

(** C10.  [buy(stock, 0)] on an entry that is present: the predicate
    [0 <= balance] holds, so the statement after it is the update and never
    the wait; called with the mutex free, the call runs its five statements
    through and answers "balance updated", and the ledger it leaves is the
    ledger it found. *)
Theorem buy_zero_identity mt t s st σ :
  crashed σ = false →
  threads σ !! t = Some (Buy_find s 0) →
  stockMap σ !! s = Some st →
  0 ≤ balance st ≤ UINT_MAX →
  exec t (Buy_pred s 0) σ = Some (goto t (Buy_update s 0) σ)
  ∧ (mutex st = None →
     let done := goto t (CT_respond ("Stock " +:+ s +:+ "'s balance updated"))
                   (record (Bought s 0) σ) in
     run mt (alone t 5) σ = Some done ∧ stockMap done = stockMap σ).
Proof.
  intros Hc Hp Hs Hb. split.
  - cbn [exec clientThread reset create buy sell status]. rw Hs. by rw (proj2 (Z.leb_le 0 (balance st)) (proj1 Hb)).
  - intros Hm done. split; [|done].
    rw (buy_fulfilled mt t s 0 st σ Hc Hp Hs Hm (proj1 Hb)).
    f_equal. unfold done. f_equal. f_equal.
    rw Z.sub_0_r wrap_small // set_balance_id.
    destruct σ; unfold with_stockMap; simpl in *. f_equal. by apply insert_id.
Qed.

(** [buy_zero_identity] on a run of the server. *)
Lemma buy_zero_identity_witness :
  let σ := reached ["trans=create&stock=ACME&amount=10"; "trans=buy&stock=ACME&amount=0"]
             (accepting 2 ++ alone 0 6 ++ alone 1 2) in
  stockMap σ !! "ACME" = Some {| name := "ACME"; balance := 10; mutex := None |}
  ∧ run 8 (alone 1%nat 5) σ
    = Some (goto 1%nat (CT_respond "Stock ACME's balance updated")
              (record (Bought "ACME" 0) σ)).
Proof.
  intros σ.
  assert (Hc : crashed σ = false) by (vm_compute; reflexivity).
  assert (Hp : threads σ !! 1%nat = Some (Buy_find "ACME" 0)) by (vm_compute; reflexivity).
  assert (Hs : stockMap σ !! "ACME" = Some {| name := "ACME"; balance := 10; mutex := None |})
    by (vm_compute; reflexivity).
  clearbody σ. split; [done|].
  refine (proj1 (proj2 (buy_zero_identity 8 1%nat "ACME" _ σ Hc Hp Hs _) eq_refl)).
  vm_compute. split; congruence.
Defined.

(** X6.  [buy] called in isolation on an entry that is present, with the
    mutex free.  When the amount is covered the balance is decremented by
    exactly that amount, the result is not negative and the session answers
    "balance updated"; nothing else changes.  When it is not, the call
    releases the mutex and sleeps in the wait, the ledger is as it was, and
    on its own the thread never takes another step. *)
Theorem buy_contract mt t s a st σ :
  crashed σ = false →
  threads σ !! t = Some (Buy_find s a) →
  stockMap σ !! s = Some st →
  mutex st = None →
  0 ≤ a → 0 ≤ balance st ≤ UINT_MAX →
  (a ≤ balance st →
     run mt (alone t 5) σ
     = Some (goto t (CT_respond ("Stock " +:+ s +:+ "'s balance updated"))
               (record (Bought s a)
                  (with_stockMap
                     (<[s := set_balance (balance st - a) st]> (stockMap σ)) σ)))
     ∧ 0 ≤ balance st - a)
  ∧ (balance st < a →
     run mt (alone t 3) σ = Some (goto t (Buy_wait s a) σ)
     ∧ ∀ k, run mt (alone t (3 + S k)) σ = None).
Proof.
  intros Hc Hp Hs Hm Ha Hb. split.
  - intros Hle. split; [|lia].
    rw (buy_fulfilled mt t s a st σ Hc Hp Hs Hm Hle) wrap_small //. lia.
  - intros Hlt. by apply (buy_sleeps mt t s a st).
Qed.

(** [buy_contract] on a run of the server: 30 of 100 are bought; a buyer of
    150 sleeps. *)
Lemma buy_contract_witness :
  let σ := reached ["trans=create&stock=ACME&amount=100"; "trans=buy&stock=ACME&amount=30";
                    "trans=buy&stock=ACME&amount=150"]
             (accepting 3 ++ alone 0 8 ++ alone 1 2 ++ alone 2 2) in
  (∃ σ', run 8 (alone 1%nat 5) σ = Some σ'
      ∧ stockMap σ' !! "ACME" = Some {| name := "ACME"; balance := 70; mutex := None |})
  ∧ run 8 (alone 2%nat 3) σ = Some (goto 2%nat (Buy_wait "ACME" 150) σ)
  ∧ run 8 (alone 2%nat 4) σ = None.
Proof.
  intros σ.
  assert (Hc : crashed σ = false) by (vm_compute; reflexivity).
  assert (H1 : threads σ !! 1%nat = Some (Buy_find "ACME" 30)) by (vm_compute; reflexivity).
  assert (H2 : threads σ !! 2%nat = Some (Buy_find "ACME" 150)) by (vm_compute; reflexivity).
  assert (Hs : stockMap σ !! "ACME"
               = Some {| name := "ACME"; balance := 100; mutex := None |})
    by (vm_compute; reflexivity).
  clearbody σ.
  assert (Hb : 0 ≤ 100 ≤ UINT_MAX) by (unfold UINT_MAX; lia).
  destruct (buy_contract 8 1%nat "ACME" 30 _ σ Hc H1 Hs eq_refl ltac:(lia) Hb) as [Hok _].
  destruct (buy_contract 8 2%nat "ACME" 150 _ σ Hc H2 Hs eq_refl ltac:(lia) Hb) as [_ Hno].
  destruct (Hok ltac:(simpl; lia)) as [Hrun _].
  destruct (Hno ltac:(simpl; lia)) as [Hsleep Hstuck].
  split; [|split; [exact Hsleep|exact (Hstuck 0%nat)]].
  eexists. split; [exact Hrun|]. unfold_state. by rw lookup_insert_eq.
Defined.

(** ** The session: requests that name no transaction *)

Lemma dispatch_unknown c :
  Request.trans c ≠ "reset" → Request.trans c ≠ "create" → Request.trans c ≠ "buy" →
  Request.trans c ≠ "sell" → Request.trans c ≠ "status" →
  dispatch c = CT_respond "Invalid request".
Proof.
  intros H1 H2 H3 H4 H5. unfold dispatch.
  by rw !(proj2 (String.eqb_neq _ _)).
Qed.

Lemma dispatch_known c :
  Request.trans c = "reset" ∨ Request.trans c = "create" ∨ Request.trans c = "buy" ∨
  Request.trans c = "sell" ∨ Request.trans c = "status" →
  touches_ledger (dispatch c) = true.
Proof.
  unfold dispatch. intros [H|[H|[H|[H|H]]]]; by rw H.
Qed.

(** C4, amended.  A request whose operation name is none of the five (or
    is missing) is answered "Invalid request": the session runs its five
    statements, none of which reads or writes the ledger, and the ledger is
    the same after each of them.  The amount plays no part in this: a
    request that names one of the five transactions always reaches it,
    whatever stands in its amount field. *)
Theorem invalid_request mt t req σ :
  crashed σ = false →
  threads σ !! t = Some (CT_enter req) →
  let op := Request.trans (Request.parse req) in
  op ≠ "reset" → op ≠ "create" → op ≠ "buy" → op ≠ "sell" → op ≠ "status" →
  run mt (alone t 5) σ = Some (answered t "Invalid request" σ)
  ∧ (∀ k σ', run mt (alone t k) σ = Some σ' →
       stockMap σ' = stockMap σ
       ∧ ∃ p, threads σ' !! t = Some p ∧ touches_ledger p = false)
  ∧ (∀ req', let op' := Request.trans (Request.parse req') in
       op' = "reset" ∨ op' = "create" ∨ op' = "buy" ∨ op' = "sell" ∨ op' = "status" →
       touches_ledger (dispatch (Request.parse req')) = true).
Proof.
  intros Hc Hp op H1 H2 H3 H4 H5.
  pose proof (dispatch_unknown _ H1 H2 H3 H4 H5) as Hd.
  assert (R1 : run mt (alone t 1) σ
               = Some (goto t (CT_dispatch req)
                         (with_threadCount (wrap_int (threadCount σ + 1)) σ)))
    by (alone_step; done).
  assert (R2 : run mt (alone t 2) σ
               = Some (goto t (CT_respond "Invalid request")
                         (with_threadCount (wrap_int (threadCount σ + 1)) σ))).
  { alone_step. alone_step_with ltac:(rw Hd).
    cbn [alone replicate run]. f_equal. unfold_state. by rw insert_insert_eq. }
  assert (R3 : run mt (alone t 3) σ
               = Some (goto t CT_leave
                         (with_sent (<[t := "Invalid request"]> (sent σ))
                            (with_threadCount (wrap_int (threadCount σ + 1)) σ)))).
  { change 3%nat with (2 + 1)%nat. unfold alone. rw replicate_add.
    fold (alone t 2) (alone t 1). rw (run_app_Some _ _ _ _ _ R2).
    alone_step. cbn [alone replicate run]. f_equal. unfold_state.
    by rw insert_insert_eq. }
  assert (R4 : run mt (alone t 4) σ
               = Some (goto t CT_notify
                         (with_sent (<[t := "Invalid request"]> (sent σ))
                            (with_threadCount
                               (wrap_int (wrap_int (threadCount σ + 1) - 1)) σ)))).
  { change 4%nat with (3 + 1)%nat. unfold alone. rw replicate_add.
    fold (alone t 3) (alone t 1). rw (run_app_Some _ _ _ _ _ R3).
    alone_step. cbn [alone replicate run]. f_equal. unfold_state.
    by rw insert_insert_eq. }
  assert (R5 : run mt (alone t 5) σ = Some (answered t "Invalid request" σ)).
  { change 5%nat with (4 + 1)%nat. unfold alone. rw replicate_add.
    fold (alone t 4) (alone t 1). rw (run_app_Some _ _ _ _ _ R4).
    alone_step. cbn [alone replicate run]. f_equal. unfold answered. unfold_state.
    by rw insert_insert_eq. }
  split; [done|]. split; [|intros req' op'; apply dispatch_known].
  intros k σ' Hk.
  destruct k as [|[|[|[|[|[|k]]]]]].
  - injection Hk as <-. eauto.
  - rw R1 in Hk. injection Hk as <-. split; [done|]. eexists. by rw goto_at.
  - rw R2 in Hk. injection Hk as <-. split; [done|]. eexists. by rw goto_at.
  - rw R3 in Hk. injection Hk as <-. split; [done|]. eexists. by rw goto_at.
  - rw R4 in Hk. injection Hk as <-. split; [done|]. eexists. by rw goto_at.
  - rw R5 in Hk. injection Hk as <-. split; [done|]. eexists.
    unfold answered; cbn [threads]. by rw lookup_insert_eq.
  - exfalso. change (S (S (S (S (S (S k)))))) with (5 + S k)%nat in Hk.
    unfold alone in Hk. rw replicate_add in Hk.
    fold (alone t 5) (alone t (S k)) in Hk. rw (run_app_Some _ _ _ _ _ R5) in Hk.
    rw (run_alone_stuck mt t k CT_done) in Hk; [|done|done].
    unfold answered; cbn [threads]. by rw lookup_insert_eq.
Qed.

(** [invalid_request] on a run of the server: an unknown operation, and a
    request without one. *)
Lemma invalid_request_witness :
  let σ := reached ["trans=delete&stock=ACME&amount=5"; "stock=ACME"] (accepting 2) in
  run 8 (alone 0%nat 5) σ = Some (answered 0%nat "Invalid request" σ)
  ∧ run 8 (alone 1%nat 5) σ = Some (answered 1%nat "Invalid request" σ).
Proof.
  intros σ.
  assert (Hc : crashed σ = false) by (vm_compute; reflexivity).
  assert (H0 : threads σ !! 0%nat = Some (CT_enter "trans=delete&stock=ACME&amount=5"))
    by (vm_compute; reflexivity).
  assert (H1 : threads σ !! 1%nat = Some (CT_enter "stock=ACME"))
    by (vm_compute; reflexivity).
  clearbody σ. split.
  - apply (invalid_request 8 0%nat _ σ Hc H0); vm_compute; congruence.
  - apply (invalid_request 8 1%nat _ σ Hc H1); vm_compute; congruence.
Defined.

(** C4 as stated fails on the amount: a [create] whose amount is not a
    number, or is missing, is not refused.  The amount reads as 0, the
    session calls [create], and the ledger gains the entry. *)
Lemma malformed_amount_is_served :
  let σ := reached ["trans=create&stock=ACME&amount=abc"; "trans=create&stock=INIT"]
             (accepting 2) in
  ∃ σ', run 8 (alone 0%nat 8 ++ alone 1%nat 8) σ = Some σ'
     ∧ stockMap σ = ∅
     ∧ sent σ' !! 0%nat = Some "Stock ACME created with balance = 0"
     ∧ sent σ' !! 1%nat = Some "Stock INIT created with balance = 0"
     ∧ sent σ' !! 0%nat ≠ Some "Invalid request"
     ∧ sent σ' !! 1%nat ≠ Some "Invalid request"
     ∧ stockMap σ' !! "ACME" = Some {| name := "ACME"; balance := 0; mutex := None |}
     ∧ stockMap σ' !! "INIT" = Some {| name := "INIT"; balance := 0; mutex := None |}.
Proof.
  intros σ. eexists.
  split; [vm_compute; reflexivity|].
  split; [vm_compute; reflexivity|].
  split; [vm_compute; reflexivity|].
  split; [vm_compute; reflexivity|].
  split; [vm_compute; congruence|].
  split; [vm_compute; congruence|].
  split; vm_compute; reflexivity.
Qed.

(** ** Interleavings *)

(** C5.  The bound is overrun.  With [maxThreads = 1] and two connections
    waiting, [runServer] tests [threadCount < maxThreads] for the second
    connection before the first thread has executed [threadCount++]: both
    threads are created, both count themselves in, and both stand inside a
    transaction while [threadCount] is 2. *)
Theorem admission_overrun :
  let maxThreads := 1 in
  let σ := boot ["trans=status&stock=ACME"; "trans=status&stock=ACME"] in
  let schedule :=
    replicate 5 Acceptor        (* accept, lock, 0 < 1, create thread 0, unlock *)
    ++ replicate 5 Acceptor     (* accept, lock, 0 < 1, create thread 1, unlock *)
    ++ alone 0 2                (* thread 0: threadCount++, dispatch *)
    ++ alone 1 2 in             (* thread 1: threadCount++, dispatch *)
  ∃ σ', run maxThreads schedule σ = Some σ'
     ∧ threads σ' !! 0%nat = Some (Status_find "ACME")
     ∧ threads σ' !! 1%nat = Some (Status_find "ACME")
     ∧ threadCount σ' = 2
     ∧ sessions σ' = 2%nat
     ∧ ¬ (threadCount σ' ≤ maxThreads).
Proof.
  intros maxThreads σ schedule. eexists.
  split; [vm_compute; reflexivity|].
  split; [vm_compute; reflexivity|].
  split; [vm_compute; reflexivity|].
  split; [vm_compute; reflexivity|].
  split; [vm_compute; reflexivity|].
  vm_compute. intros H. by apply H.
Qed.

(** C6.  A [reset] that runs while a [sell] or a [buy] is past its lookup.
    The [sell] does not answer "Stock not found": [operator[]] puts the
    entry back (with an empty name), the amount is added to it and the
    session reports success, so the ledger is not empty after the reset.
    The [buy] that holds the lock evaluates its predicate with [at], which
    throws on the missing key; nothing catches the exception and the
    process is terminated. *)
Theorem reset_race :
  let σ := reached ["trans=create&stock=ACME&amount=10"; "trans=sell&stock=ACME&amount=5";
                    "trans=reset"]
             (accepting 3 ++ alone 0 8) in
  let selling :=
    alone 1 3                   (* sell: threadCount++, dispatch, find: present *)
    ++ alone 2 3                (* reset: threadCount++, dispatch, clear *)
    ++ alone 1 6 in             (* sell: lock, +=, notify_all, unlock, respond, leave *)
  let τ := reached ["trans=create&stock=ACME&amount=10"; "trans=buy&stock=ACME&amount=5";
                    "trans=reset"]
             (accepting 3 ++ alone 0 8) in
  let buying :=
    alone 1 4                   (* buy: threadCount++, dispatch, find: present, lock *)
    ++ alone 2 3                (* reset: threadCount++, dispatch, clear *)
    ++ alone 1 1 in             (* buy: the predicate *)
  (∃ σ', run 8 selling σ = Some σ'
      ∧ stockMap σ !! "ACME" = Some {| name := "ACME"; balance := 10; mutex := None |}
      ∧ sent σ' !! 1%nat = Some "Stock ACME's balance updated"
      ∧ stockMap σ' !! "ACME" = Some {| name := ""; balance := 5; mutex := None |}
      ∧ crashed σ' = false)
  ∧ (∃ τ', run 8 buying τ = Some τ'
      ∧ crashed τ = false
      ∧ crashed τ' = true
      ∧ sent τ' !! 1%nat = None
      ∧ (∀ e, step 8 e τ' = None)).
Proof.
  intros σ selling τ buying. split.
  - eexists.
    split; [vm_compute; reflexivity|].
    split; [vm_compute; reflexivity|].
    split; [vm_compute; reflexivity|].
    split; vm_compute; reflexivity.
  - eexists.
    split; [vm_compute; reflexivity|].
    split; [vm_compute; reflexivity|].
    split; [vm_compute; reflexivity|].
    split; [vm_compute; reflexivity|].
    intros [t| |t|]; vm_compute; reflexivity.
Qed.

(** C1.  A fulfilled [buy] whose decrement is not atomic with its check.
    The buyer holds the mutex of the entry from the predicate to the
    update, but [create] assigns the balance without taking it: the
    predicate saw 10, the update found 5, and the stored balance is
    5 - 10 wrapped around, not the balance that was checked less 10. *)
Theorem create_race_breaks_buy :
  ∃ σ1 σ2 σ3,
    run 8 checked (boot racing_creates) = Some σ1
    ∧ run 8 overwritten (boot racing_creates) = Some σ2
    ∧ run 8 decremented (boot racing_creates) = Some σ3
    ∧ threads σ1 !! 2%nat = Some (Buy_update "ACME" 10)
    ∧ stockMap σ1 !! "ACME" = Some {| name := "ACME"; balance := 10; mutex := Some 2%nat |}
    ∧ threads σ2 !! 2%nat = Some (Buy_update "ACME" 10)
    ∧ stockMap σ2 !! "ACME" = Some {| name := "ACME"; balance := 5; mutex := Some 2%nat |}
    ∧ sent σ3 !! 2%nat = Some "Stock ACME's balance updated"
    ∧ stockMap σ3 !! "ACME" = Some {| name := "ACME"; balance := 4294967291; mutex := None |}
    ∧ 4294967291 ≠ 10 - 10.
Proof.
  do 3 eexists.
  split; [vm_compute; reflexivity|].
  split; [vm_compute; reflexivity|].
  split; [vm_compute; reflexivity|].
  split; [vm_compute; reflexivity|].
  split; [vm_compute; reflexivity|].
  split; [vm_compute; reflexivity|].
  split; [vm_compute; reflexivity|].
  split; [vm_compute; reflexivity|].
  split; [vm_compute; reflexivity|].
  done.
Qed.

(** C2.  The same race spends more than was supplied.  After it the second
    buyer finds a balance of 4294967291 and takes 1000: the buyers of ACME
    have been served 1010 in all, against 15 created and nothing sold. *)
Theorem create_race_double_spend :
  let schedule := decremented ++ alone 3 8 in
  ∃ σ', run 8 schedule (boot racing_creates) = Some σ'
     ∧ sent σ' !! 0%nat = Some "Stock ACME created with balance = 10"
     ∧ sent σ' !! 1%nat = Some "Stock ACME created with balance = 5"
     ∧ sent σ' !! 2%nat = Some "Stock ACME's balance updated"
     ∧ sent σ' !! 3%nat = Some "Stock ACME's balance updated"
     ∧ history σ' = [Created "ACME" 10; Created "ACME" 5; Bought "ACME" 10; Bought "ACME" 1000]
     ∧ bought "ACME" (history σ') = 1010
     ∧ supplied "ACME" (history σ') = 15
     ∧ ¬ (bought "ACME" (history σ') ≤ supplied "ACME" (history σ')).
Proof.
  intros schedule. eexists.
  split; [vm_compute; reflexivity|].
  split; [vm_compute; reflexivity|].
  split; [vm_compute; reflexivity|].
  split; [vm_compute; reflexivity|].
  split; [vm_compute; reflexivity|].
  split; [vm_compute; reflexivity|].
  split; [vm_compute; reflexivity|].
  split; [vm_compute; reflexivity|].
  vm_compute. intros H. by apply H.
Qed.

(** ** The protocol of buy, sell and status *)

Lemma holds_owner σ t p s st :
  consistent σ → threads σ !! t = Some p →
  stockMap σ !! s = Some st → mutex st = Some t → holds p = Some s.
Proof.
  intros Hσ Hp Hs Hm.
  destruct (c_stocks σ Hσ s st Hs) as [_ Hh].
  destruct (Hh t Hm) as (p' & Hp' & Hh'). congruence.
Qed.

Lemma owns_unique m t t' s : owns m t s → owns m t' s → t = t'.
Proof. intros (st & Hs & Hm) (st' & Hs' & Hm'). congruence. Qed.

Lemma holds_owns m t p s : pc_ok m t p → holds p = Some s → owns m t s.
Proof.
  destruct p; simpl; try done; intros H [= <-]; try tauto.
  destruct H as (st & ? & ? & ?). by exists st.
Qed.

(** Entries other than [s] keep their program-point facts when [s] alone
    changes and the thread is not its owner. *)
Lemma pc_ok_frame m m' s t p :
  (∀ s', s' ≠ s → m' !! s' = m !! s') →
  is_Some (m' !! s) →
  ¬ owns m t s →
  pc_ok m t p → pc_ok m' t p.
Proof.
  intros Hother Hs Hno.
  assert (Hsome : ∀ s', is_Some (m !! s') → is_Some (m' !! s')).
  { intros s' H'. destruct (decide (s' = s)) as [->|Hne]; [done|]. by rw Hother. }
  assert (Howns : ∀ s', owns m t s' → owns m' t s').
  { intros s' (st & H1 & H2). destruct (decide (s' = s)) as [->|Hne].
    - exfalso. apply Hno. by exists st.
    - exists st. by rw Hother. }
  destruct p; simpl; try done; try (intros [? ?]; split; eauto); eauto.
  intros (st & H1 & H2 & H3).
  destruct (Howns stock) as (st' & H1' & H2'); [by exists st|].
  destruct (decide (stock = s)) as [->|Hne].
  - exfalso. apply Hno. by exists st.
  - exists st. by rw Hother.
Qed.

(** A thread moves on without changing the ledger. *)
Lemma move_same σ σ' t p p' :
  consistent σ →
  threads σ !! t = Some p →
  threads σ' = <[t := p']> (threads σ) →
  stockMap σ' = stockMap σ →
  holds p' = holds p →
  pc_ok (stockMap σ) t p' →
  crashed σ' = false →
  spawned σ' = spawned σ →
  Forall trades (backlog σ') → acceptor_ok (acceptor σ') →
  consistent σ'.
Proof.
  intros Hσ Hp Ht Hm Hh Hok Hc Hsp Hb Ha.
  constructor; rw ?Ht ?Hm ?Hsp; [done| | | |done|done].
  - intros t' p'' H'. destruct (decide (t' = t)) as [->|Hne].
    + rw lookup_insert_eq in H'. by injection H' as <-.
    + rw lookup_insert_ne // in H'. by apply (c_threads σ Hσ).
  - intros s st Hs. destruct (c_stocks σ Hσ s st Hs) as [Hb' Hh']. split; [done|].
    intros t' Hm'. destruct (Hh' t' Hm') as (q & Hq & Hhq).
    destruct (decide (t' = t)) as [->|Hne].
    + exists p'. rw lookup_insert_eq. split; [done|]. congruence.
    + exists q. by rw lookup_insert_ne.
  - intros t' H'. apply (c_fresh σ Hσ).
    destruct (decide (t' = t)) as [->|Hne]; [by rw Hp|]. by rw lookup_insert_ne in H'.
Qed.

(** A thread moves on and rewrites the entry [s], whose mutex is free or
    its own. *)
Lemma move_update σ σ' t p p' s st st' :
  consistent σ →
  threads σ !! t = Some p →
  stockMap σ !! s = Some st →
  threads σ' = <[t := p']> (threads σ) →
  stockMap σ' = <[s := st']> (stockMap σ) →
  (∀ t', mutex st = Some t' → t' = t) →
  (∀ t', mutex st' = Some t' → t' = t ∧ holds p' = Some s) →
  0 ≤ balance st' ≤ UINT_MAX →
  (holds p' = holds p ∨ holds p = None ∨ holds p = Some s) →
  pc_ok (<[s := st']> (stockMap σ)) t p' →
  crashed σ' = false →
  spawned σ' = spawned σ →
  Forall trades (backlog σ') → acceptor_ok (acceptor σ') →
  consistent σ'.
Proof.
  intros Hσ Hp Hs Ht Hm Hold Hnew Hbal Hh Hok Hc Hsp Hb Ha.
  constructor; rw ?Ht ?Hm ?Hsp; [done| | | |done|done].
  - intros t' p'' H'. destruct (decide (t' = t)) as [->|Hne].
    + rw lookup_insert_eq in H'. by injection H' as <-.
    + rw lookup_insert_ne // in H'.
      apply (pc_ok_frame (stockMap σ) _ s).
      * intros s' Hne'. by rw lookup_insert_ne.
      * by rw lookup_insert_eq.
      * intros (st0 & Hs0 & Hm0). rw Hs in Hs0. injection Hs0 as <-.
        by destruct (Hold _ Hm0).
      * by apply (c_threads σ Hσ).
  - intros s' st0 Hs'. destruct (decide (s' = s)) as [->|Hne].
    + rw lookup_insert_eq in Hs'. injection Hs' as <-. split; [done|].
      intros t' Hm'. destruct (Hnew t' Hm') as [-> Hh'].
      exists p'. by rw lookup_insert_eq.
    + rw lookup_insert_ne // in Hs'.
      destruct (c_stocks σ Hσ s' st0 Hs') as [Hb' Hh']. split; [done|].
      intros t' Hm'. destruct (Hh' t' Hm') as (q & Hq & Hhq).
      destruct (decide (t' = t)) as [->|Hnet].
      * exists p'. rw lookup_insert_eq. split; [done|].
        assert (q = p) as -> by congruence.
        destruct Hh as [Hh|[Hh|Hh]]; congruence.
      * exists q. by rw lookup_insert_ne.
  - intros t' H'. apply (c_fresh σ Hσ).
    destruct (decide (t' = t)) as [->|Hne]; [by rw Hp|]. by rw lookup_insert_ne in H'.
Qed.

(** [notify_all] changes no fact. *)
Lemma notify_consistent σ σ' :
  consistent σ →
  crashed σ' = false →
  threads σ' = notify_all (threads σ) →
  stockMap σ' = stockMap σ →
  spawned σ' = spawned σ →
  Forall trades (backlog σ') → acceptor_ok (acceptor σ') →
  consistent σ'.
Proof.
  intros Hσ Hc Ht Hm Hsp Hb Ha.
  constructor; rw ?Ht ?Hm ?Hsp; [done| | | |done|done].
  - intros t p. unfold notify_all. rw lookup_fmap.
    destruct (threads σ !! t) as [q|] eqn:Hq; [|done]. intros [= <-].
    pose proof (c_threads σ Hσ t q Hq) as Hok. by destruct q.
  - intros s st Hs. destruct (c_stocks σ Hσ s st Hs) as [Hb' Hh']. split; [done|].
    intros t Hm'. destruct (Hh' t Hm') as (q & Hq & Hhq).
    exists (wake_buyer q). unfold notify_all. rw lookup_fmap Hq. split; [done|].
    by destruct q.
  - intros t. unfold notify_all. rw lookup_fmap. intros H'. apply (c_fresh σ Hσ).
    by destruct (threads σ !! t).
Qed.

(** The amount read from a request is never negative. *)
Lemma digits_value_nonneg s acc :
  0 ≤ acc → 0 ≤ Request.digits_value acc (Request.span Request.isdigit s).1.
Proof.
  revert acc. induction s as [|c s IH]; intros acc Hacc; simpl; [done|].
  destruct (Request.isdigit c) eqn:Hd; simpl; [|done].
  destruct (Request.span Request.isdigit s) as [w r] eqn:Hspan. simpl in *.
  apply IH. unfold Request.isdigit in Hd.
  apply andb_prop in Hd as [Hlo _]. apply N.leb_le in Hlo. lia.
Qed.

Lemma get_uint_nonneg old ins : 0 ≤ old → 0 ≤ (Request.get_uint old ins).1.
Proof.
  intros Hold. unfold Request.get_uint.
  destruct (Request.good ins); [|done].
  destruct (match Request.skipws (Request.rest ins) with
            | String "-" s' => (true, s')
            | String "+" s' => (false, s')
            | _ => (false, Request.skipws (Request.rest ins))
            end) as [neg s1].
  pose proof (digits_value_nonneg s1 0 ltac:(done)) as Hnn.
  destruct (Request.span Request.isdigit s1) as [ds r]. simpl in Hnn.
  destruct ds as [|c ds]; [done|].
  destruct (UINT_MAX <? _); [done|]. simpl.
  destruct neg; [|done].
  unfold wrap, UINT_MAX. apply Z.mod_pos_bound. lia.
Qed.

Lemma parse_amount_nonneg req : 0 ≤ Request.amount (Request.parse req).
Proof.
  unfold Request.parse.
  repeat match goal with
         | |- context [Request.get_word ?o ?i] => destruct (Request.get_word o i)
         end.
  match goal with
  | |- context [Request.get_uint ?o ?i] =>
      pose proof (get_uint_nonneg o i ltac:(done)); destruct (Request.get_uint o i)
  end.
  done.
Qed.

Lemma dispatch_trades req m t :
  trades req →
  pc_ok m t (dispatch (Request.parse req)) ∧ holds (dispatch (Request.parse req)) = None.
Proof.
  intros [Hr Hc]. pose proof (parse_amount_nonneg req) as Ha.
  unfold dispatch.
  rw (proj2 (String.eqb_neq _ _) Hr) (proj2 (String.eqb_neq _ _) Hc).
  repeat case_match; done.
Qed.

Lemma wrap_range x : 0 ≤ wrap x ≤ UINT_MAX.
Proof.
  unfold wrap, UINT_MAX.
  pose proof (Z.mod_pos_bound x (4294967295 + 1) ltac:(lia)). lia.
Qed.

Lemma notify_one_ok a : acceptor_ok a → acceptor_ok (notify_one a).
Proof. by destruct a. Qed.

(** Every statement of a client thread keeps the facts. *)
Lemma client_step_consistent t σ σ' :
  consistent σ → client_step t σ = Some σ' → consistent σ'.
Proof.
  intros Hσ. unfold client_step. rw (c_alive σ Hσ).
  destruct (threads σ !! t) as [p|] eqn:Hp; [|done]. cbn [mbind option_bind].
  pose proof (c_threads σ Hσ t p Hp) as Hok.
  pose proof (c_alive σ Hσ) as Hc.
  pose proof (c_backlog σ Hσ) as Hb.
  pose proof (c_acceptor σ Hσ) as Ha.
  destruct p; cbn [exec clientThread reset create buy sell status pc_ok] in *; try done.
  - (* CT_enter *)
    intros [= <-]. by eapply (move_same σ _ t _ _ Hσ Hp); [reflexivity|reflexivity|..].
  - (* CT_dispatch *)
    intros [= <-]. destruct (dispatch_trades request (stockMap σ) t Hok) as [H1 H2].
    by eapply (move_same σ _ t _ _ Hσ Hp); [reflexivity|reflexivity|..].
  - (* Buy_find *)
    destruct (stockMap σ !! stock) eqn:Hs; intros [= <-];
      by eapply (move_same σ _ t _ _ Hσ Hp); [reflexivity|reflexivity|..].
  - (* Buy_lock *)
    destruct Hok as [[st Hs] Hamt]. unfold acquire, subscript. rw Hs /=.
    destruct (mutex st) eqn:Hm; [done|]. cbn [mbind option_bind]. intros [= <-].
    eapply (move_update σ _ t _ _ stock st _ Hσ Hp Hs); [reflexivity|reflexivity|..]; try done.
    + by rw Hm.
    + by intros t' [= <-].
    + apply (c_stocks σ Hσ _ _ Hs).
    + by right; left.
    + split; [|done]. eexists. by rw lookup_insert_eq.
  - (* Buy_pred *)
    destruct Hok as [(st & Hs & Hm) Hamt]. rw Hs.
    destruct (amount <=? balance st) eqn:Hle; intros [= <-].
    + eapply (move_same σ _ t _ _ Hσ Hp); [reflexivity|reflexivity|..]; try done.
      exists st. apply Z.leb_le in Hle. done.
    + rw (release_held _ _ _ _ Hs Hm).
      eapply (move_update σ _ t _ _ stock st _ Hσ Hp Hs); [reflexivity|reflexivity|..]; try done.
      * rw Hm. by intros t' [= <-].
      * apply (c_stocks σ Hσ _ _ Hs).
      * by right; right.
      * split; [|done]. by rw lookup_insert_eq.
  - (* Buy_relock *)
    destruct Hok as [[st Hs] Hamt]. rw Hs. unfold acquire, subscript. rw Hs /=.
    destruct (mutex st) eqn:Hm; [done|]. cbn [mbind option_bind]. intros [= <-].
    eapply (move_update σ _ t _ _ stock st _ Hσ Hp Hs); [reflexivity|reflexivity|..]; try done.
    + by rw Hm.
    + by intros t' [= <-].
    + apply (c_stocks σ Hσ _ _ Hs).
    + by right; left.
    + split; [|done]. eexists. by rw lookup_insert_eq.
  - (* Buy_update *)
    destruct Hok as (st & Hs & Hm & Hamt). rw (assign_present _ _ _ _ Hs).
    intros [= <-].
    eapply (move_update σ _ t _ _ stock st _ Hσ Hp Hs); [reflexivity|reflexivity|..]; try done.
    + rw Hm. by intros t' [= <-].
    + cbn [set_balance mutex]. rw Hm. by intros t' [= <-].
    + apply wrap_range.
    + by left.
    + eexists. by rw lookup_insert_eq.
  - (* Buy_unlock *)
    destruct Hok as (st & Hs & Hm). rw (release_held _ _ _ _ Hs Hm). intros [= <-].
    eapply (move_update σ _ t _ _ stock st _ Hσ Hp Hs); [reflexivity|reflexivity|..]; try done.
    + rw Hm. by intros t' [= <-].
    + apply (c_stocks σ Hσ _ _ Hs).
    + by right; right.
  - (* Sell_find *)
    destruct (stockMap σ !! stock) eqn:Hs; intros [= <-];
      by eapply (move_same σ _ t _ _ Hσ Hp); [reflexivity|reflexivity|..].
  - (* Sell_lock *)
    destruct Hok as [[st Hs] Hamt]. unfold acquire, subscript. rw Hs /=.
    destruct (mutex st) eqn:Hm; [done|]. cbn [mbind option_bind]. intros [= <-].
    eapply (move_update σ _ t _ _ stock st _ Hσ Hp Hs); [reflexivity|reflexivity|..]; try done.
    + by rw Hm.
    + by intros t' [= <-].
    + apply (c_stocks σ Hσ _ _ Hs).
    + by right; left.
    + split; [|done]. eexists. by rw lookup_insert_eq.
  - (* Sell_update *)
    destruct Hok as [(st & Hs & Hm) Hamt]. rw (assign_present _ _ _ _ Hs).
    intros [= <-].
    eapply (move_update σ _ t _ _ stock st _ Hσ Hp Hs); [reflexivity|reflexivity|..]; try done.
    + rw Hm. by intros t' [= <-].
    + cbn [set_balance mutex]. rw Hm. by intros t' [= <-].
    + apply wrap_range.
    + by left.
    + eexists. by rw lookup_insert_eq.
  - (* Sell_notify *)
    intros [= <-].
    assert (H1 : consistent (with_threads (notify_all (threads σ)) σ))
      by (by apply (notify_consistent σ)).
    eapply (move_same _ _ t (Sell_notify stock) _ H1); [|reflexivity|reflexivity|..]; try done.
    cbn [threads with_threads]. unfold notify_all. by rw lookup_fmap Hp.
  - (* Sell_unlock *)
    destruct Hok as (st & Hs & Hm). rw (release_held _ _ _ _ Hs Hm). intros [= <-].
    eapply (move_update σ _ t _ _ stock st _ Hσ Hp Hs); [reflexivity|reflexivity|..]; try done.
    + rw Hm. by intros t' [= <-].
    + apply (c_stocks σ Hσ _ _ Hs).
    + by right; right.
  - (* Status_find *)
    destruct (stockMap σ !! stock) eqn:Hs; intros [= <-];
      eapply (move_same σ _ t _ _ Hσ Hp); [reflexivity|reflexivity|..]; try done.
    cbn [pc_ok]. by rw Hs.
  - (* Status_lock *)
    destruct Hok as [st Hs]. unfold acquire, subscript. rw Hs /=.
    destruct (mutex st) eqn:Hm; [done|]. cbn [mbind option_bind]. intros [= <-].
    eapply (move_update σ _ t _ _ stock st _ Hσ Hp Hs); [reflexivity|reflexivity|..]; try done.
    + by rw Hm.
    + by intros t' [= <-].
    + apply (c_stocks σ Hσ _ _ Hs).
    + by right; left.
    + eexists. by rw lookup_insert_eq.
  - (* Status_read *)
    destruct Hok as (st & Hs & Hm). rw (assign_present _ _ _ _ Hs). intros [= <-].
    eapply (move_update σ _ t _ _ stock st _ Hσ Hp Hs); [reflexivity|reflexivity|..]; try done.
    + rw Hm. by intros t' [= <-].
    + cbn [id]. rw Hm. by intros t' [= <-].
    + apply (c_stocks σ Hσ _ _ Hs).
    + by left.
    + eexists. by rw lookup_insert_eq.
  - (* Status_unlock *)
    destruct Hok as (st & Hs & Hm). rw (release_held _ _ _ _ Hs Hm). intros [= <-].
    eapply (move_update σ _ t _ _ stock st _ Hσ Hp Hs); [reflexivity|reflexivity|..]; try done.
    + rw Hm. by intros t' [= <-].
    + apply (c_stocks σ Hσ _ _ Hs).
    + by right; right.
  - (* CT_respond *)
    intros [= <-]. by eapply (move_same σ _ t _ _ Hσ Hp); [reflexivity|reflexivity|..].
  - (* CT_leave *)
    intros [= <-]. by eapply (move_same σ _ t _ _ Hσ Hp); [reflexivity|reflexivity|..].
  - (* CT_notify *)
    intros [= <-]. eapply (move_same σ _ t _ _ Hσ Hp); [reflexivity|reflexivity|..]; try done.
    by apply notify_one_ok.
Qed.

(** A step that leaves threads and ledger alone. *)
Lemma same_threads σ σ' :
  consistent σ →
  threads σ' = threads σ →
  stockMap σ' = stockMap σ →
  crashed σ' = false →
  spawned σ' = spawned σ →
  Forall trades (backlog σ') → acceptor_ok (acceptor σ') →
  consistent σ'.
Proof.
  intros Hσ Ht Hm Hc Hsp Hb Ha.
  constructor; rw ?Ht ?Hm ?Hsp; try apply Hσ; done.
Qed.

(** Every statement of [runServer] keeps the facts. *)
Lemma runServer_consistent mt σ σ' :
  consistent σ → runServer mt σ = Some σ' → consistent σ'.
Proof.
  intros Hσ. unfold runServer. rw (c_alive σ Hσ).
  pose proof (c_alive σ Hσ) as Hc.
  pose proof (c_backlog σ Hσ) as Hb.
  pose proof (c_acceptor σ Hσ) as Ha.
  destruct (acceptor σ) eqn:Hacc; cbn [acceptor_ok] in Ha.
  - destruct (backlog σ) as [|c cs] eqn:Hbl; [done|]. intros [= <-].
    apply Forall_cons in Hb as [Hc1 Hcs].
    by apply (same_threads σ).
  - destruct (serverMutex σ); [done|]. intros [= <-]. by apply (same_threads σ).
  - destruct (threadCount σ <? mt); intros [= <-]; by apply (same_threads σ).
  - done.
  - destruct (serverMutex σ); [done|]. intros [= <-]. by apply (same_threads σ).
  - intros [= <-].
    assert (Hnew : threads σ !! spawned σ = None).
    { destruct (threads σ !! spawned σ) eqn:Hn; [|done].
      pose proof (c_fresh σ Hσ (spawned σ) ltac:(by rw Hn)). lia. }
    constructor; unfold_state; try done.
    + intros t p H'. destruct (decide (t = spawned σ)) as [->|Hne].
      * rw lookup_insert_eq in H'. by injection H' as <-.
      * rw lookup_insert_ne // in H'. by apply (c_threads σ Hσ).
    + intros s st Hs. destruct (c_stocks σ Hσ s st Hs) as [Hb' Hh']. split; [done|].
      intros t Hm'. destruct (Hh' t Hm') as (q & Hq & Hhq).
      exists q. split; [|done]. rw lookup_insert_ne //. congruence.
    + intros t H'. destruct (decide (t = spawned σ)) as [->|Hne]; [lia|].
      rw lookup_insert_ne // in H'. pose proof (c_fresh σ Hσ t H'). lia.
  - intros [= <-]. by apply (same_threads σ).
Qed.

Lemma step_consistent mt e σ σ' :
  consistent σ → step mt e σ = Some σ' → consistent σ'.
Proof.
  intros Hσ. destruct e as [t| |t|]; cbn [step].
  - by apply client_step_consistent.
  - by apply runServer_consistent.
  - rw (c_alive σ Hσ).
    destruct (threads σ !! t) as [p|] eqn:Hp; [|done].
    destruct p; try done. intros [= <-].
    pose proof (c_threads σ Hσ _ _ Hp) as Hok.
    eapply (move_same σ _ t _ _ Hσ Hp); [reflexivity|reflexivity|..]; try done;
      apply Hσ.
  - rw (c_alive σ Hσ). pose proof (c_acceptor σ Hσ) as Ha.
    destruct (acceptor σ) eqn:Hacc; try done. intros [= <-].
    apply (same_threads σ); try done; apply Hσ.
Qed.

Lemma run_consistent mt es σ σ' :
  consistent σ → run mt es σ = Some σ' → consistent σ'.
Proof.
  revert σ. induction es as [|e es IH]; intros σ Hσ; simpl.
  - by intros [= <-].
  - destruct (step mt e σ) as [σ1|] eqn:He; [|done]. simpl.
    apply IH. by eapply step_consistent.
Qed.

(** *** No overdraft *)

Lemma supplied_snoc s h x :
  supplied s (h ++ [x])
  = supplied s h
    + match x with
      | Created s' a | Sold s' a => if String.eqb s s' then a else 0
      | Bought _ _ => 0
      end.
Proof.
  induction h as [|y h IH]; cbn [app foldr supplied bought].
  - destruct x; try destruct (String.eqb s stock); lia.
  - unfold supplied, bought in *. cbn [foldr]. rw IH.
    destruct y; try destruct (String.eqb s stock); lia.
Qed.

Lemma bought_snoc s h x :
  bought s (h ++ [x])
  = bought s h
    + match x with
      | Bought s' a => if String.eqb s s' then a else 0
      | _ => 0
      end.
Proof.
  induction h as [|y h IH]; cbn [app foldr supplied bought].
  - destruct x; try destruct (String.eqb s stock); lia.
  - unfold supplied, bought in *. cbn [foldr]. rw IH.
    destruct y; try destruct (String.eqb s stock); lia.
Qed.

Lemma subscript_insert_eq s st m : subscript s (<[s := st]> m) = st.
Proof. unfold subscript. by rw lookup_insert_eq. Qed.

Lemma subscript_insert_ne s s' st m :
  s' ≠ s → subscript s (<[s' := st]> m) = subscript s m.
Proof. intros H. unfold subscript. by rw lookup_insert_ne. Qed.

Lemma acquire_balance t s0 m m' s :
  acquire t s0 m = Some m' → balance (subscript s m') = balance (subscript s m).
Proof.
  unfold acquire. destruct (mutex (subscript s0 m)); [done|]. intros [= <-].
  destruct (decide (s0 = s)) as [->|Hne].
  - by rw subscript_insert_eq.
  - by rw subscript_insert_ne.
Qed.

Lemma release_balance t s0 m s :
  balance (subscript s (release t s0 m)) = balance (subscript s m).
Proof.
  unfold release. destruct (m !! s0) as [st|] eqn:Hs; [|done].
  case_bool_decide; [|done].
  destruct (decide (s0 = s)) as [->|Hne].
  - rw subscript_insert_eq. unfold subscript. by rw Hs.
  - by rw subscript_insert_ne.
Qed.

Lemma assign_id_balance s0 m s :
  balance (subscript s (assign s0 id m)) = balance (subscript s m).
Proof.
  unfold assign. destruct (decide (s0 = s)) as [->|Hne].
  - by rw subscript_insert_eq.
  - by rw subscript_insert_ne.
Qed.

Lemma wrap_le x : 0 ≤ x → wrap x ≤ x.
Proof. intros H. unfold wrap, UINT_MAX. apply Z.mod_le; lia. Qed.

(** No statement of a client thread lets the buyers of [s] get further
    ahead of its suppliers. *)
Lemma client_step_overdraft t σ σ' s :
  consistent σ → client_step t σ = Some σ' → overdraft s σ' ≤ overdraft s σ.
Proof.
  intros Hσ. unfold client_step. rw (c_alive σ Hσ).
  destruct (threads σ !! t) as [p|] eqn:Hp; [|done]. cbn [mbind option_bind].
  pose proof (c_threads σ Hσ t p Hp) as Hok.
  unfold overdraft.
  destruct p; cbn [exec clientThread reset create buy sell status pc_ok] in *; try done;
    try (intros [= <-]; unfold_state;
         rw ?release_balance ?assign_id_balance; lia);
    try (destruct (acquire t stock (stockMap σ)) as [m'|] eqn:Hacq; [|done];
         intros [= <-]; unfold_state; rw (acquire_balance _ _ _ _ s Hacq); lia);
    try (destruct (stockMap σ !! stock); intros [= <-]; unfold_state; lia).
  - (* Buy_pred *)
    destruct Hok as [(st & Hs & Hm) Hamt]. rw Hs.
    destruct (amount <=? balance st); intros [= <-]; unfold_state;
      rw ?release_balance; lia.
  - (* Buy_relock *)
    destruct (stockMap σ !! stock); [|intros [= <-]; unfold_state; lia].
    destruct (acquire t stock (stockMap σ)) as [m'|] eqn:Hacq; [|done].
    intros [= <-]. unfold_state. rw (acquire_balance _ _ _ _ s Hacq). lia.
  - (* Buy_update *)
    destruct Hok as (st & Hs & Hm & Hamt). intros [= <-]. unfold_state.
    destruct (c_stocks σ Hσ _ _ Hs) as [Hb _].
    rw (assign_present _ _ _ _ Hs) bought_snoc supplied_snoc.
    destruct (decide (stock = s)) as [->|Hne].
    + rw subscript_insert_eq String.eqb_refl. unfold subscript. rw Hs.
      cbn [set_balance balance default id]. rw wrap_small; lia.
    + rw subscript_insert_ne // (proj2 (String.eqb_neq s stock)); [congruence|]. lia.
  - (* Sell_update *)
    destruct Hok as [(st & Hs & Hm) Hamt]. intros [= <-]. unfold_state.
    destruct (c_stocks σ Hσ _ _ Hs) as [Hb _].
    rw (assign_present _ _ _ _ Hs) bought_snoc supplied_snoc.
    destruct (decide (stock = s)) as [->|Hne].
    + rw subscript_insert_eq String.eqb_refl. unfold subscript. rw Hs.
      cbn [set_balance balance default id].
      pose proof (wrap_le (balance st + amount) ltac:(lia)). lia.
    + rw subscript_insert_ne // (proj2 (String.eqb_neq s stock)); [congruence|]. lia.
Qed.

Lemma step_overdraft mt e σ σ' s :
  consistent σ → step mt e σ = Some σ' → overdraft s σ' ≤ overdraft s σ.
Proof.
  intros Hσ. destruct e as [t| |t|]; cbn [step].
  - by apply client_step_overdraft.
  - unfold runServer, overdraft. rw (c_alive σ Hσ).
    destruct (acceptor σ); try done;
      repeat case_match; try done; intros [= <-]; unfold_state; lia.
  - unfold overdraft. rw (c_alive σ Hσ).
    repeat case_match; try done; intros [= <-]; unfold_state; lia.
  - unfold overdraft. rw (c_alive σ Hσ).
    repeat case_match; try done; intros [= <-]; unfold_state; lia.
Qed.

Lemma market_consistent : consistent market.
Proof.
  assert (H1 : crashed market = false) by (vm_compute; reflexivity).
  assert (H2 : threads market = {[0%nat := CT_done]}) by (vm_compute; reflexivity).
  assert (H3 : stockMap market
               = {["ACME" := {| name := "ACME"; balance := 100; mutex := None |}]})
    by (vm_compute; reflexivity).
  assert (H4 : spawned market = 1%nat) by (vm_compute; reflexivity).
  assert (H5 : backlog market
               = ["trans=buy&stock=ACME&amount=150"; "trans=sell&stock=ACME&amount=100";
                  "trans=status&stock=ACME"]) by (vm_compute; reflexivity).
  assert (H6 : acceptor market = A_accept) by (vm_compute; reflexivity).
  revert H1 H2 H3 H4 H5 H6. generalize market. intros σ H1 H2 H3 H4 H5 H6.
  constructor; rw ?H2 ?H3 ?H4 ?H5 ?H6.
  - done.
  - intros t p [<- <-]%lookup_singleton_Some. done.
  - intros s st [<- <-]%lookup_singleton_Some. split; [|done].
    cbn [balance]. unfold UINT_MAX. lia.
  - intros t [p [<- _]%lookup_singleton_Some]. lia.
  - repeat constructor; vm_compute; congruence.
  - done.
Qed.

(** X1.  Sessions that buy, sell and ask the status keep the ledger
    consistent under every interleaving, with [runServer] accepting new
    ones and with spurious wake-ups: the process is never terminated,
    balances stay within [unsigned int], a held mutex belongs to a thread
    inside the critical section of that entry, and a thread inside a
    critical section holds the mutex of its entry. *)
Theorem trading_is_consistent mt es σ σ' :
  consistent σ → run mt es σ = Some σ' →
  consistent σ'
  ∧ crashed σ' = false
  ∧ (∀ s st, stockMap σ' !! s = Some st →
       0 ≤ balance st ≤ UINT_MAX
       ∧ ∀ t, mutex st = Some t → ∃ p, threads σ' !! t = Some p ∧ holds p = Some s)
  ∧ (∀ t p s, threads σ' !! t = Some p → holds p = Some s → owns (stockMap σ') t s).
Proof.
  intros Hσ Hrun. pose proof (run_consistent _ _ _ _ Hσ Hrun) as Hσ'.
  split; [done|]. split; [apply Hσ'|]. split; [apply (c_stocks σ' Hσ')|].
  intros t p s Hp Hh. apply (holds_owns _ _ p); [|done]. by apply (c_threads σ' Hσ').
Qed.

(** [trading_is_consistent] on the market: the scenario ends with 50. *)
Lemma trading_is_consistent_witness :
  ∃ σ', run 8 trading market = Some σ' ∧ consistent σ'
        ∧ sent σ' !! 1%nat = Some "Stock ACME's balance updated"
        ∧ sent σ' !! 3%nat = Some "Balance for stock ACME = 50".
Proof.
  eexists. split; [vm_compute; reflexivity|]. split.
  - eapply (proj1 (trading_is_consistent 8 trading market _ market_consistent _)).
    Unshelve. vm_compute; reflexivity.
  - split; vm_compute; reflexivity.
Defined.

(** X2.  In such an interleaving a buyer that has passed its predicate and
    stands before the update holds the mutex of the entry and finds its
    amount covered by the balance: the update stores [balance - amount],
    which is not negative. *)
Theorem checked_buy_is_covered mt es σ σ' t s a :
  consistent σ → run mt es σ = Some σ' →
  threads σ' !! t = Some (Buy_update s a) →
  ∃ st, stockMap σ' !! s = Some st ∧ mutex st = Some t ∧ 0 ≤ a ≤ balance st
        ∧ step mt (Client t) σ'
          = Some (goto t (Buy_unlock s)
                    (record (Bought s a)
                       (with_stockMap
                          (<[s := set_balance (balance st - a) st]> (stockMap σ')) σ')))
        ∧ 0 ≤ balance st - a.
Proof.
  intros Hσ Hrun Hp.
  pose proof (run_consistent _ _ _ _ Hσ Hrun) as Hσ'.
  destruct (c_threads σ' Hσ' t _ Hp) as (st & Hs & Hm & Ha).
  destruct (c_stocks σ' Hσ' _ _ Hs) as [Hb _].
  exists st. split; [done|]. split; [done|]. split; [done|]. split; [|lia].
  cbn [step]. rw (client_step_exec t _ σ' (c_alive σ' Hσ') Hp). cbn [exec clientThread reset create buy sell status].
  rw (assign_present _ _ _ _ Hs) wrap_small //. lia.
Qed.

(** [checked_buy_is_covered] on the market, at the moment the buyer of 150
    has passed its second check. *)
Lemma checked_buy_is_covered_witness :
  let es := accepting 3 ++ alone 1 5 ++ alone 2 9 ++ alone 1 2 in
  ∃ σ' st, run 8 es market = Some σ'
     ∧ stockMap σ' !! "ACME" = Some st ∧ mutex st = Some 1%nat ∧ 0 ≤ 150 ≤ balance st.
Proof.
  intros es.
  assert (Hrun : ∃ σ', run 8 es market = Some σ' ∧ threads σ' !! 1%nat = Some (Buy_update "ACME" 150)).
  { eexists. split; vm_compute; reflexivity. }
  destruct Hrun as (σ' & Hrun & Hp).
  destruct (checked_buy_is_covered 8 es market σ' 1%nat "ACME" 150
              market_consistent Hrun Hp) as (st & Hs & Hm & Ha & _).
  exists σ', st. split; [exact Hrun|]. split; [exact Hs|]. split; [exact Hm|exact Ha].
Defined.

(** X3.  In such an interleaving the buyers of a stock are never served
    more than its balance at the start plus what was supplied since. *)
Theorem trading_never_overdraws mt es σ σ' s :
  consistent σ → run mt es σ = Some σ' →
  bought s (history σ') - bought s (history σ)
  ≤ balance (subscript s (stockMap σ))
    + (supplied s (history σ') - supplied s (history σ)).
Proof.
  intros Hσ Hrun.
  assert (Hmono : overdraft s σ' ≤ overdraft s σ).
  { revert σ Hσ Hrun. induction es as [|e es IH]; intros σ Hσ; simpl.
    - by intros [= <-].
    - destruct (step mt e σ) as [σ1|] eqn:He; [|done]. simpl. intros Hrun.
      pose proof (step_overdraft _ _ _ _ s Hσ He).
      pose proof (IH σ1 (step_consistent _ _ _ _ Hσ He) Hrun). lia. }
  pose proof (run_consistent _ _ _ _ Hσ Hrun) as Hσ'.
  assert (0 ≤ balance (subscript s (stockMap σ'))).
  { unfold subscript. destruct (stockMap σ' !! s) as [st|] eqn:Hs; [|done].
    by destruct (c_stocks σ' Hσ' _ _ Hs) as [[? ?] _]. }
  unfold overdraft in Hmono. lia.
Qed.

(** [trading_never_overdraws] on the market. *)
Lemma trading_never_overdraws_witness :
  ∃ σ', run 8 trading market = Some σ'
     ∧ bought "ACME" (history σ') - bought "ACME" (history market)
       ≤ balance (subscript "ACME" (stockMap market))
         + (supplied "ACME" (history σ') - supplied "ACME" (history market)).
Proof.
  eexists. split; [vm_compute; reflexivity|].
  apply (trading_never_overdraws 8 trading market); [exact market_consistent|].
  vm_compute; reflexivity.
Defined.

(** *** The wait *)

Lemma dispatch_not_update c s a : dispatch c ≠ Buy_update s a.
Proof. unfold dispatch. by repeat case_match. Qed.

(** X4.  The only statement that takes a buyer to the update is its
    predicate, found true on the balance stored at that moment, in every
    state and under every schedule; a buyer asleep in the wait has no
    statement to execute, and once woken it takes the lock and stands
    before the predicate again. *)
Theorem update_only_after_check t σ σ' s a :
  client_step t σ = Some σ' →
  threads σ' !! t = Some (Buy_update s a) →
  threads σ !! t = Some (Buy_pred s a)
  ∧ (∃ st, stockMap σ !! s = Some st ∧ a ≤ balance st)
  ∧ (∀ τ, exec t (Buy_wait s a) τ = None)
  ∧ (∀ τ τ', exec t (Buy_relock s a) τ = Some τ' → threads τ' !! t = Some (Buy_pred s a)).
Proof.
  unfold client_step. destruct (crashed σ); [done|].
  destruct (threads σ !! t) as [p|] eqn:Hp; [|done]. cbn [mbind option_bind].
  intros Hexec Hat.
  assert (Hfrom : p = Buy_pred s a ∧ ∃ st, stockMap σ !! s = Some st ∧ a ≤ balance st).
  { destruct p; cbn [exec clientThread reset create buy sell status] in Hexec;
      repeat match type of Hexec with
             | context [acquire ?t ?s ?m] => destruct (acquire t s m); cbn [mbind option_bind] in Hexec
             | context [stockMap σ !! ?s] => destruct (stockMap σ !! s) eqn:?
             | context [?x <=? ?y] => destruct (x <=? y) eqn:?
             end;
      try done; injection Hexec as <-;
      try (unfold terminate in Hat; cbn [threads] in Hat; congruence);
      rw goto_at in Hat; try done.
    - injection Hat as Hd. by apply dispatch_not_update in Hd.
    - injection Hat as <- <-. split; [done|]. eexists. split; [done|]. by apply Z.leb_le. }
  destruct Hfrom as [-> Hbal]. split; [done|]. split; [done|]. split; [done|].
  intros τ τ'. cbn [exec clientThread reset create buy sell status].
  destruct (stockMap τ !! s); [destruct (acquire t s (stockMap τ)); [|done]|];
    cbn [mbind option_bind]; intros [= <-]; apply goto_at.
Qed.

(** [update_only_after_check] on the market: the step that takes the buyer
    of 150 to its update. *)
Lemma update_only_after_check_witness :
  let es := accepting 3 ++ alone 1 5 ++ alone 2 9 ++ alone 1 1 in
  ∃ σ σ', run 8 es market = Some σ ∧ client_step 1%nat σ = Some σ'
     ∧ threads σ !! 1%nat = Some (Buy_pred "ACME" 150)
     ∧ ∃ st, stockMap σ !! "ACME" = Some st ∧ 150 ≤ balance st.
Proof.
  intros es.
  assert (H : ∃ σ σ', run 8 es market = Some σ ∧ client_step 1%nat σ = Some σ'
                      ∧ threads σ' !! 1%nat = Some (Buy_update "ACME" 150)).
  { do 2 eexists. split; [vm_compute; reflexivity|]. split; vm_compute; reflexivity. }
  destruct H as (σ & σ' & Hrun & Hstep & Hat).
  destruct (update_only_after_check 1%nat σ σ' "ACME" 150 Hstep Hat) as (H1 & H2 & _).
  exists σ, σ'. split; [exact Hrun|]. split; [exact Hstep|]. split; [exact H1|exact H2].
Defined.



(** ** The text of a connection *)

Lemma app_cons c s t : String c s +:+ t = String c (s +:+ t).
Proof. reflexivity. Qed.

Lemma app_empty t : EmptyString +:+ t = t.
Proof. reflexivity. Qed.

Lemma app_empty_r s : s +:+ EmptyString = s.
Proof. induction s as [|c s IH]; [done|]. by rw app_cons IH. Qed.

Lemma app_assoc' (s t u : string) : (s +:+ t) +:+ u = s +:+ t +:+ u.
Proof. induction s as [|c s IH]; [done|]. by rw !app_cons IH. Qed.

Lemma length_app s t : String.length (s +:+ t) = (String.length s + String.length t)%nat.
Proof. induction s as [|c s IH]; [done|]. rw app_cons. cbn [String.length]. by rw IH. Qed.

Lemma all_chars_app p s t : all_chars p (s +:+ t) = all_chars p s && all_chars p t.
Proof.
  induction s as [|c s IH]; [done|]. rw app_cons. cbn [all_chars]. rw IH.
  by destruct (p c).
Qed.

Lemma all_chars_impl (p q : ascii → bool) s :
  (∀ c, p c = true → q c = true) → all_chars p s = true → all_chars q s = true.
Proof.
  intros Hpq. induction s as [|c s IH]; [done|]. cbn [all_chars].
  intros [Hc Hs]%andb_prop. by rw (Hpq _ Hc) (IH Hs).
Qed.

(** *** Decimal digits *)

Lemma pretty_N_char_digit d :
  Request.isdigit (pretty_N_char d) = true.
Proof. unfold pretty_N_char. by repeat case_match. Qed.

Lemma pretty_N_char_value d :
  (d < 10)%N → Z.of_N (N_of_ascii (pretty_N_char d)) - 48 = Z.of_N d.
Proof.
  intros Hd.
  assert (d = 0 ∨ d = 1 ∨ d = 2 ∨ d = 3 ∨ d = 4 ∨ d = 5 ∨ d = 6 ∨ d = 7
          ∨ d = 8 ∨ d = 9)%N as H by lia.
  by repeat (destruct H as [->|H]; [done|]); rw H.
Qed.

Lemma digits_value_app acc s t :
  Request.digits_value acc (s +:+ t)
  = Request.digits_value (Request.digits_value acc s) t.
Proof.
  revert acc. induction s as [|c s IH]; intros acc; [done|].
  rw app_cons. cbn [Request.digits_value]. by rw IH.
Qed.

Lemma pretty_N_go_digits x s :
  ∃ d, pretty_N_go x s = d +:+ s
       ∧ all_chars Request.isdigit d = true
       ∧ ((0 < x)%N → d ≠ EmptyString)
       ∧ ∀ acc, Request.digits_value acc d
                = acc * 10 ^ Z.of_nat (String.length d) + Z.of_N x.
Proof.
  revert s. induction (N.lt_wf_0 x) as [x _ IH]; intros s.
  assert (x = 0 ∨ 0 < x)%N as [->|Hx] by lia.
  - exists EmptyString. rw pretty_N_go_0. repeat split; [lia|].
    intros acc. cbn. lia.
  - rw (pretty_N_go_step x s Hx).
    destruct (IH (x `div` 10)%N (N.div_lt x 10 Hx eq_refl)
                (String (pretty_N_char (x `mod` 10)) s)) as (d & -> & Hd & _ & Hv).
    exists (d +:+ String (pretty_N_char (x `mod` 10)) EmptyString).
    split; [by rw app_assoc'|]. split; [|split].
    + rw all_chars_app Hd. cbn [all_chars]. by rw pretty_N_char_digit.
    + destruct d; discriminate.
    + intros acc. rw digits_value_app Hv. cbn [Request.digits_value].
      rw pretty_N_char_value; [by apply N.mod_lt|].
      rw length_app. cbn [String.length].
      replace (Z.of_nat (String.length d + 1)) with (Z.succ (Z.of_nat (String.length d))) by lia.
      rw Z.pow_succ_r; [lia|].
      pose proof (N.div_mod x 10 ltac:(done)) as Hdm. lia.
Qed.

(** [std::to_string] writes a non-negative number as a non-empty string of
    decimal digits that has the number as its value. *)
Lemma to_string_digits n :
  0 ≤ n →
  to_string n ≠ EmptyString
  ∧ all_chars Request.isdigit (to_string n) = true
  ∧ Request.digits_value 0 (to_string n) = n.
Proof.
  intros Hn. destruct n as [|p|p]; [done| |lia].
  unfold to_string, pretty, pretty_Z, pretty, pretty_positive, pretty, pretty_N.
  destruct (decide (N.pos p = 0%N)) as [|_]; [done|].
  destruct (pretty_N_go_digits (N.pos p) EmptyString) as (d & -> & Hd & Hne & Hv).
  rw app_empty_r. split; [by apply Hne|]. split; [done|]. rw Hv. lia.
Qed.

(** *** Reading words and numbers *)

Lemma replace_app a b s t :
  Request.replace a b (s +:+ t) = Request.replace a b s +:+ Request.replace a b t.
Proof.
  induction s as [|c s IH]; [done|]. rw app_cons. cbn [Request.replace].
  by rw IH app_cons.
Qed.

Lemma replace_without a b s : without a s = true → Request.replace a b s = s.
Proof.
  induction s as [|c s IH]; [done|]. unfold without. cbn [all_chars Request.replace].
  intros [Hc Hs]%andb_prop. apply negb_true_iff in Hc. by rw Hc (IH Hs).
Qed.

Lemma is_word_chars w :
  is_word w = true →
  w ≠ EmptyString ∧ all_chars (λ c, negb (Request.isspace c)) w = true
  ∧ without "&" w = true ∧ without "=" w = true.
Proof.
  unfold is_word. intros [Hne Hw]%andb_prop. split.
  { intros ->. discriminate. }
  repeat split; (eapply all_chars_impl; [|exact Hw]); intros c Hc; cbn beta in Hc;
    by repeat (apply andb_prop in Hc as [Hc ?]).
Qed.

Lemma span_word p w r :
  all_chars p w = true →
  match r with String c _ => p c = false | EmptyString => True end →
  Request.span p (w +:+ r) = (w, r).
Proof.
  intros Hw Hr. induction w as [|c w IH].
  - rw app_empty. destruct r as [|c r]; [done|]. cbn [Request.span]. by rw Hr.
  - cbn [all_chars] in Hw. apply andb_prop in Hw as [Hc Hw].
    rw app_cons. cbn [Request.span]. by rw Hc (IH Hw).
Qed.

(** A word in front of a blank is read whole, after any number of blanks
    before it, and the stream stays good. *)
Lemma get_word_word old w r :
  is_word w = true →
  Request.get_word old {| Request.rest := w +:+ String " " r; Request.good := true |}
  = (w, {| Request.rest := String " " r; Request.good := true |})
  ∧ Request.get_word old {| Request.rest := String " " (w +:+ String " " r);
                            Request.good := true |}
    = (w, {| Request.rest := String " " r; Request.good := true |}).
Proof.
  intros (Hne & Hw & _)%is_word_chars.
  assert (Hskip : Request.skipws (w +:+ String " " r) = w +:+ String " " r).
  { destruct w as [|c w]; [done|]. cbn [all_chars] in Hw.
    apply andb_prop in Hw as [Hc _]. apply negb_true_iff in Hc.
    rw app_cons. cbn [Request.skipws]. by rw Hc. }
  assert (Hspan : Request.span (λ c, negb (Request.isspace c)) (w +:+ String " " r)
                  = (w, String " " r)) by by apply span_word.
  unfold Request.get_word. cbn [Request.good Request.rest].
  change (Request.skipws (String " " (w +:+ String " " r)))
    with (Request.skipws (w +:+ String " " r)).
  rw Hskip Hspan. by destruct w.
Qed.

Lemma isdigit_not_sign c :
  Request.isdigit c = true →
  Request.isspace c = false ∧ c ≠ "-"%char ∧ c ≠ "+"%char.
Proof. destruct c as [[] [] [] [] [] [] [] []]; by intros. Qed.

(** The digits of a number that fits [unsigned int], in front of something
    that is not a digit, are read as that number. *)
Lemma get_uint_digits old d r :
  d ≠ EmptyString → all_chars Request.isdigit d = true →
  Request.digits_value 0 d ≤ UINT_MAX →
  match r with String c _ => Request.isdigit c = false | EmptyString => True end →
  (Request.get_uint old {| Request.rest := String " " (d +:+ r); Request.good := true |}).1
  = Request.digits_value 0 d.
Proof.
  intros Hne Hd Hv Hr. unfold Request.get_uint. cbn [Request.good Request.rest].
  change (Request.skipws (String " " (d +:+ r))) with (Request.skipws (d +:+ r)).
  destruct d as [|c d]; [done|]. pose proof Hd as Hd'. cbn [all_chars] in Hd'.
  apply andb_prop in Hd' as [Hc _].
  destruct (isdigit_not_sign c Hc) as (Hsp & Hm & Hp).
  rw app_cons. cbn [Request.skipws]. rw Hsp.
  assert (Hsign : match String c (d +:+ r) with
                  | String "-" s' => (true, s')
                  | String "+" s' => (false, s')
                  | _ => (false, String c (d +:+ r))
                  end = (false, String c (d +:+ r))).
  { clear -Hm Hp. destruct c as [[] [] [] [] [] [] [] []]; done. }
  rw Hsign. rw -app_cons (span_word _ _ _ Hd Hr).
  by destruct (Z.ltb_spec UINT_MAX (Request.digits_value 0 (String c d))); [lia|].
Qed.

(** The two [std::replace] calls of lines 255-256. *)
Lemma separators_app s t :
  Request.replace "=" " " (Request.replace "&" " " (s +:+ t))
  = Request.replace "=" " " (Request.replace "&" " " s)
    +:+ Request.replace "=" " " (Request.replace "&" " " t).
Proof. by rw !replace_app. Qed.

Lemma separators_word w :
  is_word w = true → Request.replace "=" " " (Request.replace "&" " " w) = w.
Proof. intros (_ & _ & Ha & He)%is_word_chars. by rw (replace_without _ _ _ Ha) (replace_without _ _ _ He). Qed.

Lemma separators_digits d :
  all_chars Request.isdigit d = true →
  Request.replace "=" " " (Request.replace "&" " " d) = d.
Proof.
  intros Hd. rw !replace_without //; (eapply all_chars_impl; [|exact Hd]);
    intros c Hc; by destruct c as [[] [] [] [] [] [] [] []].
Qed.

Lemma separators_head s :
  match s with String c _ => Request.isdigit c = false | EmptyString => True end →
  match Request.replace "=" " " (Request.replace "&" " " s) with
  | String c _ => Request.isdigit c = false
  | EmptyString => True
  end.
Proof.
  destruct s as [|c s]; [done|]. cbn [Request.replace].
  destruct (Ascii.eqb c "&"); [done|]. by destruct (Ascii.eqb c "=").
Qed.

Lemma parse_fields k1 T k2 S k3 n tail :
  is_word k1 = true → is_word T = true → is_word k2 = true → is_word S = true →
  is_word k3 = true → 0 ≤ n ≤ UINT_MAX →
  match tail with String c _ => Request.isdigit c = false | EmptyString => True end →
  Request.parse (k1 +:+ "=" +:+ T +:+ "&" +:+ k2 +:+ "=" +:+ S +:+ "&"
                 +:+ k3 +:+ "=" +:+ to_string n +:+ tail)
  = {| Request.trans := T; Request.stock := S; Request.amount := n |}.
Proof.
  intros H1 HT H2 HS H3 Hn Htail.
  destruct (to_string_digits n (proj1 Hn)) as (Hne & Hd & Hv).
  unfold Request.parse. rw !separators_app.
  rw (separators_word k1 H1) (separators_word T HT) (separators_word k2 H2).
  rw (separators_word S HS) (separators_word k3 H3) (separators_digits _ Hd).
  change (Request.replace "=" " " (Request.replace "&" " " "=")) with " ".
  change (Request.replace "=" " " (Request.replace "&" " " "&")) with " ".
  rw !app_cons !app_empty.
  rw (proj1 (get_word_word _ k1 _ H1)).
  rw (proj2 (get_word_word _ T _ HT)).
  rw (proj2 (get_word_word _ k2 _ H2)).
  rw (proj2 (get_word_word _ S _ HS)).
  rw (proj2 (get_word_word _ k3 _ H3)).
  pose proof (get_uint_digits 0 (to_string n) _ Hne Hd ltac:(lia)
                (separators_head tail Htail)) as Hu.
  destruct (Request.get_uint _ _) as [a ins]. cbn [fst] in Hu. by rw Hu Hv.
Qed.

(** X11.  A request [k1=T&k2=S&k3=n] followed by anything that does not
    start with a digit is read as transaction [T], stock [S] and amount
    [n], for every [n] of [unsigned int].  The three keys are skipped
    without being compared with anything: any words do. *)
Theorem parse_contract k1 T k2 S k3 n tail :
  is_word k1 = true → is_word T = true → is_word k2 = true → is_word S = true →
  is_word k3 = true → 0 ≤ n ≤ UINT_MAX →
  match tail with String c _ => Request.isdigit c = false | EmptyString => True end →
  Request.parse (k1 +:+ "=" +:+ T +:+ "&" +:+ k2 +:+ "=" +:+ S +:+ "&"
                 +:+ k3 +:+ "=" +:+ to_string n +:+ tail)
  = {| Request.trans := T; Request.stock := S; Request.amount := n |}.
Proof. apply parse_fields. Qed.

(** [parse_contract] with keys of one letter, the largest amount and a
    fourth parameter. *)
Lemma parse_contract_witness :
  Request.parse ("a" +:+ "=" +:+ "sell" +:+ "&" +:+ "b" +:+ "=" +:+ "ACME" +:+ "&"
                 +:+ "c" +:+ "=" +:+ to_string 4294967295 +:+ "&d=1")
  = {| Request.trans := "sell"; Request.stock := "ACME"; Request.amount := 4294967295 |}.
Proof.
  apply (parse_contract "a" "sell" "b" "ACME" "c" 4294967295 "&d=1"); try reflexivity.
  unfold UINT_MAX. lia.
Defined.

(** *** Lines *)

Lemma read_line_app l r :
  without Http.LF l = true → Http.read_line (l +:+ String Http.LF r) = (l, r, true).
Proof.
  unfold without. induction l as [|c l IH]; [done|]. cbn [all_chars].
  intros [Hc Hl]%andb_prop. apply negb_true_iff in Hc.
  rw app_cons. cbn [Http.read_line]. by rw Hc (IH Hl).
Qed.

Lemma getline_line old l r :
  without Http.LF l = true →
  Http.getline old (Http.from (l +:+ String Http.LF r)) = (l, Http.from r).
Proof.
  intros Hl. unfold Http.getline, Http.from. cbn [Http.eof Http.fail Http.rest orb].
  pose proof (read_line_app l r Hl) as H.
  destruct (l +:+ String Http.LF r) as [|x y] eqn:E; [by destruct l|]. by rw H.
Qed.

(** What [read_line] returns: the line is free of newlines, and the line
    and the rest together are not longer than the input. *)
Lemma read_line_spec s l r nl :
  Http.read_line s = (l, r, nl) →
  without Http.LF l = true
  ∧ (String.length l + String.length r ≤ String.length s)%nat.
Proof.
  revert l r nl. induction s as [|c s IH]; intros l r nl.
  { intros [= <- <- <-]. split; [done|]. cbn. lia. }
  cbn [Http.read_line]. destruct (Ascii.eqb c Http.LF) eqn:Hc.
  { intros [= <- <- <-]. split; [done|]. cbn. lia. }
  destruct (Http.read_line s) as [[l' r'] nl']. intros [= <- <- <-].
  destruct (IH _ _ _ eq_refl) as [Hl Hlen]. split.
  - unfold without. cbn [all_chars]. by rw Hc.
  - cbn [String.length]. lia.
Qed.

(** The fuel of [skip_headers] is never used up: with more fuel than
    unread characters the loop has ended by itself, so any such amount of
    fuel gives the same stream. *)
Lemma skip_headers_fuel fuel fuel' hdr ins :
  (String.length (Http.rest ins) < fuel)%nat →
  (String.length (Http.rest ins) < fuel')%nat →
  Http.skip_headers_loop fuel hdr ins = Http.skip_headers_loop fuel' hdr ins.
Proof.
  revert fuel' hdr ins.
  induction fuel as [|fuel IH]; intros [|fuel'] hdr ins Hf Hf'; try lia.
  cbn [Http.skip_headers_loop]. unfold Http.getline.
  destruct (Http.eof ins || Http.fail ins); [done|].
  destruct (Http.rest ins) as [|c s] eqn:Hr; [done|].
  destruct (Http.read_line (String c s)) as [[l r] nl] eqn:E.
  destruct (read_line_spec _ _ _ _ E) as [_ Hlen].
  cbn [Http.fail negb andb].
  destruct l as [|x l]; [done|]. cbn [String.eqb negb andb].
  destruct (negb (if Ascii.eqb x Http.CR then String.eqb l EmptyString else false));
    [|done]. cbn [String.length] in Hlen, Hf, Hf'.
  apply IH; cbn [Http.rest]; lia.
Qed.

Lemma lines_length hs tail : (length hs ≤ String.length (lines hs tail))%nat.
Proof.
  induction hs as [|h hs IH]; cbn [lines foldr length]; [lia|].
  rw length_app. cbn [String.length]. fold (lines hs tail). lia.
Qed.

(** The loop of lines 222-224 reads the header lines and the blank line
    that ends them, and nothing after it. *)
Lemma skip_headers_loop_block fuel old hs blank body :
  Forall (λ h, is_header h = true) hs →
  blank = EmptyString ∨ blank = String Http.CR EmptyString →
  (length hs < fuel)%nat →
  Http.skip_headers_loop fuel old
    (Http.from (lines hs (blank +:+ String Http.LF body)))
  = Http.from body.
Proof.
  intros Hhs Hblank. revert fuel old.
  induction Hhs as [|h hs Hh Hhs IH]; intros fuel old Hfuel.
  - destruct fuel as [|fuel]; [cbn in Hfuel; lia|].
    cbn [lines foldr Http.skip_headers_loop].
    rw getline_line; by destruct Hblank as [-> | ->].
  - destruct fuel as [|fuel]; [cbn in Hfuel; lia|].
    cbn [lines foldr Http.skip_headers_loop]. fold (lines hs (blank +:+ String Http.LF body)).
    unfold is_header in Hh. apply andb_prop in Hh as [[He Hc]%andb_prop Hl].
    rw (getline_line _ _ _ Hl). cbn [Http.from Http.fail negb andb].
    rw He Hc. cbn [andb]. apply IH. cbn [length] in Hfuel. lia.
Qed.

Lemma skip_headers_block hs blank body :
  Forall (λ h, is_header h = true) hs →
  blank = EmptyString ∨ blank = String Http.CR EmptyString →
  Http.skip_headers (Http.from (lines hs (blank +:+ String Http.LF body)))
  = Http.from body.
Proof.
  intros Hhs Hblank. apply skip_headers_loop_block; [done..|].
  cbn [Http.from Http.rest]. pose proof (lines_length hs (blank +:+ String Http.LF body)). lia.
Qed.

(** *** Searching and cutting *)

Lemma find_app c a r :
  without c a = true → Http.find c (a +:+ String c r) = Some (String.length a).
Proof.
  unfold without. induction a as [|x a IH].
  - intros _. rw app_empty. cbn [Http.find]. by rw Ascii.eqb_refl.
  - cbn [all_chars]. intros [Hx Ha]%andb_prop. apply negb_true_iff in Hx.
    rw app_cons. cbn [Http.find String.length]. by rw Hx (IH Ha).
Qed.

Lemma find_None c s : Http.find c s = None ↔ without c s = true.
Proof.
  unfold without. induction s as [|x s IH]; [done|]. cbn [Http.find all_chars].
  destruct (Ascii.eqb x c); [done|]. cbn [negb andb]. rw -IH.
  by destruct (Http.find c s).
Qed.

Lemma find_Some c s i :
  Http.find c s = Some i →
  (i < String.length s)%nat ∧ without c (Http.take_chars i s) = true.
Proof.
  revert i. induction s as [|x s IH]; intros i; [done|]. cbn [Http.find].
  destruct (Ascii.eqb x c) eqn:Hx.
  { intros [= <-]. split; [cbn; lia|done]. }
  destruct (Http.find c s) as [j|]; [|done]. intros [= <-].
  destruct (IH j eq_refl) as [Hj Hw]. split; [cbn; lia|].
  cbn [Http.take_chars]. unfold without. cbn [all_chars]. by rw Hx.
Qed.

Lemma drop_chars_app a r : Http.drop_chars (String.length a) (a +:+ r) = r.
Proof. induction a as [|x a IH]; [by destruct r|]. by rw app_cons. Qed.

Lemma take_chars_app a r : Http.take_chars (String.length a) (a +:+ r) = a.
Proof.
  induction a as [|x a IH]; [by destruct r|]. rw app_cons.
  cbn [String.length Http.take_chars]. by rw IH.
Qed.

Lemma without_drop c n s : without c s = true → without c (Http.drop_chars n s) = true.
Proof.
  unfold without. revert s. induction n as [|n IH]; intros [|x s]; try done.
  cbn [all_chars Http.drop_chars]. intros [_ Hs]%andb_prop. by apply IH.
Qed.

Lemma without_take c n s : without c s = true → without c (Http.take_chars n s) = true.
Proof.
  unfold without. revert s. induction n as [|n IH]; intros [|x s]; try done.
  cbn [all_chars Http.take_chars]. intros [Hx Hs]%andb_prop. by rw Hx (IH _ Hs).
Qed.

Lemma substr_Some s pos n :
  (pos ≤ String.length s)%nat →
  Http.substr s pos n
  = Some (match n with
          | Some n => Http.take_chars n (Http.drop_chars pos s)
          | None => Http.drop_chars pos s
          end).
Proof.
  intros Hpos. unfold Http.substr. by destruct (Nat.ltb_spec (String.length s) pos); [lia|].
Qed.

(** *** extractURL *)

Lemma extractURL_path method path version hs blank body :
  without "/" method = true → without Http.LF method = true →
  without " " path = true → without Http.LF path = true →
  without Http.LF version = true →
  Forall (λ h, is_header h = true) hs →
  blank = EmptyString ∨ blank = String Http.CR EmptyString →
  Http.extractURL
    (Http.from (method +:+ "/" +:+ path +:+ " " +:+ version
                +:+ String Http.LF (lines hs (blank +:+ String Http.LF body))))
  = Some (path, Http.from body).
Proof.
  intros Hm Hml Hp Hpl Hv Hhs Hblank. unfold Http.extractURL.
  rw -!app_assoc'. rw getline_line.
  { unfold without in *. rw !all_chars_app Hml Hpl Hv. done. }
  rw (skip_headers_block hs blank body Hhs Hblank).
  rw !app_assoc' !app_cons !app_empty.
  rw (find_app "/" method _ Hm).
  rw substr_Some; [rw length_app; cbn [String.length]; lia|].
  cbn [mbind option_bind].
  replace (S (String.length method)) with (String.length (method +:+ "/")) by (rw length_app; cbn; lia).
  rw -(app_empty (path +:+ _)) -app_cons -app_assoc' drop_chars_app.
  rw (find_app " " path _ Hp). rw substr_Some; [lia|]. cbn [mbind option_bind Http.drop_chars].
  by rw take_chars_app.
Qed.

(** X7.  On a request line [method/path version] (no slash in the method,
    no blank in the path), followed by any header lines and by the blank
    line that ends them, [extractURL] returns the path without its leading
    slash and leaves the stream at the first character after the blank
    line, still good.  The blank line may be empty or a lone carriage
    return; the method is not looked at. *)
Theorem extractURL_contract method path version hs blank body :
  without "/" method = true → without Http.LF method = true →
  without " " path = true → without Http.LF path = true →
  without Http.LF version = true →
  Forall (λ h, is_header h = true) hs →
  blank = EmptyString ∨ blank = String Http.CR EmptyString →
  Http.extractURL
    (Http.from (method +:+ "/" +:+ path +:+ " " +:+ version
                +:+ String Http.LF (lines hs (blank +:+ String Http.LF body))))
  = Some (path, Http.from body).
Proof. apply extractURL_path. Qed.

(** [extractURL_contract] on the request of a browser. *)
Lemma extractURL_contract_witness :
  Http.extractURL
    (Http.from ("GET " +:+ "/" +:+ "trans=status&stock=ACME" +:+ " "
                +:+ ("HTTP/1.1" +:+ String Http.CR EmptyString)
                +:+ String Http.LF
                      (lines ["Host: localhost:8080" +:+ String Http.CR EmptyString;
                              "Accept: */*" +:+ String Http.CR EmptyString]
                         (String Http.CR EmptyString +:+ String Http.LF EmptyString))))
  = Some ("trans=status&stock=ACME", Http.from EmptyString).
Proof.
  apply (extractURL_contract "GET " "trans=status&stock=ACME"
           ("HTTP/1.1" +:+ String Http.CR EmptyString)); try reflexivity.
  - repeat constructor.
  - by right.
Defined.

Lemma getline_without old ins l ins' :
  without Http.LF old = true → Http.getline old ins = (l, ins') →
  without Http.LF l = true.
Proof.
  intros Hold. unfold Http.getline. destruct (Http.eof ins || Http.fail ins).
  { by intros [= <- _]. }
  destruct (Http.rest ins) as [|c s]; [by intros [= <- _]|].
  destruct (Http.read_line (String c s)) as [[l' r] nl] eqn:E. intros [= <- _].
  by destruct (read_line_spec _ _ _ _ E).
Qed.

(** X8.  Whatever the client sends, [extractURL] returns: neither
    [substr] is called past the end of the line, so no [std::out_of_range]
    leaves the function.  The text it returns holds no blank and no
    newline. *)
Theorem extractURL_never_throws ins :
  ∃ url ins', Http.extractURL ins = Some (url, ins')
              ∧ without " " url = true ∧ without Http.LF url = true.
Proof.
  unfold Http.extractURL. destruct (Http.getline EmptyString ins) as [line ins1] eqn:E.
  pose proof (getline_without EmptyString _ _ _ eq_refl E) as Hl.
  set (k := match Http.find "/" line with Some i => S i | None => O end).
  assert (Hk : (k ≤ String.length line)%nat).
  { unfold k. destruct (Http.find "/" line) as [i|] eqn:Hf; [|lia].
    destruct (find_Some _ _ _ Hf). lia. }
  rw (substr_Some line k None Hk). cbn [mbind option_bind].
  rw substr_Some; [lia|]. cbn [mbind option_bind Http.drop_chars].
  eexists _, _. split; [reflexivity|].
  pose proof (without_drop Http.LF k line Hl) as Hd.
  destruct (Http.find " " (Http.drop_chars k line)) as [j|] eqn:Hj.
  - split; [by destruct (find_Some _ _ _ Hj)|by apply without_take].
  - split; [by apply find_None|done].
Qed.

(** X9.  A request line without any slash: [find] returns [npos], the
    line is kept from its start ([npos + 1] is 0), and what [extractURL]
    returns is the first word of the line, the method. *)
Theorem extractURL_without_slash w x r :
  without "/" w = true → without "/" x = true →
  without " " w = true → without Http.LF w = true → without Http.LF x = true →
  ∃ ins', Http.extractURL (Http.from (w +:+ " " +:+ x +:+ String Http.LF r))
          = Some (w, ins').
Proof.
  intros Hw Hx Hb Hwl Hxl. unfold Http.extractURL.
  rw -!app_assoc'. rw getline_line.
  { unfold without in *. by rw !all_chars_app Hwl Hxl. }
  assert (Hf : Http.find "/" ((w +:+ " ") +:+ x) = None).
  { apply find_None. unfold without in *. by rw !all_chars_app Hw Hx. }
  rw Hf. rw substr_Some; [lia|]. cbn [mbind option_bind Http.drop_chars].
  rw !app_assoc' !app_cons !app_empty (find_app " " w _ Hb).
  rw substr_Some; [lia|]. cbn [mbind option_bind Http.drop_chars].
  rw take_chars_app. by eexists.
Qed.

(** [extractURL_without_slash] on a request line that names no path. *)
Lemma extractURL_without_slash_witness :
  ∃ ins', Http.extractURL
            (Http.from ("GET" +:+ " " +:+ "stock HTTP"
                        +:+ String Http.LF EmptyString))
          = Some ("GET", ins').
Proof. by apply (extractURL_without_slash "GET" "stock HTTP" EmptyString). Defined.

(** *** HTTPResponse *)

Lemma to_string_without_LF n : 0 ≤ n → without Http.LF (to_string n) = true.
Proof.
  intros Hn. destruct (to_string_digits n Hn) as (_ & Hd & _).
  eapply all_chars_impl; [|exact Hd].
  intros c Hc. by destruct c as [[] [] [] [] [] [] [] []].
Qed.

Lemma HTTPResponse_lines msg :
  Http.HTTPResponse EmptyString msg
  = lines ["HTTP/1.1 200 OK" +:+ String Http.CR EmptyString;
           "Server: StockServer" +:+ String Http.CR EmptyString;
           "Content-Length: " +:+ to_string (Z.of_nat (String.length msg))
             +:+ String Http.CR EmptyString;
           "Connection: Close" +:+ String Http.CR EmptyString;
           "Content - Type: text / plain" +:+ String Http.CR EmptyString]
      (String Http.CR EmptyString +:+ String Http.LF msg).
Proof.
  unfold Http.HTTPResponse, lines, Http.CRLF. cbn [foldr].
  by rw !app_assoc' !app_cons !app_empty.
Qed.

Lemma is_header_cons c h :
  c ≠ Http.CR → without Http.LF (String c h) = true → is_header (String c h) = true.
Proof.
  intros Hc Hl. unfold is_header. rw Hl. cbn [String.eqb negb andb].
  apply Ascii.eqb_neq in Hc. by rw Hc.
Qed.

(** X10.  What [HTTPResponse] writes on a fresh stream is five header
    lines, a blank line and the message: a reader that skips the headers
    the way [extractURL] does is left with exactly [msg], whatever [msg]
    holds (newlines and blank lines included). *)
Theorem HTTPResponse_framing msg :
  Http.skip_headers (Http.from (Http.HTTPResponse EmptyString msg)) = Http.from msg.
Proof.
  rw HTTPResponse_lines. apply skip_headers_block; [|by right].
  apply Forall_cons; split; [done|]. apply Forall_cons; split; [done|].
  apply Forall_cons; split; [|by repeat (apply Forall_cons; split)].
  set (n := to_string (Z.of_nat (String.length msg))).
  assert (Hn : without Http.LF n = true) by (apply to_string_without_LF; lia).
  change (is_header (String "C" ("ontent-Length: " +:+ n +:+ String Http.CR EmptyString)) = true).
  apply is_header_cons; [done|].
  change (without Http.LF ("Content-Length: " +:+ n +:+ String Http.CR EmptyString) = true).
  unfold without in *. by rw !all_chars_app Hn.
Qed.

(** *** url_decode *)

Lemma url_decode_copy c r :
  c ≠ "+"%char → c ≠ "%"%char →
  Url.url_decode (String c r) = String c <$> Url.url_decode r.
Proof.
  intros Hp Hc. cbn [Url.url_decode].
  apply Ascii.eqb_neq in Hp, Hc. by rw Hp Hc.
Qed.

Lemma url_decode_app a b :
  without "%" a = true →
  Url.url_decode (a +:+ b) = (λ r, Request.replace "+" " " a +:+ r) <$> Url.url_decode b.
Proof.
  unfold without. induction a as [|c a IH].
  { intros _. rw app_empty. by destruct (Url.url_decode b). }
  cbn [all_chars]. intros [Hc Ha]%andb_prop. apply negb_true_iff in Hc.
  rw app_cons. cbn [Url.url_decode Request.replace]. rw Hc (IH Ha).
  destruct (Ascii.eqb c "+"); by destruct (Url.url_decode b).
Qed.

Lemma url_decode_no_percent s :
  without "%" s = true → Url.url_decode s = Some (Request.replace "+" " " s).
Proof.
  intros Hs. rw -(app_empty_r s) (url_decode_app s EmptyString Hs).
  cbn [Url.url_decode fmap option_fmap option_map]. by rw !app_empty_r.
Qed.

Lemma url_decode_is_plain s : is_plain s = true → Url.url_decode s = Some s.
Proof.
  unfold is_plain. intros [Hc Hp]%andb_prop.
  by rw (url_decode_no_percent s Hc) (replace_without _ _ _ Hp).
Qed.

Lemma stoi16_escape upper c :
  Url.stoi16 (String (hex_char upper (N_of_ascii c / 16))
                (String (hex_char upper (N_of_ascii c mod 16)) EmptyString))
  = Some (Z.of_N (N_of_ascii c))
  ∧ Url.to_char (Z.of_N (N_of_ascii c)) = c.
Proof.
  destruct upper; destruct c as [[] [] [] [] [] [] [] []];
    split; vm_compute; reflexivity.
Qed.

Lemma url_decode_escape upper c r :
  Url.url_decode (escape upper c +:+ r) = String c <$> Url.url_decode r.
Proof.
  unfold escape. rw !app_cons app_empty.
  destruct (stoi16_escape upper c) as [Hv Hc].
  cbn [Url.url_decode]. change (Ascii.eqb "%" "+") with false.
  change (Ascii.eqb "%" "%") with true. cbn match.
  rw Hv. cbn [mbind option_bind]. by rw Hc.
Qed.

(** X12.  [url_decode] undoes percent-encoding: whichever characters the
    client sends as they are (the percent and the plus sign excepted),
    whether it writes a blank as a plus sign or as an escape, and in
    whichever case it writes the hexadecimal digits, decoding the encoded
    text returns the text, for all 256 characters. *)
Theorem url_decode_round_trip safe form upper s :
  Url.url_decode (percent_encode safe form upper s) = Some s.
Proof.
  induction s as [|c s IH]; [done|]. cbn [percent_encode].
  destruct (safe c && negb (Ascii.eqb c "%") && negb (Ascii.eqb c "+")) eqn:Hs.
  - apply andb_prop in Hs as [[_ Hc]%andb_prop Hp].
    apply negb_true_iff, Ascii.eqb_neq in Hc, Hp.
    rw app_cons app_empty (url_decode_copy c _ Hp Hc) IH. done.
  - destruct (form && Ascii.eqb c " ") eqn:Hf.
    + apply andb_prop in Hf as [_ ->%Ascii.eqb_eq].
      rw app_cons app_empty. cbn [Url.url_decode]. change (Ascii.eqb "+" "+") with true.
      cbn match. by rw IH.
    + by rw url_decode_escape IH.
Qed.

(** X13.  On a text without percent sign [url_decode] never throws, and
    what it returns is the text with every plus sign turned into a blank
    (the text itself when there is no plus sign either). *)
Theorem url_decode_without_percent s :
  without "%" s = true →
  Url.url_decode s = Some (Request.replace "+" " " s)
  ∧ (without "+" s = true → Url.url_decode s = Some s).
Proof.
  intros Hs. split; [by apply url_decode_no_percent|].
  intros Hp. apply url_decode_is_plain. unfold is_plain. by rw Hs Hp.
Qed.

(** [url_decode_without_percent] on a query with a plus sign. *)
Lemma url_decode_without_percent_witness :
  Url.url_decode "trans=buy&stock=A+B" = Some "trans=buy&stock=A B".
Proof. exact (proj1 (url_decode_without_percent "trans=buy&stock=A+B" eq_refl)). Defined.

Lemma stoi16_no_number b :
  no_number b = true → (String.length b ≤ 2)%nat → Url.stoi16 b = None.
Proof.
  destruct b as [|c b]; [done|]. cbn [no_number].
  intros [[[Hh Hs]%andb_prop Hp]%andb_prop Hm]%andb_prop Hlen.
  apply bool_decide_eq_true in Hh. apply negb_true_iff in Hs, Hp, Hm.
  unfold Url.stoi16. cbn [Request.skipws]. rw Hs Hm Hp.
  destruct b as [|d [|e b]]; [by rw Hh..|]. cbn in Hlen. lia.
Qed.

(** X14.  A percent sign that ends the text, or that is followed by a
    character that is neither a hexadecimal digit, nor white space, nor a
    sign, makes [std::stoi] throw: [url_decode] does not return.  (In
    [clientThread] nothing catches the exception.) *)
Theorem url_decode_throws a b :
  without "%" a = true → no_number b = true →
  Url.url_decode (a +:+ "%" +:+ b) = None.
Proof.
  intros Ha Hb. rw (url_decode_app a _ Ha). rw app_cons app_empty.
  cbn [Url.url_decode]. change (Ascii.eqb "%" "+") with false.
  change (Ascii.eqb "%" "%") with true. cbn match.
  destruct b as [|c [|d b]].
  - done.
  - rw (stoi16_no_number (String c EmptyString) Hb); [cbn; lia|done].
  - rw (stoi16_no_number (String c (String d EmptyString))); [done|cbn; lia|done].
Qed.

(** [url_decode_throws] on a stock name with a broken escape. *)
Lemma url_decode_throws_witness :
  Url.url_decode ("trans=status&stock=" +:+ "%" +:+ "zz") = None.
Proof. exact (url_decode_throws "trans=status&stock=" "zz" eq_refl eq_refl). Defined.

(** *** From the connection to the command *)

Lemma word_without_blank w :
  is_word w = true → without " " w = true ∧ without Http.LF w = true.
Proof.
  intros (_ & Hw & _)%is_word_chars.
  split; (eapply all_chars_impl; [|exact Hw]); intros c Hc;
    by destruct c as [[] [] [] [] [] [] [] []].
Qed.

Lemma digits_without c d :
  Request.isdigit c = false → all_chars Request.isdigit d = true → without c d = true.
Proof.
  intros Hc Hd. eapply all_chars_impl; [|exact Hd]. intros x Hx. cbn beta.
  apply negb_true_iff, Ascii.eqb_neq. by intros ->; rw Hc in Hx.
Qed.

(** X15.  Lines 250-261 together: for a request line
    [method/trans=T&stock=S&amount=n version] with headers and a blank
    line, where [T] and [S] are words without percent or plus sign and [n]
    fits [unsigned int], [extractURL] and [url_decode] deliver a request
    that is read as transaction [T], stock [S] and amount [n].  Any method
    does. *)
Theorem request_to_command method T S n version hs blank body :
  without "/" method = true → without Http.LF method = true →
  is_word T = true → is_plain T = true → is_word S = true → is_plain S = true →
  0 ≤ n ≤ UINT_MAX → without Http.LF version = true →
  Forall (λ h, is_header h = true) hs →
  blank = EmptyString ∨ blank = String Http.CR EmptyString →
  ∃ request,
    Url.read_request
      (Http.from (method +:+ "/" +:+ ("trans=" +:+ T +:+ "&stock=" +:+ S +:+ "&amount="
                                      +:+ to_string n)
                  +:+ " " +:+ version
                  +:+ String Http.LF (lines hs (blank +:+ String Http.LF body))))
    = Some request
    ∧ Request.parse request
      = {| Request.trans := T; Request.stock := S; Request.amount := n |}.
Proof.
  intros Hm Hml HT HTp HS HSp Hn Hv Hhs Hblank.
  destruct (to_string_digits n (proj1 Hn)) as (_ & Hd & _).
  destruct (word_without_blank T HT) as [HTb HTl].
  destruct (word_without_blank S HS) as [HSb HSl].
  apply andb_prop in HTp as [HTc HTq]. apply andb_prop in HSp as [HSc HSq].
  set (path := "trans=" +:+ T +:+ "&stock=" +:+ S +:+ "&amount=" +:+ to_string n).
  assert (Hpath : ∀ c, without c "trans=&stock=&amount=" = true →
            without c T = true → without c S = true → Request.isdigit c = false →
            without c path = true).
  { intros c Hlit HcT HcS Hc. pose proof (digits_without c _ Hc Hd) as Hcd.
    unfold path, without in *. rw !all_chars_app.
    rw HcT HcS Hcd. rw !andb_true_r.
    cbn [all_chars] in Hlit |- *. repeat (apply andb_prop in Hlit as [? Hlit]).
    by repeat (apply andb_true_intro; split). }
  exists path. split.
  - unfold Url.read_request.
    rw (extractURL_path method path version hs blank body) //; [by apply Hpath..|].
    cbn [mbind option_bind]. apply url_decode_is_plain. unfold is_plain.
    by rw !Hpath.
  - unfold path.
    apply (parse_fields "trans" T "stock" S "amount" n EmptyString) in Hn; try done.
    by rw app_empty_r !app_cons !app_empty in Hn.
Qed.

(** [request_to_command] on the request of a browser. *)
Lemma request_to_command_witness :
  ∃ request,
    Url.read_request
      (Http.from ("GET " +:+ "/" +:+ ("trans=" +:+ "create" +:+ "&stock=" +:+ "ACME"
                                      +:+ "&amount=" +:+ to_string 100)
                  +:+ " " +:+ ("HTTP/1.1" +:+ String Http.CR EmptyString)
                  +:+ String Http.LF
                        (lines ["Host: localhost:8080" +:+ String Http.CR EmptyString]
                           (String Http.CR EmptyString +:+ String Http.LF EmptyString))))
    = Some request
    ∧ Request.parse request
      = {| Request.trans := "create"; Request.stock := "ACME"; Request.amount := 100 |}.
Proof.
  apply (request_to_command "GET " "create" "ACME" 100
           ("HTTP/1.1" +:+ String Http.CR EmptyString)); try reflexivity.
  - unfold UINT_MAX. lia.
  - repeat constructor.
  - by right.
Defined.

(** *** Requests that leave fields out, and amounts out of range *)

Lemma get_word_last old w :
  is_word w = true →
  Request.get_word old {| Request.rest := w; Request.good := true |}
  = (w, {| Request.rest := EmptyString; Request.good := true |})
  ∧ Request.get_word old {| Request.rest := String " " w; Request.good := true |}
    = (w, {| Request.rest := EmptyString; Request.good := true |}).
Proof.
  intros (Hne & Hw & _)%is_word_chars.
  assert (Hskip : Request.skipws w = w).
  { destruct w as [|c w]; [done|]. cbn [all_chars] in Hw.
    apply andb_prop in Hw as [Hc _]. apply negb_true_iff in Hc.
    cbn [Request.skipws]. by rw Hc. }
  assert (Hspan : Request.span (λ c, negb (Request.isspace c)) w = (w, EmptyString)).
  { rw -{1}(app_empty_r w). by apply span_word. }
  unfold Request.get_word. cbn [Request.good Request.rest].
  change (Request.skipws (String " " w)) with (Request.skipws w).
  rw Hskip Hspan. by destruct w.
Qed.

Lemma parse_one_field k1 T :
  is_word k1 = true → is_word T = true →
  Request.parse (k1 +:+ "=" +:+ T)
  = {| Request.trans := T; Request.stock := EmptyString; Request.amount := 0 |}.
Proof.
  intros H1 HT. unfold Request.parse. rw !separators_app.
  rw (separators_word k1 H1) (separators_word T HT).
  change (Request.replace "=" " " (Request.replace "&" " " "=")) with " ".
  rw !app_cons !app_empty.
  rw (proj1 (get_word_word _ k1 _ H1)).
  by rw (proj2 (get_word_last _ T HT)).
Qed.

Lemma parse_two_fields k1 T k2 S :
  is_word k1 = true → is_word T = true → is_word k2 = true → is_word S = true →
  Request.parse (k1 +:+ "=" +:+ T +:+ "&" +:+ k2 +:+ "=" +:+ S)
  = {| Request.trans := T; Request.stock := S; Request.amount := 0 |}.
Proof.
  intros H1 HT H2 HS. unfold Request.parse. rw !separators_app.
  rw (separators_word k1 H1) (separators_word T HT) (separators_word k2 H2).
  rw (separators_word S HS).
  change (Request.replace "=" " " (Request.replace "&" " " "=")) with " ".
  change (Request.replace "=" " " (Request.replace "&" " " "&")) with " ".
  rw !app_cons !app_empty.
  rw (proj1 (get_word_word _ k1 _ H1)).
  rw (proj2 (get_word_word _ T _ HT)).
  rw (proj2 (get_word_word _ k2 _ H2)).
  by rw (proj2 (get_word_last _ S HS)).
Qed.

(** X23.  Fields a request leaves out keep the values they were
    initialised with: [k1=T] is read as transaction [T] with an empty stock
    name and amount 0, and [k1=T&k2=S] as transaction [T] on stock [S] with
    amount 0. *)
Theorem parse_missing_fields k1 T k2 S :
  is_word k1 = true → is_word T = true → is_word k2 = true → is_word S = true →
  Request.parse (k1 +:+ "=" +:+ T)
  = {| Request.trans := T; Request.stock := EmptyString; Request.amount := 0 |}
  ∧ Request.parse (k1 +:+ "=" +:+ T +:+ "&" +:+ k2 +:+ "=" +:+ S)
    = {| Request.trans := T; Request.stock := S; Request.amount := 0 |}.
Proof.
  intros H1 HT H2 HS. split; [by apply parse_one_field|by apply parse_two_fields].
Qed.

(** [parse_missing_fields] on the requests for a reset and for a status. *)
Lemma parse_missing_fields_witness :
  Request.parse ("trans" +:+ "=" +:+ "reset")
  = {| Request.trans := "reset"; Request.stock := EmptyString; Request.amount := 0 |}
  ∧ Request.parse ("trans" +:+ "=" +:+ "reset" +:+ "&" +:+ "stock" +:+ "=" +:+ "ACME")
    = {| Request.trans := "reset"; Request.stock := "ACME"; Request.amount := 0 |}.
Proof. by apply (parse_missing_fields "trans" "reset" "stock" "ACME"). Defined.

Lemma get_uint_minus old d r :
  d ≠ EmptyString → all_chars Request.isdigit d = true →
  Request.digits_value 0 d ≤ UINT_MAX →
  match r with String c _ => Request.isdigit c = false | EmptyString => True end →
  (Request.get_uint old {| Request.rest := String " " (String "-" (d +:+ r));
                           Request.good := true |}).1
  = wrap (- Request.digits_value 0 d).
Proof.
  intros Hne Hd Hv Hr. unfold Request.get_uint. cbn [Request.good Request.rest].
  change (Request.skipws (String " " (String "-" (d +:+ r)))) with (String "-" (d +:+ r)).
  cbn match. rw (span_word _ _ _ Hd Hr). destruct d as [|c d]; [done|].
  by destruct (Z.ltb_spec UINT_MAX (Request.digits_value 0 (String c d))); [lia|].
Qed.

Lemma get_uint_huge old d r :
  all_chars Request.isdigit d = true →
  UINT_MAX < Request.digits_value 0 d →
  match r with String c _ => Request.isdigit c = false | EmptyString => True end →
  (Request.get_uint old {| Request.rest := String " " (d +:+ r); Request.good := true |}).1
  = UINT_MAX.
Proof.
  intros Hd Hv Hr. unfold Request.get_uint. cbn [Request.good Request.rest].
  change (Request.skipws (String " " (d +:+ r))) with (Request.skipws (d +:+ r)).
  destruct d as [|c d]; [cbn in Hv; unfold UINT_MAX in Hv; lia|].
  pose proof Hd as Hd'. cbn [all_chars] in Hd'. apply andb_prop in Hd' as [Hc _].
  destruct (isdigit_not_sign c Hc) as (Hsp & Hm & Hp).
  rw app_cons. cbn [Request.skipws]. rw Hsp.
  assert (Hsign : match String c (d +:+ r) with
                  | String "-" s' => (true, s')
                  | String "+" s' => (false, s')
                  | _ => (false, String c (d +:+ r))
                  end = (false, String c (d +:+ r))).
  { clear -Hm Hp. destruct c as [[] [] [] [] [] [] [] []]; done. }
  rw Hsign. rw -app_cons (span_word _ _ _ Hd Hr).
  by destruct (Z.ltb_spec UINT_MAX (Request.digits_value 0 (String c d))); [|lia].
Qed.

(** X24.  Amounts outside [unsigned int].  A minus sign in front of [n]
    (from 1 to [UINT_MAX]) is accepted and the amount read is [2^32 - n];
    digits that spell a number above [UINT_MAX] are read as [UINT_MAX].
    Either way the transaction is dispatched with that amount. *)
Theorem parse_amount_out_of_range k1 T k2 S k3 n :
  is_word k1 = true → is_word T = true → is_word k2 = true → is_word S = true →
  is_word k3 = true → 0 < n →
  (n ≤ UINT_MAX →
     Request.parse (k1 +:+ "=" +:+ T +:+ "&" +:+ k2 +:+ "=" +:+ S +:+ "&"
                    +:+ k3 +:+ "=" +:+ "-" +:+ to_string n)
     = {| Request.trans := T; Request.stock := S; Request.amount := UINT_MAX + 1 - n |})
  ∧ (UINT_MAX < n →
     Request.parse (k1 +:+ "=" +:+ T +:+ "&" +:+ k2 +:+ "=" +:+ S +:+ "&"
                    +:+ k3 +:+ "=" +:+ to_string n)
     = {| Request.trans := T; Request.stock := S; Request.amount := UINT_MAX |}).
Proof.
  intros H1 HT H2 HS H3 Hn.
  destruct (to_string_digits n ltac:(lia)) as (Hne & Hd & Hv).
  split; intros Hrange; unfold Request.parse; rw !separators_app;
    rw (separators_word k1 H1) (separators_word T HT) (separators_word k2 H2);
    rw (separators_word S HS) (separators_word k3 H3) (separators_digits _ Hd);
    change (Request.replace "=" " " (Request.replace "&" " " "=")) with " ";
    change (Request.replace "=" " " (Request.replace "&" " " "&")) with " ";
    change (Request.replace "=" " " (Request.replace "&" " " "-")) with "-";
    rw !app_cons !app_empty;
    rw (proj1 (get_word_word _ k1 _ H1));
    rw (proj2 (get_word_word _ T _ HT));
    rw (proj2 (get_word_word _ k2 _ H2));
    rw (proj2 (get_word_word _ S _ HS));
    rw (proj2 (get_word_word _ k3 _ H3)).
  - pose proof (get_uint_minus 0 (to_string n) EmptyString Hne Hd ltac:(lia) I) as Hu.
    rw app_empty_r in Hu.
    destruct (Request.get_uint _ _) as [a ins]. cbn [fst] in Hu. rw Hu Hv.
    f_equal. unfold wrap. symmetry.
    apply Z.mod_unique_pos with (q := -1); unfold UINT_MAX in *; lia.
  - pose proof (get_uint_huge 0 (to_string n) EmptyString Hd ltac:(lia) I) as Hu.
    rw app_empty_r in Hu.
    destruct (Request.get_uint _ _) as [a ins]. cbn [fst] in Hu. by rw Hu.
Qed.

(** [parse_amount_out_of_range] on a sale of minus one. *)
Lemma parse_amount_out_of_range_witness :
  Request.parse ("trans" +:+ "=" +:+ "sell" +:+ "&" +:+ "stock" +:+ "=" +:+ "ACME" +:+ "&"
                 +:+ "amount" +:+ "=" +:+ "-" +:+ to_string 1)
  = {| Request.trans := "sell"; Request.stock := "ACME";
       Request.amount := UINT_MAX + 1 - 1 |}.
Proof.
  apply (parse_amount_out_of_range "trans" "sell" "stock" "ACME" "amount" 1);
    try reflexivity. unfold UINT_MAX. lia.
Defined.

(** ** The books of the server *)

Lemma in_sessions_insert_new (ts : gmap tid pc) t p :
  ts !! t = None →
  in_sessions (<[t := p]> ts)
  = ((if in_session p then 1 else 0) + in_sessions ts)%nat.
Proof.
  intros Hnone. unfold in_sessions. rw (map_to_list_insert ts t p Hnone).
  rw filter_cons. cbn [snd]. destruct (in_session p); by case_decide.
Qed.

Lemma in_sessions_insert (ts : gmap tid pc) t p p' :
  ts !! t = Some p →
  (in_sessions (<[t := p']> ts) + (if in_session p then 1 else 0)
   = in_sessions ts + (if in_session p' then 1 else 0))%nat.
Proof.
  intros Hp. rw -(insert_delete_id ts t p Hp). rw insert_insert_eq.
  rw !in_sessions_insert_new; [apply lookup_delete_eq..|]. lia.
Qed.

Lemma in_sessions_notify_all ts : in_sessions (notify_all ts) = in_sessions ts.
Proof.
  unfold in_sessions, notify_all. rw map_to_list_fmap.
  induction (map_to_list ts) as [|[t p] l IH]; [done|].
  rw fmap_cons !filter_cons. cbn [prod_map fst snd].
  assert (in_session (wake_buyer p) = in_session p) as -> by by destruct p.
  case_decide; cbn [length]; by rw IH.
Qed.

Lemma in_sessions_size (ts : gmap tid pc) : (in_sessions ts ≤ size ts)%nat.
Proof.
  unfold in_sessions. rw -length_map_to_list. apply length_filter.
Qed.

Lemma wrap_int_small x : - INT_MAX - 1 ≤ x ≤ INT_MAX → wrap_int x = x.
Proof. intros Hx. unfold wrap_int. rw Z.mod_small; unfold INT_MAX, UINT_MAX in *; lia. Qed.

Lemma dispatch_in_session c :
  in_session (dispatch c) = true ∧ has_answered (dispatch c) = false.
Proof. unfold dispatch. by repeat case_match. Qed.

Lemma pending_notify_one a : pending (notify_one a) = pending a.
Proof. by destruct a. Qed.

(** A thread moves on, the counter moving with it. *)
Lemma accounted_move conns σ σ' t p p' :
  accounted conns σ →
  threads σ !! t = Some p →
  threads σ' = <[t := p']> (threads σ) →
  (Z.of_nat (length conns) ≤ INT_MAX →
   threadCount σ' + (if in_session p then 1 else 0)
   = threadCount σ + (if in_session p' then 1 else 0)) →
  spawned σ' = spawned σ →
  pending (acceptor σ') = pending (acceptor σ) →
  backlog σ' = backlog σ →
  (sent σ' = sent σ ∧ has_answered p' = has_answered p
   ∨ (∃ msg, sent σ' = <[t := msg]> (sent σ)) ∧ has_answered p' = true) →
  accounted conns σ'.
Proof.
  intros [Hcount Hslots Hsize Hconns Hsent] Hp Ht Htc Hsp Hpend Hbl Hmsg.
  constructor.
  - intros Hbound. specialize (Hcount Hbound). specialize (Htc Hbound).
    unfold sessions in *. fold (in_sessions (threads σ')). fold (in_sessions (threads σ)) in Hcount.
    rw Ht. pose proof (in_sessions_insert (threads σ) t p p' Hp) as Hins.
    destruct (in_session p), (in_session p'); lia.
  - intros t'. rw Ht Hsp -Hslots lookup_insert_is_Some.
    split; [intros [<-|[_ H]]; [by rw Hp|done]|].
    intros H. destruct (decide (t = t')); [by left|by right].
  - rw Ht Hsp -Hsize. apply map_size_insert_Some. by rw Hp.
  - by rw Hsp Hpend Hbl.
  - intros t'. destruct (decide (t' = t)) as [->|Hne].
    + rw Ht lookup_insert_eq. destruct Hmsg as [[-> Ha]|[[msg ->] Ha]].
      * rw Hsent Hp. split; intros (q & [= <-] & Hq); eexists; (split; [done|]);
          congruence.
      * rw lookup_insert_eq. split; [by exists p'|by intros _].
    + rw Ht lookup_insert_ne // -Hsent.
      destruct Hmsg as [[-> _]|[[msg ->] _]]; [done|]. by rw lookup_insert_ne.
Qed.

Lemma accounted_notify_all conns σ :
  accounted conns σ → accounted conns (with_threads (notify_all (threads σ)) σ).
Proof.
  intros [Hcount Hslots Hsize Hconns Hsent]. constructor; unfold_state.
  - intros Hbound. specialize (Hcount Hbound). unfold sessions in *. cbn [threads with_threads].
    fold (in_sessions (notify_all (threads σ))). by rw in_sessions_notify_all.
  - intros t. unfold notify_all. by rw lookup_fmap fmap_is_Some.
  - unfold notify_all. by rw map_size_fmap.
  - done.
  - intros t. rw Hsent. unfold notify_all. rw lookup_fmap.
    destruct (threads σ !! t) as [p|]; cbn [fmap option_fmap option_map].
    + split; intros (q & [= <-] & Hq); eexists; (split; [done|]); by destruct p.
    + split; by intros (q & ? & _).
Qed.

Lemma client_step_accounted conns t σ σ' :
  accounted conns σ → client_step t σ = Some σ' → accounted conns σ'.
Proof.
  intros Hσ. unfold client_step. destruct (crashed σ); [done|].
  destruct (threads σ !! t) as [p|] eqn:Hp; [|done]. cbn [mbind option_bind].
  assert (Hroom : Z.of_nat (length conns) ≤ INT_MAX →
                  Z.of_nat (size (threads σ)) ≤ INT_MAX).
  { pose proof (acc_size _ _ Hσ). pose proof (acc_conns _ _ Hσ). lia. }
  pose proof (acc_count _ _ Hσ) as Hcount. unfold sessions in Hcount.
  fold (in_sessions (threads σ)) in Hcount.
  pose proof (in_sessions_insert (threads σ) t p CT_leave Hp) as Hup.
  pose proof (in_sessions_insert (threads σ) t p CT_done Hp) as Hdown.
  pose proof (in_sessions_size (<[t := CT_leave]> (threads σ))) as Hle.
  rw map_size_insert_Some in Hle; [by rw Hp|].
  pose proof (in_sessions_size (threads σ)) as Hle'.
  destruct p; cbn [exec clientThread reset create buy sell status];
    repeat match goal with
           | |- context [acquire ?t ?s ?m] =>
               destruct (acquire t s m) eqn:?; cbn [mbind option_bind]
           | |- context [stockMap σ !! ?s] => destruct (stockMap σ !! s) eqn:?
           | |- context [?x <=? ?y] => destruct (x <=? y)
           end;
    try done; intros [= <-].
  all: try (eapply (accounted_move conns σ _ t _ _ Hσ Hp);
            [ reflexivity | intros _; unfold_state; cbn [in_session]; lia | reflexivity
            | reflexivity | reflexivity | left; split; reflexivity ]).
  - (* threadCount++ *)
    eapply (accounted_move conns σ _ t _ _ Hσ Hp);
      [ reflexivity | | reflexivity | reflexivity | reflexivity | left; split; reflexivity ].
    intros Hbound. specialize (Hcount Hbound). specialize (Hroom Hbound).
    unfold_state. cbn [in_session] in *. rw wrap_int_small; unfold INT_MAX in *; lia.
  - (* the transaction is chosen *)
    destruct (dispatch_in_session (Request.parse request)) as [Hin Hans].
    eapply (accounted_move conns σ _ t _ _ Hσ Hp);
      [ reflexivity | | reflexivity | reflexivity | reflexivity | left; split; [reflexivity|done] ].
    intros _. unfold_state. rw Hin. cbn [in_session]. lia.
  - (* the exception *)
    destruct Hσ. constructor; by unfold_state.
  - (* notify_all *)
    pose proof (accounted_notify_all conns σ Hσ) as Hσ'.
    eapply (accounted_move conns _ _ t (Sell_notify stock) _ Hσ');
      [ | reflexivity | intros _; unfold_state; cbn [in_session]; lia | reflexivity
      | reflexivity | reflexivity | left; split; reflexivity ].
    unfold_state. unfold notify_all. by rw lookup_fmap Hp.
  - (* HTTPResponse *)
    eapply (accounted_move conns σ _ t _ _ Hσ Hp);
      [ reflexivity | intros _; unfold_state; cbn [in_session]; lia | reflexivity
      | reflexivity | reflexivity | right; split; [by eexists|reflexivity] ].
  - (* threadCount-- *)
    eapply (accounted_move conns σ _ t _ _ Hσ Hp);
      [ reflexivity | | reflexivity | reflexivity | reflexivity | left; split; reflexivity ].
    intros Hbound. specialize (Hcount Hbound). specialize (Hroom Hbound).
    unfold_state. cbn [in_session] in *. rw wrap_int_small; unfold INT_MAX in *; lia.
  - (* notify_one *)
    eapply (accounted_move conns σ _ t _ _ Hσ Hp);
      [ reflexivity | intros _; unfold_state; cbn [in_session]; lia | reflexivity
      | unfold_state; apply pending_notify_one | reflexivity | left; split; reflexivity ].
Qed.

Lemma runServer_accounted conns mt σ σ' :
  accounted conns σ → runServer mt σ = Some σ' → accounted conns σ'.
Proof.
  intros Hσ. pose proof Hσ as [Hcount Hslots Hsize Hconns Hsent].
  unfold runServer. destruct (crashed σ); [done|].
  destruct (acceptor σ) eqn:Hacc; cbn [pending] in Hconns.
  - destruct (backlog σ) as [|c cs] eqn:Hbl; [done|]. intros [= <-].
    constructor; unfold_state; try done. cbn [length] in Hconns. cbn [pending]. lia.
  - destruct (serverMutex σ); [done|]. intros [= <-]. by constructor; unfold_state.
  - destruct (threadCount σ <? mt); intros [= <-]; by constructor; unfold_state.
  - done.
  - destruct (serverMutex σ); [done|]. intros [= <-]. by constructor; unfold_state.
  - intros [= <-].
    assert (Hnew : threads σ !! spawned σ = None).
    { apply eq_None_not_Some. rw Hslots. lia. }
    constructor; unfold_state.
    + intros Hbound. specialize (Hcount Hbound).
      unfold sessions in *. cbn [threads with_threads].
      fold (in_sessions (<[spawned σ := CT_enter c]> (threads σ))).
      fold (in_sessions (threads σ)) in Hcount.
      by rw in_sessions_insert_new.
    + intros t. rw lookup_insert_is_Some Hslots. split; [intros [<-|[_ H]]; lia|].
      intros H. destruct (decide (spawned σ = t)); [by left|right; split; [done|lia]].
    + rw map_size_insert_None // Hsize //.
    + cbn [pending]. lia.
    + intros t. rw Hsent. destruct (decide (t = spawned σ)) as [->|Hne].
      * rw lookup_insert_eq Hnew. split; [by intros (q & ? & _)|by intros (q & [= <-] & ?)].
      * by rw lookup_insert_ne.
  - intros [= <-]. by constructor; unfold_state.
Qed.

Lemma step_accounted conns mt e σ σ' :
  accounted conns σ → step mt e σ = Some σ' → accounted conns σ'.
Proof.
  intros Hσ. destruct e as [t| |t|]; cbn [step].
  - by apply client_step_accounted.
  - by apply runServer_accounted.
  - destruct (crashed σ); [done|].
    destruct (threads σ !! t) as [p|] eqn:Hp; [|done].
    destruct p; try done. intros [= <-].
    eapply (accounted_move conns σ _ t _ _ Hσ Hp);
      [ reflexivity | unfold_state; cbn [in_session]; lia | reflexivity
      | reflexivity | reflexivity | left; split; reflexivity ].
  - destruct (crashed σ); [done|].
    pose proof Hσ as [Hcount Hslots Hsize Hconns Hsent].
    destruct (acceptor σ) eqn:Hacc; try done. intros [= <-].
    by constructor; unfold_state.
Qed.

Lemma boot_accounted conns : accounted conns (boot conns).
Proof.
  constructor; cbn; try done.
  - intros t. rw lookup_empty. split; [by intros [? ?]|lia].
  - intros t. rw lookup_empty. split; [by intros [? ?]|].
    intros (p & Hp & _). by rw lookup_empty in Hp.
Qed.

Lemma run_accounted conns mt es σ :
  run mt es (boot conns) = Some σ → accounted conns σ.
Proof.
  pose proof (boot_accounted conns) as H0. revert H0.
  generalize (boot conns). induction es as [|e es IH]; intros σ0 H0; simpl.
  - by intros [= <-].
  - destruct (step mt e σ0) as [σ1|] eqn:He; [|done]. simpl.
    apply IH. by eapply step_accounted.
Qed.

(** ** A server that is never reset *)















(** ** status, and how sell and buy compose *)

Lemma status_absent mt t s σ :
  crashed σ = false →
  threads σ !! t = Some (Status_find s) →
  stockMap σ !! s = None →
  run mt (alone t 1) σ = Some (goto t (CT_respond "Stock not found") σ).
Proof.
  intros Hc Hp Hs. alone_step_with ltac:(rw Hs). done.
Qed.

Lemma status_blocked mt t s st o σ :
  crashed σ = false →
  threads σ !! t = Some (Status_find s) →
  stockMap σ !! s = Some st →
  mutex st = Some o →
  run mt (alone t 1) σ = Some (goto t (Status_lock s) σ)
  ∧ ∀ k, run mt (alone t (1 + S k)) σ = None.
Proof.
  intros Hc Hp Hs Hm.
  assert (Hrun : run mt (alone t 1) σ = Some (goto t (Status_lock s) σ)).
  { alone_step_with ltac:(rw Hs). done. }
  split; [done|]. intros k.
  unfold alone. rw replicate_add. fold (alone t 1) (alone t (S k)).
  rw (run_app_Some _ _ _ _ _ Hrun).
  apply (run_alone_stuck mt t k (Status_lock s)); [apply goto_at|].
  cbn [exec status]. rw stockMap_goto. unfold acquire, subscript. by rw Hs /= Hm.
Qed.

Lemma sell_buy_restores mt t t2 s a st σ :
  crashed σ = false → t2 ≠ t →
  threads σ !! t = Some (Sell_find s a) →
  threads σ !! t2 = Some (Buy_find s a) →
  stockMap σ !! s = Some st → mutex st = None →
  0 ≤ a → 0 ≤ balance st → balance st + a ≤ UINT_MAX →
  ∃ σ', run mt (alone t 5 ++ alone t2 5) σ = Some σ'
        ∧ stockMap σ' = stockMap σ
        ∧ history σ' = history σ ++ [Sold s a; Bought s a]
        ∧ threads σ' !! t = Some (CT_respond ("Stock " +:+ s +:+ "'s balance updated"))
        ∧ threads σ' !! t2 = Some (CT_respond ("Stock " +:+ s +:+ "'s balance updated")).
Proof.
  intros Hc Hne Hp Hp2 Hs Hm Ha Hb Hsum.
  pose proof (sell_present mt t s a st σ Hc Hp Hs Hm) as Hsell.
  rw (wrap_small (balance st + a)) in Hsell; [lia|].
  set (st' := set_balance (balance st + a) st) in *.
  set (sold := goto t _ _) in Hsell.
  assert (Hp2' : threads sold !! t2 = Some (Buy_find s a)).
  { unfold sold. rw goto_other //. cbn [threads with_threads].
    unfold notify_all. by rw lookup_fmap Hp2. }
  assert (Hs' : stockMap sold !! s = Some st').
  { unfold sold. unfold_state. by rw lookup_insert_eq. }
  assert (Hmap : stockMap sold = <[s := st']> (stockMap σ)) by reflexivity.
  assert (Hhist : history sold = history σ ++ [Sold s a]) by reflexivity.
  assert (Ht : threads sold !! t
               = Some (CT_respond ("Stock " +:+ s +:+ "'s balance updated")))
    by apply goto_at.
  assert (Hle : a ≤ balance st') by (cbn [st' balance set_balance]; lia).
  pose proof (buy_fulfilled mt t2 s a st' sold Hc Hp2' Hs' Hm Hle) as Hbuy.
  clearbody sold.
  eexists. split; [rw (run_app_Some _ _ _ _ _ Hsell); exact Hbuy|].
  split; [|split; [|split]].
  - rw stockMap_goto. cbn [stockMap record with_stockMap]. rw Hmap insert_insert_eq.
    cbn [st' balance set_balance].
    replace (balance st + a - a) with (balance st) by lia.
    rw wrap_small; [lia|]. apply insert_id. rw Hs. by destruct st.
  - cbn [history goto with_threads record with_stockMap]. by rw Hhist -app_assoc.
  - rw goto_other //.
  - apply goto_at.
Qed.

Lemma sell_overflow_starves mt t t2 s a st σ :
  crashed σ = false → t2 ≠ t →
  threads σ !! t = Some (Sell_find s a) →
  threads σ !! t2 = Some (Buy_find s a) →
  stockMap σ !! s = Some st → mutex st = None →
  a ≤ UINT_MAX → balance st ≤ UINT_MAX → UINT_MAX < balance st + a →
  ∃ σ', run mt (alone t 5 ++ alone t2 3) σ = Some σ'
        ∧ threads σ' !! t2 = Some (Buy_wait s a)
        ∧ balance <$> stockMap σ' !! s = Some (balance st + a - (UINT_MAX + 1))
        ∧ ∀ k, run mt (alone t2 (S k)) σ' = None.
Proof.
  intros Hc Hne Hp Hp2 Hs Hm Ha Hb Hsum.
  pose proof (sell_present mt t s a st σ Hc Hp Hs Hm) as Hsell.
  assert (Hw : wrap (balance st + a) = balance st + a - (UINT_MAX + 1)).
  { unfold wrap. symmetry. apply Z.mod_unique_pos with (q := 1); unfold UINT_MAX in *; lia. }
  rw Hw in Hsell.
  set (st' := set_balance (balance st + a - (UINT_MAX + 1)) st) in *.
  set (sold := goto t _ _) in Hsell.
  assert (Hp2' : threads sold !! t2 = Some (Buy_find s a)).
  { unfold sold. rw goto_other //. cbn [threads with_threads].
    unfold notify_all. by rw lookup_fmap Hp2. }
  assert (Hs' : stockMap sold !! s = Some st').
  { unfold sold. unfold_state. by rw lookup_insert_eq. }
  assert (Hlt : balance st' < a).
  { cbn [st' balance set_balance]. unfold UINT_MAX in *. lia. }
  destruct (buy_sleeps mt t2 s a st' sold Hc Hp2' Hs' Hm Hlt) as [Hsleep _].
  clearbody sold.
  eexists. split; [rw (run_app_Some _ _ _ _ _ Hsell); exact Hsleep|].
  split; [apply goto_at|]. split.
  - rw stockMap_goto Hs'. reflexivity.
  - intros k. by apply (run_alone_stuck mt t2 k (Buy_wait s a)); [apply goto_at|].
Qed.

(** X16.  [status(stock)] called where the entry is present and its mutex
    free takes the lock, reads the balance and releases the lock: after
    four statements the caller is about to answer "Balance for stock ... =
    ..." with the stored balance, and nothing else in the state has
    changed.  Where another thread holds the mutex the caller passes the
    lookup and then cannot move.  Where the name is absent it answers
    "Stock not found" and changes nothing. *)
Theorem status_contract mt t s σ :
  crashed σ = false →
  threads σ !! t = Some (Status_find s) →
  (∀ st, stockMap σ !! s = Some st → mutex st = None →
     run mt (alone t 4) σ
     = Some (goto t (CT_respond ("Balance for stock " +:+ s +:+ " = "
                                   +:+ to_string (balance st))) σ))
  ∧ (∀ st o, stockMap σ !! s = Some st → mutex st = Some o →
     run mt (alone t 1) σ = Some (goto t (Status_lock s) σ)
     ∧ ∀ k, run mt (alone t (1 + S k)) σ = None)
  ∧ (stockMap σ !! s = None →
     run mt (alone t 1) σ = Some (goto t (CT_respond "Stock not found") σ)).
Proof.
  intros Hc Hp. split; [|split].
  - intros st Hs Hm. by apply (status_present mt t s st).
  - intros st o Hs Hm. by apply (status_blocked mt t s st o).
  - intros Hs. by apply (status_absent mt t s).
Qed.

(** [status_contract] on a run of the server: a status request arrives
    while a buyer stands between its lock and its predicate. *)
Lemma status_contract_witness :
  let σ := reached ["trans=create&stock=ACME&amount=100"; "trans=buy&stock=ACME&amount=30";
                    "trans=status&stock=ACME"; "trans=status&stock=GHOST"]
             (accepting 4 ++ alone 0 8 ++ alone 1 4 ++ alone 2 2 ++ alone 3 2) in
  mutex <$> stockMap σ !! "ACME" = Some (Some 1%nat)
  ∧ run 8 (alone 2%nat 1) σ = Some (goto 2%nat (Status_lock "ACME") σ)
  ∧ run 8 (alone 2%nat 2) σ = None
  ∧ run 8 (alone 3%nat 1) σ = Some (goto 3%nat (CT_respond "Stock not found") σ).
Proof.
  intros σ.
  assert (Hc : crashed σ = false) by (vm_compute; reflexivity).
  assert (H2 : threads σ !! 2%nat = Some (Status_find "ACME")) by (vm_compute; reflexivity).
  assert (H3 : threads σ !! 3%nat = Some (Status_find "GHOST")) by (vm_compute; reflexivity).
  assert (Hs : stockMap σ !! "ACME"
               = Some {| name := "ACME"; balance := 100; mutex := Some 1%nat |})
    by (vm_compute; reflexivity).
  assert (Hg : stockMap σ !! "GHOST" = None) by (vm_compute; reflexivity).
  clearbody σ. split; [by rw Hs|].
  destruct (status_contract 8 2%nat "ACME" σ Hc H2) as (_ & Hheld & _).
  destruct (Hheld _ 1%nat Hs eq_refl) as [Hrun Hstuck].
  split; [exact Hrun|]. split; [exact (Hstuck 0%nat)|].
  exact (proj2 (proj2 (status_contract 8 3%nat "GHOST" σ Hc H3)) Hg).
Defined.

(** X17.  A [sell] of [a] followed by a [buy] of the same [a] on an entry
    with a free mutex.  When [balance + a] fits [unsigned int], both go
    through and the ledger is back where it was, entry for entry; the
    history has grown by the two transactions.  When [balance + a] passes
    [UINT_MAX], the balance stored by [sell] is [balance + a - 2^32], which
    is below [a]: the buyer finds its predicate false and sleeps, though
    [a] has just been sold. *)
Theorem sell_then_buy mt t t2 s a st σ :
  crashed σ = false → t2 ≠ t →
  threads σ !! t = Some (Sell_find s a) →
  threads σ !! t2 = Some (Buy_find s a) →
  stockMap σ !! s = Some st → mutex st = None →
  0 ≤ a ≤ UINT_MAX → 0 ≤ balance st ≤ UINT_MAX →
  (balance st + a ≤ UINT_MAX →
     ∃ σ', run mt (alone t 5 ++ alone t2 5) σ = Some σ'
           ∧ stockMap σ' = stockMap σ
           ∧ history σ' = history σ ++ [Sold s a; Bought s a]
           ∧ threads σ' !! t = Some (CT_respond ("Stock " +:+ s +:+ "'s balance updated"))
           ∧ threads σ' !! t2 = Some (CT_respond ("Stock " +:+ s +:+ "'s balance updated")))
  ∧ (UINT_MAX < balance st + a →
     ∃ σ', run mt (alone t 5 ++ alone t2 3) σ = Some σ'
           ∧ threads σ' !! t2 = Some (Buy_wait s a)
           ∧ balance <$> stockMap σ' !! s = Some (balance st + a - (UINT_MAX + 1))
           ∧ ∀ k, run mt (alone t2 (S k)) σ' = None).
Proof.
  intros Hc Hne Hp Hp2 Hs Hm [Ha0 Ha] [Hb0 Hb]. split.
  - intros Hsum. by apply (sell_buy_restores mt t t2 s a st).
  - intros Hsum. by apply (sell_overflow_starves mt t t2 s a st).
Qed.

(** [sell_then_buy] on a run of the server: 50 are sold and bought on a
    balance of 100. *)
Lemma sell_then_buy_witness :
  let σ := reached ["trans=create&stock=ACME&amount=100"; "trans=sell&stock=ACME&amount=50";
                    "trans=buy&stock=ACME&amount=50"]
             (accepting 3 ++ alone 0 8 ++ alone 1 2 ++ alone 2 2) in
  ∃ σ', run 8 (alone 1%nat 5 ++ alone 2%nat 5) σ = Some σ'
        ∧ stockMap σ' = stockMap σ
        ∧ history σ' = history σ ++ [Sold "ACME" 50; Bought "ACME" 50].
Proof.
  intros σ.
  assert (Hc : crashed σ = false) by (vm_compute; reflexivity).
  assert (H1 : threads σ !! 1%nat = Some (Sell_find "ACME" 50)) by (vm_compute; reflexivity).
  assert (H2 : threads σ !! 2%nat = Some (Buy_find "ACME" 50)) by (vm_compute; reflexivity).
  assert (Hs : stockMap σ !! "ACME" = Some {| name := "ACME"; balance := 100; mutex := None |})
    by (vm_compute; reflexivity).
  clearbody σ.
  destruct (sell_then_buy 8 1%nat 2%nat "ACME" 50 _ σ Hc ltac:(done) H1 H2 Hs eq_refl)
    as [Hfits _]; [unfold UINT_MAX; lia|cbn [balance]; unfold UINT_MAX; lia|].
  destruct Hfits as (σ' & Hrun & Hmap & Hhist & _); [cbn [balance]; unfold UINT_MAX; lia|].
  exists σ'. split; [exact Hrun|]. split; [exact Hmap|exact Hhist].
Defined.

(** X18.  [sm::threadCount] is exact: in every state the server reaches,
    under every schedule, it is the number of threads between their
    [threadCount++] and their [threadCount--], provided the connections
    can be counted in an [int].  A thread that [runServer] has created and
    that has not run its first statement is not counted. *)
Theorem threadCount_is_sessions mt conns es σ :
  Z.of_nat (length conns) ≤ INT_MAX →
  run mt es (boot conns) = Some σ →
  threadCount σ = Z.of_nat (sessions σ)
  ∧ 0 ≤ threadCount σ ≤ Z.of_nat (spawned σ).
Proof.
  intros Hbound Hrun. pose proof (run_accounted conns mt es σ Hrun) as Hσ.
  pose proof (acc_count _ _ Hσ Hbound) as Hcount. split; [done|].
  rw Hcount. unfold sessions. fold (in_sessions (threads σ)).
  pose proof (in_sessions_size (threads σ)). rw (acc_size _ _ Hσ) in H. lia.
Qed.

(** [threadCount_is_sessions] on a run of the server: of three threads,
    one has finished, one is inside its transaction and one has not
    started. *)
Lemma threadCount_is_sessions_witness :
  let conns := ["trans=create&stock=ACME&amount=100"; "trans=buy&stock=ACME&amount=150";
                "trans=status&stock=ACME"] in
  let es := accepting 3 ++ alone 0 8 ++ alone 1 5 in
  ∃ σ, run 8 es (boot conns) = Some σ
       ∧ threadCount σ = Z.of_nat (sessions σ)
       ∧ threadCount σ = 1.
Proof.
  intros conns es.
  assert (H : ∃ σ, run 8 es (boot conns) = Some σ ∧ threadCount σ = 1)
    by (eexists; split; vm_compute; reflexivity).
  destruct H as (σ & Hrun & Hone). exists σ. split; [exact Hrun|]. split; [|exact Hone].
  apply (threadCount_is_sessions 8 conns es σ); [vm_compute; congruence|exact Hrun].
Defined.



(** X20.  A message has been written for exactly the threads that are
    past [HTTPResponse]: in every state the server reaches, a thread that
    has finished has answered, and a thread that has not reached line 277
    has written nothing. *)
Theorem answers_accounted mt conns es σ t :
  run mt es (boot conns) = Some σ →
  (is_Some (sent σ !! t) ↔ ∃ p, threads σ !! t = Some p ∧ has_answered p = true)
  ∧ (threads σ !! t = Some CT_done → is_Some (sent σ !! t)).
Proof.
  intros Hrun. pose proof (run_accounted conns mt es σ Hrun) as Hσ.
  split; [apply Hσ|]. intros Hdone. apply (acc_sent _ _ Hσ). by exists CT_done.
Qed.

(** [answers_accounted] on a run of the server: the first session has
    finished. *)
Lemma answers_accounted_witness :
  let conns := ["trans=create&stock=ACME&amount=100"; "trans=buy&stock=ACME&amount=150"] in
  let es := accepting 2 ++ alone 0 8 ++ alone 1 5 in
  ∃ σ, run 8 es (boot conns) = Some σ
       ∧ threads σ !! 0%nat = Some CT_done
       ∧ is_Some (sent σ !! 0%nat)
       ∧ ¬ is_Some (sent σ !! 1%nat).
Proof.
  intros conns es.
  assert (H : ∃ σ, run 8 es (boot conns) = Some σ
                   ∧ threads σ !! 0%nat = Some CT_done
                   ∧ threads σ !! 1%nat = Some (Buy_wait "ACME" 150))
    by (eexists; split; [|split]; vm_compute; reflexivity).
  destruct H as (σ & Hrun & Hdone & Hwait). exists σ.
  split; [exact Hrun|]. split; [exact Hdone|].
  split; [exact (proj2 (answers_accounted 8 conns es σ 0%nat Hrun) Hdone)|].
  intros Hsent. apply (proj1 (answers_accounted 8 conns es σ 1%nat Hrun)) in Hsent.
  destruct Hsent as (p & Hp & Hans). rw Hwait in Hp. injection Hp as <-. discriminate.
Defined.





(** ** Wake-ups that find the balance still short *)

(** X25.  A buyer asleep in the wait that is woken while the balance is
    still below its amount (by a spurious wake-up, or by the [notify_all]
    of a sale that did not bring enough) takes the lock, finds its
    predicate false and sleeps again: three statements later the state is
    exactly the one before the wake-up. *)
Theorem wakeup_without_funds mt t s a st σ :
  crashed σ = false →
  threads σ !! t = Some (Buy_wait s a) →
  stockMap σ !! s = Some st →
  mutex st = None →
  balance st < a →
  run mt (Spurious t :: alone t 2) σ = Some σ
  ∧ run mt (alone t 2) (goto t (Buy_relock s a) σ) = Some σ.
Proof.
  intros Hc Hp Hs Hm Ha.
  assert (Hrun : run mt (alone t 2) (goto t (Buy_relock s a) σ) = Some σ).
  { alone_step_with ltac:(rw Hs /=; rw (acquire_free _ _ _ _ Hs Hm)).
    alone_step_with ltac:(rw lookup_insert_eq /=; rw (proj2 (Z.leb_gt _ _) Ha);
                          erewrite release_held; [|apply lookup_insert_eq|done]).
    cbn [alone replicate run]. f_equal. unfold_state.
    destruct σ; simpl in *. f_equal.
    - rw !insert_insert_eq. unfold set_mutex; simpl. rw -Hm. destruct st; simpl.
      by apply insert_id.
    - rw !insert_insert_eq. by apply insert_id. }
  split; [|exact Hrun].
  cbn [run step]. by rw Hc Hp.
Qed.

(** [wakeup_without_funds] on a run of the server: a buyer of 150 sleeps on
    a balance of 100. *)
Lemma wakeup_without_funds_witness :
  let σ := reached ["trans=create&stock=ACME&amount=100"; "trans=buy&stock=ACME&amount=150"]
             (accepting 2 ++ alone 0 8 ++ alone 1 5) in
  threads σ !! 1%nat = Some (Buy_wait "ACME" 150)
  ∧ run 8 (Spurious 1%nat :: alone 1%nat 2) σ = Some σ.
Proof.
  intros σ.
  assert (Hc : crashed σ = false) by (vm_compute; reflexivity).
  assert (H1 : threads σ !! 1%nat = Some (Buy_wait "ACME" 150)) by (vm_compute; reflexivity).
  assert (Hs : stockMap σ !! "ACME" = Some {| name := "ACME"; balance := 100; mutex := None |})
    by (vm_compute; reflexivity).
  clearbody σ. split; [exact H1|].
  exact (proj1 (wakeup_without_funds 8 1%nat "ACME" 150 _ σ Hc H1 Hs eq_refl eq_refl)).
Defined.
